(** * amq: envelope, signature and handshake handlers

    A shallow embedding of the Go packages [message], [node], the handshake
    handlers of [handler.go] and the outbound check of [client.go].

    Conventions of the embedding:
    - Go [string] is [string] (a sequence of bytes); [int64] and [int] are [Z].
    - The typed strings [_MessageCategory] and [_MessagePhase] stay strings:
      a decoded envelope can carry any value, not only the three constants.
    - A [*MsgBody] is [option MsgBody.t]: [None] is the nil pointer.  A body is
      modelled by its contents; the handlers never write through a
      [*MsgBody], they only copy the pointer.
    - A [*MsgPayload] is a location in a heap of envelopes, so that
      allocation ([&MsgPayload{...}]) and the in-place setters ([SetBody],
      [SetSign]) are visible.
    - A nil-pointer dereference is the outcome [Panic].
        - [fmt.Errorf] values are the constructors of [error], one per message
      of the source. *)

From Stdlib Require Import ZArith String Ascii List DecimalString Lia.
From stdpp Require Import base option list strings gmap sorting.

Local Open Scope string_scope.
Local Open Scope list_scope.
Local Open Scope Z_scope.

(* ===================================================================== *)
(** * Package utils (github.com/aluka-7/utils), not part of this repository *)
(* ===================================================================== *)

(** [utils.MD5] is used by [message.Signature] only as a function from
    strings to strings.  The development is parametric in it. *)
Class Digest := MD5 : string → string.

(** Modelled from the spec: [utils.ToStr] on an [int64] (package utils is
    not under src/); the signed text carries the send time as a decimal
    string. *)
Definition ToStr (v : Z) : string := NilZero.string_of_int (Z.to_int v).

(** ** A concrete digest: RFC 1321 MD5, hexadecimal, lower case

    Modelled from the spec: the hash the source applies is MD5 ([utils.MD5],
    not under src/).  Used to run the model on concrete envelopes; the
    general statements hold for every [Digest]. *)
Module RFC1321.

Definition w32 (x : Z) : Z := x mod 2 ^ 32.
Definition add32 (x y : Z) : Z := w32 (x + y).
Definition not32 (x : Z) : Z := Z.lxor x 0xFFFFFFFF.
Definition rotl32 (x c : Z) : Z :=
  Z.lor (w32 (Z.shiftl x c)) (Z.shiftr x (32 - c)).

Definition K : list Z :=
  [ 0xd76aa478; 0xe8c7b756; 0x242070db; 0xc1bdceee;
    0xf57c0faf; 0x4787c62a; 0xa8304613; 0xfd469501;
    0x698098d8; 0x8b44f7af; 0xffff5bb1; 0x895cd7be;
    0x6b901122; 0xfd987193; 0xa679438e; 0x49b40821;
    0xf61e2562; 0xc040b340; 0x265e5a51; 0xe9b6c7aa;
    0xd62f105d; 0x02441453; 0xd8a1e681; 0xe7d3fbc8;
    0x21e1cde6; 0xc33707d6; 0xf4d50d87; 0x455a14ed;
    0xa9e3e905; 0xfcefa3f8; 0x676f02d9; 0x8d2a4c8a;
    0xfffa3942; 0x8771f681; 0x6d9d6122; 0xfde5380c;
    0xa4beea44; 0x4bdecfa9; 0xf6bb4b60; 0xbebfbc70;
    0x289b7ec6; 0xeaa127fa; 0xd4ef3085; 0x04881d05;
    0xd9d4d039; 0xe6db99e5; 0x1fa27cf8; 0xc4ac5665;
    0xf4292244; 0x432aff97; 0xab9423a7; 0xfc93a039;
    0x655b59c3; 0x8f0ccc92; 0xffeff47d; 0x85845dd1;
    0x6fa87e4f; 0xfe2ce6e0; 0xa3014314; 0x4e0811a1;
    0xf7537e82; 0xbd3af235; 0x2ad7d2bb; 0xeb86d391 ].

Definition S : list Z :=
  [ 7; 12; 17; 22; 7; 12; 17; 22; 7; 12; 17; 22; 7; 12; 17; 22;
    5; 9; 14; 20; 5; 9; 14; 20; 5; 9; 14; 20; 5; 9; 14; 20;
    4; 11; 16; 23; 4; 11; 16; 23; 4; 11; 16; 23; 4; 11; 16; 23;
    6; 10; 15; 21; 6; 10; 15; 21; 6; 10; 15; 21; 6; 10; 15; 21 ].

Definition bytes_of (s : string) : list Z :=
  List.map (fun c => Z.of_N (N_of_ascii c)) (list_ascii_of_string s).

(** little-endian bytes of the low [n] bytes of [x] *)
Fixpoint le_bytes (n : nat) (x : Z) : list Z :=
  match n with
  | O => []
  | Datatypes.S n' => x mod 256 :: le_bytes n' (x / 256)
  end.

Fixpoint le_word (bs : list Z) : Z :=
  match bs with
  | [] => 0
  | b :: bs' => b + 256 * le_word bs'
  end.

Definition pad (msg : list Z) : list Z :=
  let len := Z.of_nat (List.length msg) in
  let zeros := Z.to_nat ((55 - len) mod 64) in
  msg ++ 0x80 :: List.repeat 0 zeros ++ le_bytes 8 (8 * len).

Fixpoint chunks (fuel : nat) (n : nat) (bs : list Z) : list (list Z) :=
  match fuel, bs with
  | O, _ | _, [] => []
  | Datatypes.S fuel', _ => firstn n bs :: chunks fuel' n (skipn n bs)
  end.

Definition words (block : list Z) : list Z :=
  List.map le_word (chunks 16 4 block).

Record state := St { sa : Z; sb : Z; sc : Z; sd : Z }.

Definition round (M : list Z) (st : state) (i : nat) : state :=
  let '(St a b c d) := st in
  let iz := Z.of_nat i in
  let '(f, g) :=
    if iz <? 16 then (Z.lor (Z.land b c) (Z.land (not32 b) d), iz)
    else if iz <? 32 then
      (Z.lor (Z.land d b) (Z.land (not32 d) c), (5 * iz + 1) mod 16)
    else if iz <? 48 then (Z.lxor b (Z.lxor c d), (3 * iz + 5) mod 16)
    else (Z.lxor c (Z.lor b (not32 d)), (7 * iz) mod 16) in
  let f' := add32 (add32 (add32 f a) (nth i K 0)) (nth (Z.to_nat g) M 0) in
  St d (add32 b (rotl32 f' (nth i S 0))) b c.

Definition block (st : state) (blk : list Z) : state :=
  let '(St a b c d) := fold_left (round (words blk)) (seq 0 64) st in
  St (add32 (sa st) a) (add32 (sb st) b) (add32 (sc st) c) (add32 (sd st) d).

Definition init : state := St 0x67452301 0xefcdab89 0x98badcfe 0x10325476.

Definition digest (msg : list Z) : list Z :=
  let p := pad msg in
  let '(St a b c d) := fold_left block (chunks (List.length p) 64 p) init in
  le_bytes 4 a ++ le_bytes 4 b ++ le_bytes 4 c ++ le_bytes 4 d.

Definition hex_digit (n : Z) : ascii :=
  ascii_of_N (Z.to_N (if n <? 10 then 48 + n else 87 + n)).

Fixpoint hex (bs : list Z) : string :=
  match bs with
  | [] => EmptyString
  | b :: bs' => String (hex_digit (b / 16)) (String (hex_digit (b mod 16)) (hex bs'))
  end.

Definition md5_hex (s : string) : string := hex (digest (bytes_of s)).

End RFC1321.

(* ===================================================================== *)
(** * Errors *)
(* ===================================================================== *)

(** [errors.New] and [fmt.Errorf] values.  One constructor per message of
    the source; the constructor's argument is the value the message is
    formatted with. *)
Inductive error :=
| ErrInvalidPhase (phase : string)
    (* handler.go 42 52 61 73 92 112 121 136, message.go 323:
       the text for an invalid message phase *)
| ErrInvalidCategory (category : string)
    (* handler.go 25 55: the text for an invalid message type *)
| ErrNotNotice                    (* message.go 275 *)
| ErrNotSimplex                   (* message.go 285 *)
| ErrNotDuplex                    (* message.go 296 *)
| ErrQueueName (name : string)    (* client.go 237 *)
| ErrInvalidNode                  (* node.go 29 *)
| ErrApplication (text : string). (* an error made by application or transport code *)

(* ===================================================================== *)
(** * Package node (node/node.go) *)
(* ===================================================================== *)

Module Node.

(** [type Node int64] *)
Definition t := Z.

Definition BIZ : t := 0.
Definition FUND : t := 1.
Definition OPT : t := 2.

Definition String (n : t) : string :=
  if decide (n < BIZ ∨ n > OPT) then "Unknown"
  else nth (Z.to_nat n) ["biz"; "fund"; "opt"] "".

Definition IsValid (n : t) : option error :=
  if decide (n = BIZ ∨ n = FUND ∨ n = OPT) then None
  else Some ErrInvalidNode.

Definition GetNode (node : string) : t :=
  if decide (node = String BIZ) then BIZ
  else if decide (node = String FUND) then FUND
  else if decide (node = String OPT) then OPT
  else -1.

Definition Values : list t := [BIZ; FUND; OPT].

Definition HasNode (node : string) : bool :=
  if decide (IsValid (GetNode node) = None) then true else false.

End Node.

(* ===================================================================== *)
(** * Package message (message/message.go) *)
(* ===================================================================== *)

(** The byte 0x22, the double quote character. *)
Definition dq : string := String (ascii_of_nat 34) EmptyString.

(** [type _MessageCategory string] *)
Definition _MessageCategory := string.

Definition NOTICE : _MessageCategory := "1".
Definition SIMPLEX : _MessageCategory := "2".
Definition DUPLEX : _MessageCategory := "3".

Module MessageCategory.
Definition String (n : _MessageCategory) : string :=
  let mc : gmap string string :=
    <["1" := "NOTICE"]> (<["2" := "SIMPLEX"]> (<["3" := "DUPLEX"]> ∅)) in
  match mc !! n with
  | Some v => v
  | None => "Unknown"
  end.
End MessageCategory.

(** [type _MessagePhase string] *)
Definition _MessagePhase := string.

Definition SenderReq : _MessagePhase := "1".
Definition ReceiverAck : _MessagePhase := "2".
Definition SenderAck : _MessagePhase := "3".

Module MessagePhase.
Definition String (n : _MessagePhase) : string :=
  let mc : gmap string string :=
    <["1" := "SENDER_REQ"]>
      (<["2" := "RECEIVER_ACK"]> (<["3" := "SENDER_ACK"]> ∅)) in
  match mc !! n with
  | Some v => v
  | None => "Unknown"
  end.
End MessagePhase.

(** [sort.Strings]: increasing order of Go's [<] on strings, which compares
    byte by byte; [String.le] is that order. *)
Definition sort_Strings (keys : list string) : list string :=
  merge_sort String.le keys.

Module MsgBody.

(** [Body map[string]string].  A nil map and an empty map read alike
    ([len] 0, every lookup misses), and [Add] replaces either by a fresh
    map before writing, so one empty value stands for both. *)
Record t := Make { Body : gmap string string }.

Definition NewMessageBody : t := {| Body := ∅ |}.

(** [value] is the string [utils.ToStr] made of the Go argument. *)
Definition Add (key value : string) (mb : t) : t :=
  let body := if decide (size (Body mb) < 1)%nat then ∅ else Body mb in
  {| Body := <[key := value]> body |}.

Definition HasKey (key : string) (mb : t) : bool :=
  match Body mb !! key with
  | Some _ => true
  | None => false
  end.

Definition Get (key : string) (mb : t) : string :=
  default "" (Body mb !! key).

(** The loop [for i, k := range keys] of [ToString], on the buffer. *)
Fixpoint write_keys (mb : t) (i : nat) (keys : list string)
    (buffer : string) : string :=
  match keys with
  | [] => buffer
  | k :: keys' =>
      let buffer := if decide (0 < i)%nat then buffer +:+ "," else buffer in
      let buffer := buffer +:+ dq in
      let buffer := buffer +:+ k in
      let buffer := buffer +:+ dq +:+ ":" +:+ dq in
      let buffer := buffer +:+ Get k mb in
      let buffer := buffer +:+ dq in
      write_keys mb (S i) keys' buffer
  end.

(** A Go [range] over a map visits every key once, in an order the
    runtime chooses afresh each time. *)
Definition range_order (mb : t) (order : list string) : Prop :=
  order ≡ₚ (map_to_list (Body mb)).*1.

(** [ToString], given the order in which [range mb.Body] yields the keys. *)
Definition ToString_range (order : list string) (mb : t) : string :=
  let size := size (Body mb) in
  if decide (size = 0)%nat then ""
  else
    let keys := fold_left (λ keys k, (keys ++ [k])%list) order [] in
    let keys := sort_Strings keys in
    let buffer := "" in
    let buffer := buffer +:+ "{" in
    let buffer := write_keys mb 0 keys buffer in
    let buffer := buffer +:+ "}" in
    buffer.

(** [ToString] with one fixed order; [ToString_range] returns the same
    string for every order (theorem [ToString_range_irrelevant]). *)
Definition ToString (mb : t) : string :=
  ToString_range (map_to_list (Body mb)).*1 mb.

End MsgBody.

Module Message.
Record t := Make { genre : string; msgId : string; Body : option MsgBody.t }.
Definition SetType (genre : string) (m : t) : t :=
  {| genre := genre; msgId := msgId m; Body := Body m |}.
Definition SetBody (body : option MsgBody.t) (m : t) : t :=
  {| genre := genre m; msgId := msgId m; Body := body |}.
End Message.

Module NoticeMessage.
Record t := Make { Message : Message.t; Destination : string }.
End NoticeMessage.

Module SimplexMessage.
Record t := Make { Message : Message.t; Source : string; Destination : string }.
End SimplexMessage.

Module DuplexMessage.
Record t := Make {
  Message : Message.t;
  Source : string;
  DestinationNew : string;
  DestinationAck : string }.
End DuplexMessage.

(** [new(T)] leaves every field at its zero value. *)
Definition NewNoticeMessage (msgId : string) : NoticeMessage.t :=
  {| NoticeMessage.Message := {| Message.genre := ""; Message.msgId := msgId; Message.Body := None |};
     NoticeMessage.Destination := "" |}.

Definition NewSimplexMessage (msgId : string) : SimplexMessage.t :=
  {| SimplexMessage.Message := {| Message.genre := ""; Message.msgId := msgId; Message.Body := None |};
     SimplexMessage.Source := "";
     SimplexMessage.Destination := "" |}.

Definition NewDuplexMessage (msgId : string) : DuplexMessage.t :=
  {| DuplexMessage.Message := {| Message.genre := ""; Message.msgId := msgId; Message.Body := None |};
     DuplexMessage.Source := "";
     DuplexMessage.DestinationNew := "";
     DuplexMessage.DestinationAck := "" |}.

(** A value of type [interface{}] as the handlers and the client pass it:
    a pointer to one of the three message variants, a value of any other
    type, or the nil interface. *)
Inductive AnyMessage :=
| Notice (m : NoticeMessage.t)
| Simplex (m : SimplexMessage.t)
| Duplex (m : DuplexMessage.t)
| OtherValue
| NilValue.

Definition GetGenre (msg : AnyMessage) : string :=
  match msg with
  | Notice m => Message.genre (NoticeMessage.Message m)
  | Simplex m => Message.genre (SimplexMessage.Message m)
  | Duplex m => Message.genre (DuplexMessage.Message m)
  | OtherValue | NilValue => ""
  end.

Module MsgPayload.

Record t := Make {
  Category : _MessageCategory;
  Genre : string;
  MsgId : string;
  SrcAckQueue : string;
  DstNewQueue : string;
  DstAckQueue : string;
  Body : option MsgBody.t;
  SendTime : Z;
  Phase : _MessagePhase;
  Sign : string }.

Definition with_Body (body : option MsgBody.t) (mpl : t) : t :=
  Make (Category mpl) (Genre mpl) (MsgId mpl) (SrcAckQueue mpl)
    (DstNewQueue mpl) (DstAckQueue mpl) body (SendTime mpl) (Phase mpl)
    (Sign mpl).

Definition with_Sign (sign : string) (mpl : t) : t :=
  Make (Category mpl) (Genre mpl) (MsgId mpl) (SrcAckQueue mpl)
    (DstNewQueue mpl) (DstAckQueue mpl) (Body mpl) (SendTime mpl)
    (Phase mpl) sign.

(** The three conversions only read [*mpl]; they are functions of the
    envelope stored there.  Each returns the message it has built so far
    together with the error, as the source does. *)
Definition ConvertToNotice (mpl : t) : NoticeMessage.t * option error :=
  let msg := NewNoticeMessage (MsgId mpl) in
  if decide (Category mpl ≠ NOTICE) then (msg, Some ErrNotNotice)
  else
    let m := Message.Make (Genre mpl) (Message.msgId (NoticeMessage.Message msg)) (Body mpl) in
    (NoticeMessage.Make m (DstNewQueue mpl), None).

Definition ConvertToSimplex (mpl : t) : SimplexMessage.t * option error :=
  let msg := NewSimplexMessage (MsgId mpl) in
  if decide (Category mpl ≠ SIMPLEX) then (msg, Some ErrNotSimplex)
  else
    let m := Message.Make (Genre mpl) (Message.msgId (SimplexMessage.Message msg)) (Body mpl) in
    (SimplexMessage.Make m (SrcAckQueue mpl) (DstNewQueue mpl), None).

Definition ConvertToDuplex (mpl : t) : DuplexMessage.t * option error :=
  let msg := NewDuplexMessage (MsgId mpl) in
  if decide (Category mpl ≠ DUPLEX) then (msg, Some ErrNotDuplex)
  else
    let m := Message.Make (Genre mpl) (Message.msgId (DuplexMessage.Message msg)) (Body mpl) in
    (DuplexMessage.Make m (SrcAckQueue mpl) (DstNewQueue mpl) (DstAckQueue mpl), None).

(** [SendQueueName] only reads [*mpl]. *)
Definition SendQueueName (mpl : t) : string * option error :=
  if decide (Phase mpl = SenderReq) then (DstNewQueue mpl, None)
  else if decide (Phase mpl = ReceiverAck) then (SrcAckQueue mpl, None)
  else if decide (Phase mpl = SenderAck) then (DstAckQueue mpl, None)
  else ("", Some (ErrInvalidPhase (Phase mpl))).

End MsgPayload.

(* ===================================================================== *)
(** * Effects: a state monad with panics *)
(* ===================================================================== *)

(** What a Go call yields: it returns, or the goroutine panics. *)
Inductive outcome (A : Type) :=
| Ret (a : A)
| Panic.
Arguments Ret {A} a.
Arguments Panic {A}.

(** A computation over a world [W]; after a panic the world is the one
    reached when the panic was raised. *)
Definition M (W A : Type) : Type := W → outcome A * W.

Definition ret {W A} (a : A) : M W A := λ w, (Ret a, w).

Definition bind {W A B} (m : M W A) (f : A → M W B) : M W B :=
  λ w, match m w with
       | (Ret a, w') => f a w'
       | (Panic, w') => (Panic, w')
       end.

Definition panic {W A} : M W A := λ w, (Panic, w).

Global Instance M_ret {W} : MRet (M W) := λ A, ret.
Global Instance M_bind {W} : MBind (M W) := λ A B f m, bind m f.

(* ===================================================================== *)
(** * Interface provider.MessageListener *)
(* ===================================================================== *)

(** The listener is application code.  It is modelled as a state machine
    over its own state [LS]: it holds no pointer to an envelope, it does
    not write through the [*MsgBody] it is handed, and it returns. *)
Record MessageListener (LS : Type) := {
  OnReceived : AnyMessage → LS → (option MsgBody.t * option error) * LS;
  OnRecipientAckReceived :
    string → string → option MsgBody.t → LS →
    (option MsgBody.t * option error) * LS;
  OnSenderAckReceived :
    string → string → option MsgBody.t → LS → option error * LS }.
Arguments OnReceived {LS} _ _ _.
Arguments OnRecipientAckReceived {LS} _ _ _ _ _.
Arguments OnSenderAckReceived {LS} _ _ _ _ _.

(** One entry per listener invocation. *)
Inductive Call :=
| CallOnReceived (msg : AnyMessage)
| CallOnRecipientAckReceived (genre msgId : string) (rsp : option MsgBody.t)
| CallOnSenderAckReceived (genre msgId : string) (rsp : option MsgBody.t).

(** A [*MsgPayload]: an index into the heap of envelopes.  An index past
    the end stands for a pointer that designates no envelope (nil). *)
Definition loc := nat.

Record World (LS : Type) := MkWorld {
  heap : list MsgPayload.t;     (* the envelopes allocated so far *)
  clock : Z;                    (* what [time.Now().Unix()] returns *)
  lstate : LS;                  (* the listener's state *)
  calls : list Call }.          (* listener invocations, oldest first *)
Arguments MkWorld {LS} _ _ _ _.
Arguments heap {LS} _.
Arguments clock {LS} _.
Arguments lstate {LS} _.
Arguments calls {LS} _.

Section Machine.
Context `{Digest} {LS : Type}.

Abbreviation W := (World LS).

Definition load (p : loc) : M W MsgPayload.t :=
  λ w, match heap w !! p with
       | Some m => (Ret m, w)
       | None => (Panic, w)
       end.

Definition store (p : loc) (m : MsgPayload.t) : M W unit :=
  λ w, if decide (p < length (heap w))%nat
       then (Ret tt, MkWorld (<[p := m]> (heap w)) (clock w) (lstate w) (calls w))
       else (Panic, w).

(** [&MsgPayload{...}]: a fresh cell at the end of the heap. *)
Definition alloc (m : MsgPayload.t) : M W loc :=
  λ w, (Ret (length (heap w)),
        MkWorld (heap w ++ [m]) (clock w) (lstate w) (calls w)).

Definition time_Now_Unix : M W Z := λ w, (Ret (clock w), w).

Definition call_OnReceived (listener : MessageListener LS)
    (msg : AnyMessage) : M W (option MsgBody.t * option error) :=
  λ w, let '(r, s) := OnReceived listener msg (lstate w) in
       (Ret r, MkWorld (heap w) (clock w) s (calls w ++ [CallOnReceived msg])).

Definition call_OnRecipientAckReceived (listener : MessageListener LS)
    (genre msgId : string) (rsp : option MsgBody.t)
    : M W (option MsgBody.t * option error) :=
  λ w, let '(r, s) := OnRecipientAckReceived listener genre msgId rsp (lstate w) in
       (Ret r, MkWorld (heap w) (clock w) s
                 (calls w ++ [CallOnRecipientAckReceived genre msgId rsp])).

Definition call_OnSenderAckReceived (listener : MessageListener LS)
    (genre msgId : string) (rsp : option MsgBody.t) : M W (option error) :=
  λ w, let '(r, s) := OnSenderAckReceived listener genre msgId rsp (lstate w) in
       (Ret r, MkWorld (heap w) (clock w) s
                 (calls w ++ [CallOnSenderAckReceived genre msgId rsp])).

(** [mb.ToString()] through a [*MsgBody]: the first statement reads
    [mb.Body], which panics when [mb] is nil. *)
Definition ToString_ptr (mb : option MsgBody.t) : M W string :=
  match mb with
  | Some b => ret (MsgBody.ToString b)
  | None => panic
  end.

Definition SetBody (mpl : loc) (body : option MsgBody.t) : M W unit :=
  m ← load mpl;
  store mpl (MsgPayload.with_Body body m).

Definition SetSign (mpl : loc) (sign : string) : M W unit :=
  m ← load mpl;
  store mpl (MsgPayload.with_Sign sign m).

Definition Signature (mpl : loc) : M W string :=
  m ← load mpl;
  let buffer := "" in
  let buffer := buffer +:+ "category=" in
  let buffer := buffer +:+ MessageCategory.String (MsgPayload.Category m) in
  let buffer := buffer +:+ "type=" in
  let buffer := buffer +:+ MsgPayload.Genre m in
  let buffer := buffer +:+ "msgId=" in
  let buffer := buffer +:+ MsgPayload.MsgId m in
  let buffer := buffer +:+ "queue=" in
  let buffer := buffer +:+ MsgPayload.SrcAckQueue m in
  let buffer := buffer +:+ MsgPayload.DstAckQueue m in
  let buffer := buffer +:+ MsgPayload.DstNewQueue m in
  let buffer := buffer +:+ "body=" in
  body ← ToString_ptr (MsgPayload.Body m);
  let buffer := buffer +:+ body in
  let buffer := buffer +:+ "@phase=" in
  let buffer := buffer +:+ MessagePhase.String (MsgPayload.Phase m) in
  let buffer := buffer +:+ "@sendTime=" in
  let buffer := buffer +:+ ToStr (MsgPayload.SendTime m) in
  let buffer := buffer +:+ "@#$dz874&*&*#@@$^&^FS()()!@FSF" in
  ret (MD5 buffer).

Definition NewPayload (msg : loc) (phase : _MessagePhase) : M W loc :=
  m ← load msg;
  now ← time_Now_Unix;
  mpl ← alloc {| MsgPayload.Category := MsgPayload.Category m;
                  MsgPayload.Genre := MsgPayload.Genre m;
                  MsgPayload.MsgId := MsgPayload.MsgId m;
                  MsgPayload.SrcAckQueue := MsgPayload.SrcAckQueue m;
                  MsgPayload.DstNewQueue := MsgPayload.DstNewQueue m;
                  MsgPayload.DstAckQueue := MsgPayload.DstAckQueue m;
                  MsgPayload.Body := None;
                  MsgPayload.SendTime := now;
                  MsgPayload.Phase := phase;
                  MsgPayload.Sign := "" |};
  m ← load msg;
  _ ← SetBody mpl (MsgPayload.Body m);
  sign ← Signature mpl;
  _ ← SetSign mpl sign;
  ret mpl.

(** The outbound constructors; the message is passed by value. *)
Definition payload_of (category : _MessageCategory) (m : Message.t)
    (src dstNew dstAck : string) : M W loc :=
  now ← time_Now_Unix;
  mpl ← alloc {| MsgPayload.Category := category;
                  MsgPayload.Genre := Message.genre m;
                  MsgPayload.MsgId := Message.msgId m;
                  MsgPayload.SrcAckQueue := src;
                  MsgPayload.DstNewQueue := dstNew;
                  MsgPayload.DstAckQueue := dstAck;
                  MsgPayload.Body := None;
                  MsgPayload.SendTime := now;
                  MsgPayload.Phase := SenderReq;
                  MsgPayload.Sign := "" |};
  _ ← SetBody mpl (Message.Body m);
  sign ← Signature mpl;
  _ ← SetSign mpl sign;
  ret mpl.

Definition NoticePayload (message : NoticeMessage.t) : M W loc :=
  payload_of NOTICE (NoticeMessage.Message message)
    "" (NoticeMessage.Destination message) "".

Definition SimplexPayload (message : SimplexMessage.t) : M W loc :=
  payload_of SIMPLEX (SimplexMessage.Message message)
    (SimplexMessage.Source message) (SimplexMessage.Destination message) "".

Definition DuplexPayload (message : DuplexMessage.t) : M W loc :=
  payload_of DUPLEX (DuplexMessage.Message message)
    (DuplexMessage.Source message) (DuplexMessage.DestinationNew message)
    (DuplexMessage.DestinationAck message).

(* =================================================================== *)
(** * handler.go *)
(* =================================================================== *)

(** What a handler returns: a pointer to an envelope, or nil, and an
    error, or nil. *)
Definition reply := (option loc * option error)%type.

Definition noticeNew (msg : loc) (listener : MessageListener LS) : M W reply :=
  m ← load msg;
  let phase := MsgPayload.Phase m in
  if decide (phase ≠ SenderReq) then
    ret (None, Some (ErrInvalidPhase (MsgPayload.Phase m)))
  else
    let '(nm, err) := MsgPayload.ConvertToNotice m in
    if decide (err ≠ None) then ret (None, err)
    else
      '(_, err) ← call_OnReceived listener (Notice nm);
      ret (None, err).

Definition simplexNew (mpl : loc) (listener : MessageListener LS) : M W reply :=
  m ← load mpl;
  let phase := MsgPayload.Phase m in
  if decide (phase ≠ SenderReq) then
    ret (None, Some (ErrInvalidPhase phase))
  else
    let '(sm, err) := MsgPayload.ConvertToSimplex m in
    if decide (err ≠ None) then ret (None, err)
    else
      '(rsp, err) ← call_OnReceived listener (Simplex sm);
      if decide (rsp = None) then ret (None, err)
      else
        returnMsg ← NewPayload mpl ReceiverAck;
        _ ← SetBody returnMsg rsp;
        sign ← Signature returnMsg;
        _ ← SetSign returnMsg sign;
        ret (Some returnMsg, err).

Definition duplexNew (mpl : loc) (listener : MessageListener LS) : M W reply :=
  m ← load mpl;
  let phase := MsgPayload.Phase m in
  if decide (phase ≠ SenderReq) then
    ret (None, Some (ErrInvalidPhase phase))
  else
    let '(dm, err) := MsgPayload.ConvertToDuplex m in
    if decide (err ≠ None) then ret (None, err)
    else
      '(rsp, err) ← call_OnReceived listener (Duplex dm);
      if decide (rsp = None) then ret (None, err)
      else
        returnMsg ← NewPayload mpl ReceiverAck;
        _ ← SetBody returnMsg rsp;
        sign ← Signature returnMsg;
        _ ← SetSign returnMsg sign;
        ret (Some returnMsg, err).

Definition simplexRecipientACK (mpl : loc) (listener : MessageListener LS)
    : M W reply :=
  m ← load mpl;
  let phase := MsgPayload.Phase m in
  if decide (phase ≠ ReceiverAck) then
    ret (None, Some (ErrInvalidPhase (MsgPayload.Phase m)))
  else
    '(_, err) ← call_OnRecipientAckReceived listener
                   (MsgPayload.Genre m) (MsgPayload.MsgId m) (MsgPayload.Body m);
    ret (None, err).

Definition duplexRecipientACK (mpl : loc) (listener : MessageListener LS)
    : M W reply :=
  m ← load mpl;
  let phase := MsgPayload.Phase m in
  if decide (phase ≠ ReceiverAck) then
    ret (None, Some (ErrInvalidPhase (MsgPayload.Phase m)))
  else
    '(rsp, err) ← call_OnRecipientAckReceived listener
                     (MsgPayload.Genre m) (MsgPayload.MsgId m) (MsgPayload.Body m);
    if decide (rsp = None) then ret (None, err)
    else
      returnMsg ← NewPayload mpl SenderAck;
      _ ← SetBody returnMsg rsp;
      sign ← Signature returnMsg;
      _ ← SetSign returnMsg sign;
      ret (Some returnMsg, err).

Definition duplexSenderACK (mpl : loc) (listener : MessageListener LS)
    : M W reply :=
  m ← load mpl;
  let phase := MsgPayload.Phase m in
  if decide (phase ≠ SenderAck) then
    ret (None, Some (ErrInvalidPhase (MsgPayload.Phase m)))
  else
    err ← call_OnSenderAckReceived listener
             (MsgPayload.Genre m) (MsgPayload.MsgId m) (MsgPayload.Body m);
    ret (None, err).

Definition HandleNew (msg : loc) (listener : MessageListener LS) : M W reply :=
  m ← load msg;
  if decide (MsgPayload.Category m = NOTICE) then noticeNew msg listener
  else if decide (MsgPayload.Category m = SIMPLEX) then simplexNew msg listener
  else if decide (MsgPayload.Category m = DUPLEX) then duplexNew msg listener
  else ret (None, Some (ErrInvalidCategory (MsgPayload.Category m))).

Definition HandleAck (msg : loc) (listener : MessageListener LS) : M W reply :=
  m ← load msg;
  if decide (MsgPayload.Category m = SIMPLEX) then
    let phase := MsgPayload.Phase m in
    if decide (phase = ReceiverAck) then simplexRecipientACK msg listener
    else ret (None, Some (ErrInvalidPhase (MsgPayload.Phase m)))
  else if decide (MsgPayload.Category m = DUPLEX) then
    let phase := MsgPayload.Phase m in
    if decide (phase = ReceiverAck) then duplexRecipientACK msg listener
    else if decide (phase = SenderAck) then duplexSenderACK msg listener
    else ret (None, Some (ErrInvalidPhase (MsgPayload.Phase m)))
  else ret (None, Some (ErrInvalidCategory (MsgPayload.Category m))).

End Machine.

(* ===================================================================== *)
(** * Package regexp of the Go library, as far as client.go uses it *)
(* ===================================================================== *)

Module regexp.

(** The two character classes of the patterns: [\d] and [.]; without the
    [s] flag [.] matches everything but a line feed. *)
Inductive class := Digit | AnyCharNotNL.

Inductive t :=
| Lit (s : string)             (* the characters of [s], in order *)
| Repeat (n : nat) (c : class) (* c{n} *)
| Plus (c : class)             (* c+, greedy *)
| Group (i : nat) (r : t)      (* the i-th capturing group *)
| Cat (r1 r2 : t).

Definition in_class (c : class) (a : ascii) : bool :=
  match c with
  | Digit => (48 <=? Z.of_N (N_of_ascii a)) && (Z.of_N (N_of_ascii a) <=? 57)
  | AnyCharNotNL => negb (Z.of_N (N_of_ascii a) =? 10)
  end.

Fixpoint strip_prefix (p s : string) : option string :=
  match p, s with
  | EmptyString, _ => Some s
  | String a p', String b s' => if decide (a = b) then strip_prefix p' s' else None
  | String _ _, EmptyString => None
  end.

(** The part of [s] in front of its suffix [rest]. *)
Definition consumed (s rest : string) : string :=
  substring 0 (String.length s - String.length rest) s.

Definition captures := gmap nat string.

Section Backtracking.
Context {R : Type}.

Fixpoint repeat_class (n : nat) (c : class) (s : string)
    (k : string → option R) : option R :=
  match n with
  | O => k s
  | S n' =>
      match s with
      | String a rest => if in_class c a then repeat_class n' c rest k else None
      | EmptyString => None
      end
  end.

(** [c*], the longest run first. *)
Fixpoint star_class (c : class) (s : string) (k : string → option R)
    : option R :=
  match s with
  | String a rest =>
      if in_class c a then
        match star_class c rest k with
        | Some r => Some r
        | None => k s
        end
      else k s
  | EmptyString => k s
  end.

Definition plus_class (c : class) (s : string) (k : string → option R)
    : option R :=
  match s with
  | String a rest => if in_class c a then star_class c rest k else None
  | EmptyString => None
  end.
End Backtracking.

(** A match of [r] at the start of [s], found by backtracking: the first
    alternative that lets the continuation succeed wins. *)
Fixpoint match_here (r : t) (s : string) (caps : captures)
    (k : string → captures → option captures) : option captures :=
  match r with
  | Lit l =>
      match strip_prefix l s with
      | Some rest => k rest caps
      | None => None
      end
  | Repeat n c => repeat_class n c s (λ rest, k rest caps)
  | Plus c => plus_class c s (λ rest, k rest caps)
  | Group i r' =>
      match_here r' s caps (λ rest caps', k rest (<[i := consumed s rest]> caps'))
  | Cat r1 r2 =>
      match_here r1 s caps (λ rest caps', match_here r2 rest caps' k)
  end.

Fixpoint NumSubexp (r : t) : nat :=
  match r with
  | Lit _ | Repeat _ _ | Plus _ => 0
  | Group _ r' => S (NumSubexp r')
  | Cat r1 r2 => NumSubexp r1 + NumSubexp r2
  end.

Definition submatches (r : t) (caps : captures) : list string :=
  List.map (λ i, default "" (caps !! i)) (seq 0 (S (NumSubexp r))).

(** [FindStringSubmatch]: the leftmost match; the whole match and the
    groups, or the empty slice when nothing matches. *)
Fixpoint FindStringSubmatch (r : t) (s : string) : list string :=
  match match_here r s ∅ (λ rest caps, Some (<[0%nat := consumed s rest]> caps)) with
  | Some caps => submatches r caps
  | None =>
      match s with
      | String _ s' => FindStringSubmatch r s'
      | EmptyString => []
      end
  end.

End regexp.

(* ===================================================================== *)
(** * client.go: the outbound check *)
(* ===================================================================== *)

(** The pattern compiled when [partitions == 1]: (sys_amq_\d{4})_(.+) *)
Definition pattern_single : regexp.t :=
  regexp.Cat
    (regexp.Group 1 (regexp.Cat (regexp.Lit "sys_amq_") (regexp.Repeat 4 regexp.Digit)))
    (regexp.Cat (regexp.Lit "_") (regexp.Group 2 (regexp.Plus regexp.AnyCharNotNL))).

(** The pattern compiled otherwise: (sys_amq_\d{4})_(.+)_p\d+ *)
Definition pattern_partitioned : regexp.t :=
  regexp.Cat
    (regexp.Group 1 (regexp.Cat (regexp.Lit "sys_amq_") (regexp.Repeat 4 regexp.Digit)))
    (regexp.Cat (regexp.Lit "_")
       (regexp.Cat (regexp.Group 2 (regexp.Plus regexp.AnyCharNotNL))
          (regexp.Cat (regexp.Lit "_p") (regexp.Plus regexp.Digit)))).

(** Interface provider.Provider, the transport: [Send] over the
    transport's own state [PS]. *)
Record Provider (PS : Type) := {
  provider_Send : AnyMessage → PS → option error * PS }.
Arguments provider_Send {PS} _ _ _.

(** The fields of [Client] the outbound path reads. *)
Record Client (PS : Type) := MkClient {
  queueNamePattern : regexp.t;
  partitions : Z;
  provider : Provider PS }.
Arguments MkClient {PS} _ _ _.
Arguments queueNamePattern {PS} _.
Arguments partitions {PS} _.
Arguments provider {PS} _.

(** [newClient], given the partition count of the configuration and the
    transport the registry returned. *)
Definition newClient {PS} (cfg_Partitions : Z) (p : Provider PS) : Client PS :=
  {| partitions := cfg_Partitions;
     queueNamePattern :=
       if decide (cfg_Partitions = 1) then pattern_single else pattern_partitioned;
     provider := p |}.

Inductive LogEntry :=
| LogNodeError (nodeName : string)   (* client.go 241, level Error *)
| LogSendSuccess (msg : AnyMessage). (* client.go 262, level Debug *)

Record ClientWorld (PS : Type) := MkClientWorld {
  pstate : PS;                  (* the transport's state *)
  sent : list AnyMessage;       (* messages handed to [provider.Send] *)
  logs : list LogEntry }.       (* log lines, oldest first *)
Arguments MkClientWorld {PS} _ _ _.
Arguments pstate {PS} _.
Arguments sent {PS} _.
Arguments logs {PS} _.

Section ClientSend.
Context {PS : Type}.

Abbreviation CW := (ClientWorld PS).

Definition log (e : LogEntry) : M CW unit :=
  λ w, (Ret tt, MkClientWorld (pstate w) (sent w) (logs w ++ [e])).

Definition call_provider_Send (p : Provider PS) (msg : AnyMessage)
    : M CW (option error) :=
  λ w, let '(err, s) := provider_Send p msg (pstate w) in
       (Ret err, MkClientWorld s (sent w ++ [msg]) (logs w)).

(** The switch at the head of [messageCheck]. *)
Definition nameList_of (msg : AnyMessage) : list string :=
  let nameList := [] in
  match msg with
  | Notice m => nameList ++ [NoticeMessage.Destination m]
  | Simplex m =>
      (nameList ++ [SimplexMessage.Source m]) ++ [SimplexMessage.Destination m]
  | Duplex m =>
      ((nameList ++ [DuplexMessage.Source m]) ++ [DuplexMessage.DestinationNew m])
        ++ [DuplexMessage.DestinationAck m]
  | OtherValue | NilValue => nameList
  end%list.

(** The loop [for _, name := range nameList] of [messageCheck]; [None]
    when it runs to its end. *)
Fixpoint check_names (c : Client PS) (nameList : list string)
    : M CW (option error) :=
  match nameList with
  | [] => mret None
  | name :: rest =>
      let m := regexp.FindStringSubmatch (queueNamePattern c) name in
      if decide (length m = 0)%nat then mret (Some (ErrQueueName name))
      else
        let nodeName := nth 2 m "" in
        _ ← (if decide (Node.IsValid (Node.GetNode nodeName) ≠ None)
             then log (LogNodeError nodeName) else mret tt);
        check_names c rest
  end.

Definition messageCheck (c : Client PS) (msg : AnyMessage)
    : M CW (AnyMessage * option error) :=
  let nameList := nameList_of msg in
  err ← check_names c nameList;
  match err with
  | Some e => mret (NilValue, Some e)
  | None => mret (msg, None)
  end.

Definition Send (c : Client PS) (msg : AnyMessage) : M CW (option error) :=
  '(msg, err) ← messageCheck c msg;
  if decide (err ≠ None) then mret err
  else
    err ← call_provider_Send (provider c) msg;
    _ ← (if decide (err = None) then log (LogSendSuccess msg) else mret tt);
    mret err.

End ClientSend.

(* ===================================================================== *)
(** * Vocabulary of the statements *)
(* ===================================================================== *)

(** One pair of the canonical form of a body: the key and its value, each
    between double quotes, a colon between them. *)
Definition entry (mb : MsgBody.t) (k : string) : string :=
  dq +:+ k +:+ dq +:+ ":" +:+ dq +:+ MsgBody.Get k mb +:+ dq.

(** A body filled by calling [Add] on a fresh body for each entry of a
    list, first entry first. *)
Definition add_all (entries : list (string * string)) : MsgBody.t :=
  fold_left (λ mb kv, MsgBody.Add kv.1 kv.2 mb) entries MsgBody.NewMessageBody.

(** The text [Signature] hashes for an envelope whose body serialises to
    [body]. *)
Definition signing_text (m : MsgPayload.t) (body : string) : string :=
  "category=" +:+ MessageCategory.String (MsgPayload.Category m) +:+
  "type=" +:+ MsgPayload.Genre m +:+
  "msgId=" +:+ MsgPayload.MsgId m +:+
  "queue=" +:+ MsgPayload.SrcAckQueue m +:+ MsgPayload.DstAckQueue m +:+
  MsgPayload.DstNewQueue m +:+
  "body=" +:+ body +:+
  "@phase=" +:+ MessagePhase.String (MsgPayload.Phase m) +:+
  "@sendTime=" +:+ ToStr (MsgPayload.SendTime m) +:+
  "@#$dz874&*&*#@@$^&^FS()()!@FSF".

(** Two envelopes agree on every field the signature is computed over:
    all fields but [Sign]; bodies are compared by content. *)
Definition same_signed_fields (m1 m2 : MsgPayload.t) : Prop :=
  MsgPayload.Category m1 = MsgPayload.Category m2 ∧
  MsgPayload.Genre m1 = MsgPayload.Genre m2 ∧
  MsgPayload.MsgId m1 = MsgPayload.MsgId m2 ∧
  MsgPayload.SrcAckQueue m1 = MsgPayload.SrcAckQueue m2 ∧
  MsgPayload.DstAckQueue m1 = MsgPayload.DstAckQueue m2 ∧
  MsgPayload.DstNewQueue m1 = MsgPayload.DstNewQueue m2 ∧
  MsgPayload.Phase m1 = MsgPayload.Phase m2 ∧
  MsgPayload.SendTime m1 = MsgPayload.SendTime m2 ∧
  match MsgPayload.Body m1, MsgPayload.Body m2 with
  | Some b1, Some b2 => ∀ k, MsgBody.Body b1 !! k = MsgBody.Body b2 !! k
  | None, None => True
  | _, _ => False
  end.

(** The envelope [NewPayload] derives from [prior]: category, type, id and
    queues of [prior], and the given phase, time, body and signature. *)
Definition derive (prior : MsgPayload.t) (phase : _MessagePhase) (now : Z)
    (body : option MsgBody.t) (sign : string) : MsgPayload.t :=
  {| MsgPayload.Category := MsgPayload.Category prior;
     MsgPayload.Genre := MsgPayload.Genre prior;
     MsgPayload.MsgId := MsgPayload.MsgId prior;
     MsgPayload.SrcAckQueue := MsgPayload.SrcAckQueue prior;
     MsgPayload.DstNewQueue := MsgPayload.DstNewQueue prior;
     MsgPayload.DstAckQueue := MsgPayload.DstAckQueue prior;
     MsgPayload.Body := body;
     MsgPayload.SendTime := now;
     MsgPayload.Phase := phase;
     MsgPayload.Sign := sign |}.

(** The signature of an envelope that carries the body [b]. *)
Definition signature_with `{Digest} (m : MsgPayload.t) (b : MsgBody.t) : string :=
  MD5 (signing_text m (MsgBody.ToString b)).

(** What [Signature] yields on an envelope. *)
Definition signature_of `{Digest} (m : MsgPayload.t) : outcome string :=
  match MsgPayload.Body m with
  | Some b => Ret (signature_with m b)
  | None => Panic
  end.

(** The derived envelope with body [b], signed over its own fields. *)
Definition derive_signed `{Digest} (prior : MsgPayload.t) (phase : _MessagePhase)
    (now : Z) (b : MsgBody.t) : MsgPayload.t :=
  derive prior phase now (Some b)
    (signature_with (derive prior phase now (Some b) "") b).

(** The typed views of an envelope, as the three conversions build them. *)
Definition message_of (m : MsgPayload.t) : Message.t :=
  {| Message.genre := MsgPayload.Genre m;
     Message.msgId := MsgPayload.MsgId m;
     Message.Body := MsgPayload.Body m |}.

Definition notice_of (m : MsgPayload.t) : NoticeMessage.t :=
  {| NoticeMessage.Message := message_of m;
     NoticeMessage.Destination := MsgPayload.DstNewQueue m |}.

Definition simplex_of (m : MsgPayload.t) : SimplexMessage.t :=
  {| SimplexMessage.Message := message_of m;
     SimplexMessage.Source := MsgPayload.SrcAckQueue m;
     SimplexMessage.Destination := MsgPayload.DstNewQueue m |}.

Definition duplex_of (m : MsgPayload.t) : DuplexMessage.t :=
  {| DuplexMessage.Message := message_of m;
     DuplexMessage.Source := MsgPayload.SrcAckQueue m;
     DuplexMessage.DestinationNew := MsgPayload.DstNewQueue m;
     DuplexMessage.DestinationAck := MsgPayload.DstAckQueue m |}.

(** The world after one listener invocation [c] that left the listener in
    state [s]: nothing else changes. *)
Definition after_call {LS : Type} (w : World LS) (s : LS) (c : Call) : World LS :=
  MkWorld (heap w) (clock w) s (calls w ++ [c]).

(** The same, with one more envelope [e] allocated after the call. *)
Definition after_call_alloc {LS : Type} (w : World LS) (s : LS) (c : Call)
    (e : MsgPayload.t) : World LS :=
  MkWorld (heap w ++ [e]) (clock w) s (calls w ++ [c]).

(** What a replying handler ([simplexNew], [duplexNew],
    [duplexRecipientACK]) does on the envelope [m] once the listener, invoked
    by the call [c], has answered [r]: no body, no reply; a body, the reply
    derived from [m] at [phase] and signed; but deriving the reply signs a
    copy of [m] first, which panics when [m] has no body. *)
Definition replied `{Digest} {LS : Type} (w : World LS) (m : MsgPayload.t)
    (phase : _MessagePhase) (c : Call)
    (r : (option MsgBody.t * option error) * LS) : outcome reply * World LS :=
  let '((rsp, err), s) := r in
  match rsp with
  | None => (Ret (None, err), after_call w s c)
  | Some body =>
      match MsgPayload.Body m with
      | Some _ =>
          (Ret (Some (length (heap w)), err),
           after_call_alloc w s c (derive_signed m phase (clock w) body))
      | None =>
          (Panic, after_call_alloc w s c (derive m phase (clock w) None ""))
      end
  end.

(** The two entry points of the handshake. *)
Inductive EntryPoint := handleNew | handleAck.

Definition dispatch `{Digest} {LS : Type} (ep : EntryPoint)
    : loc → MessageListener LS → M (World LS) reply :=
  match ep with
  | handleNew => HandleNew
  | handleAck => HandleAck
  end.

(** The legal rows of the handshake table. *)
Definition legal (category : _MessageCategory) (phase : _MessagePhase)
    (ep : EntryPoint) : Prop :=
  match ep with
  | handleNew =>
      (category = NOTICE ∨ category = SIMPLEX ∨ category = DUPLEX)
      ∧ phase = SenderReq
  | handleAck =>
      (category = SIMPLEX ∧ phase = ReceiverAck)
      ∨ (category = DUPLEX ∧ phase = ReceiverAck)
      ∨ (category = DUPLEX ∧ phase = SenderAck)
  end.

(** The categories an entry point dispatches on. *)
Definition dispatched (category : _MessageCategory) (ep : EntryPoint) : Prop :=
  match ep with
  | handleNew => category = NOTICE ∨ category = SIMPLEX ∨ category = DUPLEX
  | handleAck => category = SIMPLEX ∨ category = DUPLEX
  end.

(** The variant [HandleNew] hands to [OnReceived] for a transactional
    request. *)
Definition request_variant (m : MsgPayload.t) : AnyMessage :=
  if decide (MsgPayload.Category m = SIMPLEX) then Simplex (simplex_of m)
  else Duplex (duplex_of m).

(** The three handlers that can answer with a reply envelope. *)
Inductive Replying := bySimplexNew | byDuplexNew | byDuplexRecipientACK.

Definition replying_handler `{Digest} {LS : Type} (r : Replying)
    : loc → MessageListener LS → M (World LS) reply :=
  match r with
  | bySimplexNew => simplexNew
  | byDuplexNew => duplexNew
  | byDuplexRecipientACK => duplexRecipientACK
  end.

(** What the handler tests before it invokes the listener. *)
Definition reaches_listener (r : Replying) (m : MsgPayload.t) : Prop :=
  match r with
  | bySimplexNew => MsgPayload.Category m = SIMPLEX ∧ MsgPayload.Phase m = SenderReq
  | byDuplexNew => MsgPayload.Category m = DUPLEX ∧ MsgPayload.Phase m = SenderReq
  | byDuplexRecipientACK => MsgPayload.Phase m = ReceiverAck
  end.

(** The listener invocation the handler makes, and the listener's answer. *)
Definition listener_call (r : Replying) (m : MsgPayload.t) : Call :=
  match r with
  | bySimplexNew => CallOnReceived (Simplex (simplex_of m))
  | byDuplexNew => CallOnReceived (Duplex (duplex_of m))
  | byDuplexRecipientACK =>
      CallOnRecipientAckReceived (MsgPayload.Genre m) (MsgPayload.MsgId m)
        (MsgPayload.Body m)
  end.

Definition listener_answer {LS : Type} (l : MessageListener LS) (r : Replying)
    (m : MsgPayload.t) (s : LS) : (option MsgBody.t * option error) * LS :=
  match r with
  | bySimplexNew => OnReceived l (Simplex (simplex_of m)) s
  | byDuplexNew => OnReceived l (Duplex (duplex_of m)) s
  | byDuplexRecipientACK =>
      OnRecipientAckReceived l (MsgPayload.Genre m) (MsgPayload.MsgId m)
        (MsgPayload.Body m) s
  end.

(** The phase of the reply. *)
Definition reply_phase (r : Replying) : _MessagePhase :=
  match r with
  | bySimplexNew | byDuplexNew => ReceiverAck
  | byDuplexRecipientACK => SenderAck
  end.

(** A queue name passes the outbound check when the client's pattern
    matches somewhere in it. *)
Definition passes {PS : Type} (c : Client PS) (name : string) : Prop :=
  regexp.FindStringSubmatch (queueNamePattern c) name ≠ [].

(** ** The claims that fail, as they are stated *)

(** C1 as stated, weakened to any error in place of a signature-mismatch
    error (the source has no such error): an envelope whose carried
    signature differs from the recomputed one is rejected with an error and
    no listener call is made. *)
Definition C1_as_stated `{Digest} : Prop :=
  ∀ (ep : EntryPoint) (LS : Type) (l : MessageListener LS) (w : World LS)
    (msg : loc) (m : MsgPayload.t),
    heap w !! msg = Some m →
    signature_of m ≠ Ret (MsgPayload.Sign m) →
    ∃ err, (dispatch ep msg l w).1 = Ret (None, Some err)
           ∧ calls (dispatch ep msg l w).2 = calls w.

(** C2 as stated: every triple outside the table fails with an
    invalid-phase error. *)
Definition C2_as_stated `{Digest} : Prop :=
  ∀ (ep : EntryPoint) (LS : Type) (l : MessageListener LS) (w : World LS)
    (msg : loc) (m : MsgPayload.t),
    heap w !! msg = Some m →
    ¬ legal (MsgPayload.Category m) (MsgPayload.Phase m) ep →
    ∃ phase, (dispatch ep msg l w).1 = Ret (None, Some (ErrInvalidPhase phase)).

(** A reply body that is non-empty: present, with at least one entry. *)
Definition non_empty (rsp : option MsgBody.t) : Prop :=
  ∃ b, rsp = Some b ∧ MsgBody.Body b ≠ ∅.

(** C3 as stated, one direction each: a non-empty reply body gives a reply
    envelope; a reply envelope comes only from a non-empty reply body. *)
Definition C3_if_as_stated `{Digest} : Prop :=
  ∀ (LS : Type) (l : MessageListener LS) (w : World LS) (msg : loc)
    (m : MsgPayload.t),
    heap w !! msg = Some m →
    MsgPayload.Category m = SIMPLEX ∨ MsgPayload.Category m = DUPLEX →
    MsgPayload.Phase m = SenderReq →
    non_empty (OnReceived l (request_variant m) (lstate w)).1.1 →
    ∃ p err, (HandleNew msg l w).1 = Ret (Some p, err).

Definition C3_only_if_as_stated `{Digest} : Prop :=
  ∀ (LS : Type) (l : MessageListener LS) (w : World LS) (msg : loc)
    (m : MsgPayload.t),
    heap w !! msg = Some m →
    MsgPayload.Category m = SIMPLEX ∨ MsgPayload.Category m = DUPLEX →
    MsgPayload.Phase m = SenderReq →
    (∃ p err, (HandleNew msg l w).1 = Ret (Some p, err)) →
    non_empty (OnReceived l (request_variant m) (lstate w)).1.1.

(** C6 as stated, its first part: for every prior envelope and phase
    [NewPayload] returns an envelope. *)
Definition C6_as_stated `{Digest} : Prop :=
  ∀ (LS : Type) (w : World LS) (msg : loc) (m : MsgPayload.t)
    (phase : _MessagePhase),
    heap w !! msg = Some m →
    ∃ p, (NewPayload msg phase w).1 = Ret p.

(** C10 as stated, for one of the three handlers: a body and an error from
    the listener give a reply envelope and that error. *)
Definition C10_as_stated `{Digest} (r : Replying) : Prop :=
  ∀ (LS : Type) (l : MessageListener LS) (w : World LS) (mpl : loc)
    (m : MsgPayload.t) (body : MsgBody.t) (err : error),
    heap w !! mpl = Some m →
    reaches_listener r m →
    (listener_answer l r m (lstate w)).1 = (Some body, Some err) →
    ∃ p, (replying_handler r mpl l w).1 = Ret (Some p, Some err).

(* ===================================================================== *)
(** * Concrete envelopes, listeners and worlds *)
(* ===================================================================== *)

(** Modelled from the spec: the digest of the source, MD5 in lower-case
    hexadecimal ([utils.MD5] is not under src/). *)
Definition md5_digest : Digest := RFC1321.md5_hex.

Definition body_ab : MsgBody.t := add_all [("b", "2"); ("a", "1")].
Definition body_ok : MsgBody.t := add_all [("ok", "1")].

Definition envelope (category : _MessageCategory) (phase : _MessagePhase)
    (body : option MsgBody.t) (sign : string) : MsgPayload.t :=
  {| MsgPayload.Category := category;
     MsgPayload.Genre := "order";
     MsgPayload.MsgId := "42";
     MsgPayload.SrcAckQueue := "sys_amq_0001_biz";
     MsgPayload.DstNewQueue := "sys_amq_0002_biz";
     MsgPayload.DstAckQueue := "sys_amq_0002_fund";
     MsgPayload.Body := body;
     MsgPayload.SendTime := 1700000000;
     MsgPayload.Phase := phase;
     MsgPayload.Sign := sign |}.

(** A listener that counts its invocations and gives every callback the
    same answer. *)
Definition answering (rsp : option MsgBody.t) (err : option error)
    : MessageListener nat :=
  {| OnReceived := λ _ n, ((rsp, err), S n);
     OnRecipientAckReceived := λ _ _ _ n, ((rsp, err), S n);
     OnSenderAckReceived := λ _ _ _ n, (err, S n) |}.

(** A world that holds one envelope; no listener call has been made. *)
Definition world_with (e : MsgPayload.t) : World nat :=
  MkWorld [e] 1700000005 0%nat [].

(** A notice signed over its fields, and the same notice after its body
    has been replaced without signing again. *)
Definition signed_notice : MsgPayload.t :=
  let e := envelope NOTICE SenderReq (Some body_ab) "" in
  MsgPayload.with_Sign (@signature_with md5_digest e body_ab) e.

Definition tampered_notice : MsgPayload.t :=
  MsgPayload.with_Body (Some body_ok) signed_notice.

(** A transport that accepts every message. *)
Definition accepting : Provider unit :=
  {| provider_Send := λ _ s, (None, s) |}.

Definition notice_to (destination : string) : AnyMessage :=
  Notice {| NoticeMessage.Message :=
              {| Message.genre := "ping"; Message.msgId := "1";
                 Message.Body := Some body_ok |};
            NoticeMessage.Destination := destination |}.

(* ===================================================================== *)
(** * client.go: processors and the default listener *)
(* ===================================================================== *)

(** client.go 323 333: the error a missing processor gives, a constant
    text. *)
Definition ErrNoProcessor : error :=
  ErrApplication "此类型AMQ消息的处理器接口定义:无".

(** client.go 156: the error of a second [Start], formatted with the name
    of the client's node. *)
Definition ErrAlreadyStarted (n : Node.t) : error :=
  ErrApplication
    ("[AMQ-Client-" +:+ Node.String n +:+ "]该客户端已启动，无法多次启动").

(** Interface Processor: application code, a state machine over its own
    state [LS] like the listener; [GetType] is constant.  A value of this
    type is a processor that exists: the nil interface is not one. *)
Record Processor (LS : Type) := {
  GetType : string;
  processor_OnReceived :
    AnyMessage → LS → (option MsgBody.t * option error) * LS;
  processor_OnRecipientAckReceived :
    string → option MsgBody.t → LS → (option MsgBody.t * option error) * LS;
  processor_OnSenderAckReceived :
    string → option MsgBody.t → LS → option error * LS }.
Arguments GetType {LS} _.
Arguments processor_OnReceived {LS} _ _ _.
Arguments processor_OnRecipientAckReceived {LS} _ _ _ _.
Arguments processor_OnSenderAckReceived {LS} _ _ _ _.

(** What the default listener works on: the processors' state and the
    Error lines of its [processor] function, one message type per line.
    The Debug lines are left out. *)
Record ListenerState (LS : Type) := MkListenerState {
  processors_state : LS;
  undefined_types : list string }.
Arguments MkListenerState {LS} _ _.
Arguments processors_state {LS} _.
Arguments undefined_types {LS} _.

(** The function [Start] stores in the listener's [processor] field: the
    processor registered for the type, or nil and a line in the log. *)
Definition processor_of {LS : Type} (processorMap : gmap string (Processor LS))
    (genre : string) (s : ListenerState LS)
    : option (Processor LS) * ListenerState LS :=
  let processor := processorMap !! genre in
  match processor with
  | None =>
      (processor,
       MkListenerState (processors_state s) (undefined_types s ++ [genre]))
  | Some _ => (processor, s)
  end.

(** [defaultMessageListener], over the processor map of its client. *)
Definition defaultMessageListener {LS : Type}
    (processorMap : gmap string (Processor LS))
    : MessageListener (ListenerState LS) :=
  {| OnReceived := λ msg s,
       let '(processor, s) := processor_of processorMap (GetGenre msg) s in
       match processor with
       | Some p =>
           let '(r, ps) := processor_OnReceived p msg (processors_state s) in
           (r, MkListenerState ps (undefined_types s))
       | None => ((None, Some ErrNoProcessor), s)
       end;
     OnRecipientAckReceived := λ genre msgId rsp s,
       let '(processor, s) := processor_of processorMap genre s in
       match processor with
       | Some p =>
           let '(r, ps) :=
             processor_OnRecipientAckReceived p msgId rsp (processors_state s) in
           (r, MkListenerState ps (undefined_types s))
       | None => ((None, Some ErrNoProcessor), s)
       end;
     OnSenderAckReceived := λ genre msgId rsp s,
       let '(processor, s) := processor_of processorMap genre s in
       match processor with
       | Some p =>
           let '(r, ps) :=
             processor_OnSenderAckReceived p msgId rsp (processors_state s) in
           (r, MkListenerState ps (undefined_types s))
       | None => (None, s)
       end |}.

(* ===================================================================== *)
(** * client.go: the client object, queue names, AddProcessor, Start *)
(* ===================================================================== *)

(** The lines the client writes outside the outbound check. *)
Inductive Line :=
| LineAlreadyStarted                      (* client.go 108, standard output *)
| LineUsePartitioned                      (* client.go 122, level Info *)
| LineUseSingle                           (* client.go 138, level Error *)
| LinePartitionIndex                      (* client.go 141, level Error *)
| LineListenSingle (queue : string)       (* client.go 182, level Info *)
| LineListenPartition (partition : Z) (queue : string).
                                          (* client.go 188 194, level Info *)

(** The [Client] struct: the fields the outbound check reads are the
    record [Client] above; here are the others, and [Listen] of the
    client's transport.  [C] is the type of the closers [Listen] returns;
    a nil closer is [None].  The client is one whose configuration names
    a transport: both records hold the transport itself, not a pointer
    that may be nil. *)
Record ClientObj (PS LS C : Type) := MkClientObj {
  outbound : Client PS;
  systemId : string;
  node : Node.t;
  processorMap : gmap string (Processor LS);
  started : bool;
  provider_Listen : string → PS → (option C * option error) * PS }.
Arguments MkClientObj {PS LS C} _ _ _ _ _ _.
Arguments outbound {PS LS C} _.
Arguments systemId {PS LS C} _.
Arguments node {PS LS C} _.
Arguments processorMap {PS LS C} _.
Arguments started {PS LS C} _.
Arguments provider_Listen {PS LS C} _ _ _.

(** One client object, the state of its transport, the queues handed to
    [Listen] so far and the lines written. *)
Record Life (PS LS C : Type) := MkLife {
  obj : ClientObj PS LS C;
  transport : PS;
  listening : list string;
  lines : list Line }.
Arguments MkLife {PS LS C} _ _ _ _.
Arguments obj {PS LS C} _.
Arguments transport {PS LS C} _.
Arguments listening {PS LS C} _.
Arguments lines {PS LS C} _.

Section Lifecycle.
Context {PS LS C : Type}.

Abbreviation LW := (Life PS LS C).

Definition this : M LW (ClientObj PS LS C) := λ w, (Ret (obj w), w).

Definition write_line (ln : Line) : M LW unit :=
  λ w, (Ret tt, MkLife (obj w) (transport w) (listening w) (lines w ++ [ln])).

Definition set_processorMap (m : gmap string (Processor LS)) : M LW unit :=
  λ w, let c := obj w in
       (Ret tt,
        MkLife (MkClientObj (outbound c) (systemId c) (node c) m (started c)
                  (provider_Listen c))
          (transport w) (listening w) (lines w)).

Definition set_started (b : bool) : M LW unit :=
  λ w, let c := obj w in
       (Ret tt,
        MkLife (MkClientObj (outbound c) (systemId c) (node c) (processorMap c) b
                  (provider_Listen c))
          (transport w) (listening w) (lines w)).

Definition call_provider_Listen (name : string)
    : M LW (option C * option error) :=
  λ w, let '(r, s) := provider_Listen (obj w) name (transport w) in
       (Ret r, MkLife (obj w) s (listening w ++ [name]) (lines w)).

Definition AddProcessor (processors : list (Processor LS)) : M LW unit :=
  c ← this;
  if negb (started c) then
    if decide (0 < length processors)%nat then
      set_processorMap
        (fold_left (λ m p, <[GetType p := p]> m) processors (processorMap c))
    else mret tt
  else write_line LineAlreadyStarted.

Definition BuildQueueName (systemId : string) : M LW string :=
  c ← this;
  _ ← (if decide (1 < partitions (outbound c)) then write_line LineUsePartitioned
       else mret tt);
  mret ("sys_amq_" +:+ systemId +:+ "_" +:+ Node.String (node c)).

Definition BuildQueueNameByPartition (systemId : string) (partition : Z)
    : M LW string :=
  c ← this;
  _ ← (if decide (1 < partitions (outbound c)) then write_line LineUseSingle
       else mret tt);
  _ ← (if decide (0 ≤ partition ∧ partition < partitions (outbound c))
       then write_line LinePartitionIndex else mret tt);
  mret ("sys_amq_" +:+ systemId +:+ "_" +:+ Node.String (node c)
        +:+ "_p" +:+ ToStr partition).

Definition IsMultiplePartition : M LW bool :=
  c ← this;
  mret (bool_decide (1 < partitions (outbound c))).

(** The first loop of [Start]. *)
Fixpoint check_partitions (limit : Z) (vs : list Z) : M LW unit :=
  match vs with
  | [] => mret tt
  | v :: vs' =>
      if decide (v = 0) then check_partitions limit vs'
      else if decide (v ≤ 0 ∧ v < limit) then panic
      else check_partitions limit vs'
  end.

(** The two loops that listen on partition queues; [r] holds the named
    results [closer] and [err], assigned by every [Listen]. *)
Fixpoint listen_partitions (vs : list Z) (r : option C * option error)
    : M LW (option C * option error) :=
  match vs with
  | [] => mret r
  | v :: vs' =>
      c ← this;
      queueName ← BuildQueueNameByPartition (systemId c) v;
      _ ← write_line (LineListenPartition v queueName);
      r ← call_provider_Listen queueName;
      listen_partitions vs' r
  end.

Definition Start (partitions_ : list Z) : M LW (option C * option error) :=
  c ← this;
  if started c then mret (None, Some (ErrAlreadyStarted (node c)))
  else
    _ ← set_started true;
    c ← this;
    _ ← check_partitions (partitions (outbound c)) partitions_;
    if decide (partitions (outbound c) = 1) then
      queueName ← BuildQueueName (systemId c);
      _ ← write_line (LineListenSingle queueName);
      call_provider_Listen queueName
    else if decide (length partitions_ = 0)%nat then
      listen_partitions (seqZ 0 (partitions (outbound c))) (None, None)
    else listen_partitions partitions_ (None, None).

End Lifecycle.

(* ===================================================================== *)
(** * Package provider: the registry of transports *)
(* ===================================================================== *)

Section Registry.
Context {P : Type}.

(** The package variable [providers]; the lock around it orders the
    calls, which are modelled one after the other. *)
Abbreviation Providers := (gmap string P).

(** A [Provider] argument may be the nil interface, [None]. *)
Definition Register (name : string) (provider : option P) : M Providers unit :=
  λ providers,
    match provider with
    | None => (Panic, providers)
    | Some p =>
        match providers !! name with
        | Some _ => (Panic, providers)
        | None => (Ret tt, <[name := p]> providers)
        end
    end.

Definition Read (key : string) : M Providers (option P) :=
  λ providers, (Ret (providers !! key), providers).

(** A run of [Register] calls, as an init sequence makes them. *)
Fixpoint register_all (calls : list (string * option P)) : M Providers unit :=
  match calls with
  | [] => mret tt
  | (name, provider) :: rest =>
      _ ← Register name provider;
      register_all rest
  end.

End Registry.

(* ===================================================================== *)
(** * The engine (package amq): one client per node *)
(* ===================================================================== *)

(** The [Amq] struct; [CR] is the type of client pointers. *)
Record Amq (CR : Type) := MkAmq {
  amq_systemId : string;
  allNodes : list Node.t;
  clientMap : gmap Z CR }.
Arguments MkAmq {CR} _ _ _.
Arguments amq_systemId {CR} _.
Arguments allNodes {CR} _.
Arguments clientMap {CR} _.

(** The engine, and the state [NS] in which [newClient] runs (the
    configuration, the registry, the clients built). *)
Record EngineWorld (CR NS : Type) := MkEngineWorld {
  engine : Amq CR;
  build_state : NS }.
Arguments MkEngineWorld {CR NS} _ _.
Arguments engine {CR NS} _.
Arguments build_state {CR NS} _.

Section Engine.
Context {CR NS : Type}.

(** [newClient] reads the configuration and the registry, which are not
    under src/: it is a parameter, a function of the system id and the node
    on the state [NS]. *)
Variable construct : string → Node.t → NS → CR * NS.

Definition Engine (systemId : string) : Amq CR :=
  let allNodes := replicate (length Node.Values) 0 in
  let allNodes :=
    fold_left (λ nodes iv, <[iv.1 := iv.2]> nodes)
      (imap (λ i v, (i, v)) Node.Values) allNodes in
  MkAmq systemId allNodes ∅.

Definition Amq_Client (node : Node.t)
    : M (EngineWorld CR NS) (option CR * option error) :=
  λ w,
    let e := engine w in
    if decide (Node.IsValid node ≠ None) then
      (Ret (None, Some (ErrApplication
                          ("无效的AMQ节点[" +:+ ToStr node +:+ "]"))), w)
    else
      match clientMap e !! node with
      | Some client => (Ret (Some client, None), w)
      | None =>
          let '(client, s) := construct (amq_systemId e) node (build_state w) in
          (Ret (Some client, None),
           MkEngineWorld
             (MkAmq (amq_systemId e) (allNodes e) (<[node := client]> (clientMap e)))
             s)
      end.

End Engine.

(* ===================================================================== *)
(** * Vocabulary of the further statements *)
(* ===================================================================== *)

(** The double quote as a character. *)
Definition dq_char : ascii := ascii_of_nat 34.

(** No double quote occurs in the string. *)
Fixpoint no_dq (s : string) : bool :=
  match s with
  | EmptyString => true
  | String a s' => negb (Ascii.eqb a dq_char) && no_dq s'
  end.

(** No key and no value of the body holds a double quote. *)
Definition quote_free (mb : MsgBody.t) : Prop :=
  ∀ k v, MsgBody.Body mb !! k = Some v → no_dq k = true ∧ no_dq v = true.

(** The pieces of a string between its double quotes; [cur] is the piece
    being read. *)
Fixpoint fields_from (cur s : string) : list string :=
  match s with
  | EmptyString => [cur]
  | String a s' =>
      if Ascii.eqb a dq_char then cur :: fields_from "" s'
      else fields_from (cur +:+ String a "") s'
  end.

(** The key/value pairs among the pieces of a serialised body: after the
    opening brace, a key, a colon, a value and a separator, repeatedly. *)
Fixpoint pairs_of (pieces : list string) : list (string * string) :=
  match pieces with
  | k :: _ :: v :: _ :: rest => (k, v) :: pairs_of rest
  | _ => []
  end.

(** A system id as the queue-name pattern wants it: four ASCII digits. *)
Definition four_digits (s : string) : bool :=
  match s with
  | String a (String b (String c (String d EmptyString))) =>
      regexp.in_class regexp.Digit a && regexp.in_class regexp.Digit b
      && regexp.in_class regexp.Digit c && regexp.in_class regexp.Digit d
  | _ => false
  end.

(** The envelope the outbound constructors build for a message with body
    [b], before it is signed. *)
Definition outbound_unsigned (category : _MessageCategory) (m : Message.t)
    (src dstNew dstAck : string) (now : Z) (b : MsgBody.t) : MsgPayload.t :=
  {| MsgPayload.Category := category;
     MsgPayload.Genre := Message.genre m;
     MsgPayload.MsgId := Message.msgId m;
     MsgPayload.SrcAckQueue := src;
     MsgPayload.DstNewQueue := dstNew;
     MsgPayload.DstAckQueue := dstAck;
     MsgPayload.Body := Some b;
     MsgPayload.SendTime := now;
     MsgPayload.Phase := SenderReq;
     MsgPayload.Sign := "" |}.

(** The same envelope, signed. *)
Definition outbound_signed `{Digest} (category : _MessageCategory)
    (m : Message.t) (src dstNew dstAck : string) (now : Z) (b : MsgBody.t)
    : MsgPayload.t :=
  let e := outbound_unsigned category m src dstNew dstAck now b in
  MsgPayload.with_Sign (signature_with e b) e.

(** The phase that follows a phase in the handshake. *)
Definition next_phase (phase : _MessagePhase) : _MessagePhase :=
  if decide (phase = SenderReq) then ReceiverAck else SenderAck.

(** The queue names [Start] listens on when no call panics. *)
Definition partition_queue (systemId : string) (n : Node.t) (partition : Z)
    : string :=
  "sys_amq_" +:+ systemId +:+ "_" +:+ Node.String n +:+ "_p" +:+ ToStr partition.

Definition single_queue (systemId : string) (n : Node.t) : string :=
  "sys_amq_" +:+ systemId +:+ "_" +:+ Node.String n.

(** What [HandleNew] returns for a transactional request once the
    listener has answered with the body [rsp] and the error [err], when
    nothing panics; [next] is the next free address. *)
Definition answer_of (next : loc) (rsp : option MsgBody.t)
    (err : option error) : outcome reply :=
  Ret (match rsp with Some _ => Some next | None => None end, err).

(** Messages as an application builds them, and a world with nothing
    allocated. *)
Definition ping_notice : NoticeMessage.t :=
  {| NoticeMessage.Message :=
       {| Message.genre := "ping"; Message.msgId := "1";
          Message.Body := Some body_ok |};
     NoticeMessage.Destination := "sys_amq_0002_biz" |}.

Definition order_simplex : SimplexMessage.t :=
  {| SimplexMessage.Message :=
       {| Message.genre := "order"; Message.msgId := "42";
          Message.Body := Some body_ab |};
     SimplexMessage.Source := "sys_amq_0001_biz";
     SimplexMessage.Destination := "sys_amq_0002_biz" |}.

Definition order_duplex : DuplexMessage.t :=
  {| DuplexMessage.Message :=
       {| Message.genre := "order"; Message.msgId := "42";
          Message.Body := Some body_ab |};
     DuplexMessage.Source := "sys_amq_0001_biz";
     DuplexMessage.DestinationNew := "sys_amq_0002_biz";
     DuplexMessage.DestinationAck := "sys_amq_0002_fund" |}.

Definition empty_world : World nat := MkWorld [] 1700000005 0%nat [].

(** The rows of the handshake table at which a handler can answer with a
    reply envelope, by the handler that serves the row. *)
Definition replying_row (r : Replying) (ep : EntryPoint) (m : MsgPayload.t)
    : Prop :=
  match r with
  | bySimplexNew =>
      ep = handleNew ∧ MsgPayload.Category m = SIMPLEX
      ∧ MsgPayload.Phase m = SenderReq
  | byDuplexNew =>
      ep = handleNew ∧ MsgPayload.Category m = DUPLEX
      ∧ MsgPayload.Phase m = SenderReq
  | byDuplexRecipientACK =>
      ep = handleAck ∧ MsgPayload.Category m = DUPLEX
      ∧ MsgPayload.Phase m = ReceiverAck
  end.

(** An acknowledgement of a SIMPLEX message with the given source and
    destination ack queues. *)
Definition ack_to (src dstAck : string) : MsgPayload.t :=
  {| MsgPayload.Category := SIMPLEX;
     MsgPayload.Genre := "order";
     MsgPayload.MsgId := "42";
     MsgPayload.SrcAckQueue := src;
     MsgPayload.DstNewQueue := "sys_amq_0002_biz";
     MsgPayload.DstAckQueue := dstAck;
     MsgPayload.Body := Some body_ok;
     MsgPayload.SendTime := 1700000000;
     MsgPayload.Phase := ReceiverAck;
     MsgPayload.Sign := "" |}.

(** The calls of [Listen] that [Start] makes for a list of queue names,
    one after the other: every call replaces the result of the one
    before. *)
Fixpoint listen_each {PS C : Type}
    (listen : string → PS → (option C * option error) * PS)
    (names : list string) (r : option C * option error) (s : PS)
    : (option C * option error) * PS :=
  match names with
  | [] => (r, s)
  | name :: rest => let '(r', s') := listen name s in listen_each listen rest r' s'
  end.

(** The partition numbers at which the first loop of [Start] panics. *)
Definition bad_partition (limit v : Z) : Prop := v < 0 ∧ v < limit.

(** The queue names [Start] listens on when its first loop passes. *)
Definition listened_names (partitions : Z) (systemId : string) (n : Node.t)
    (partitions_ : list Z) : list string :=
  if decide (partitions = 1) then [single_queue systemId n]
  else partition_queue systemId n
         <$> (if decide (length partitions_ = 0)%nat then seqZ 0 partitions
              else partitions_).

(** The processor registered for [t] by a call of [AddProcessor]: the
    last of the arguments with this type. *)
Definition last_of_type {LS : Type} (t : string)
    (processors : list (Processor LS)) : option (Processor LS) :=
  last (filter (λ p, GetType p = t) processors).

(** A processor that counts its invocations and answers every new
    message with the body [rsp]. *)
Definition answering_processor (genre : string) (rsp : option MsgBody.t)
    : Processor nat :=
  {| GetType := genre;
     processor_OnReceived := λ _ n, ((rsp, None), S n);
     processor_OnRecipientAckReceived := λ _ _ n, ((None, None), S n);
     processor_OnSenderAckReceived := λ _ _ n, (None, S n) |}.

(** A transport that refuses to listen on the queue [refused] and counts
    the queues it listens on. *)
Definition listening_transport (refused : string)
    : string → nat → (option unit * option error) * nat :=
  λ name n,
    if decide (name = refused) then ((None, Some (ErrApplication "refused")), n)
    else ((Some tt, None), S n).

(** A client of system 0001 on node biz with the given partition count,
    not started, without processors; and its life before any call. *)
Definition biz_client (cfg_Partitions : Z) (refused : string)
    : ClientObj nat nat unit :=
  MkClientObj
    (newClient cfg_Partitions {| provider_Send := λ _ s, (None, s) |})
    "0001" Node.BIZ ∅ false (listening_transport refused).

Definition biz_life (cfg_Partitions : Z) (refused : string)
    : Life nat nat unit :=
  MkLife (biz_client cfg_Partitions refused) 0%nat [] [].

(** The client object once [Start] has set its flag. *)
Definition mark_started {PS LS C : Type} (c : ClientObj PS LS C)
    : ClientObj PS LS C :=
  MkClientObj (outbound c) (systemId c) (node c) (processorMap c) true
    (provider_Listen c).

(** Every character of the string is in the class. *)
Fixpoint in_class_all (c : regexp.class) (s : string) : bool :=
  match s with
  | EmptyString => true
  | String a s' => regexp.in_class c a && in_class_all c s'
  end.

(** The same notice, bound for partition 3 of the destination. *)
Definition ping_partition : NoticeMessage.t :=
  {| NoticeMessage.Message := NoticeMessage.Message ping_notice;
     NoticeMessage.Destination := "sys_amq_0002_biz_p3" |}.

(** A constructor of clients that names the client after the system id
    and the node, and counts the clients it has built. *)
Definition counting_construct : string → Node.t → nat → string * nat :=
  λ systemId n built, (systemId +:+ "/" +:+ Node.String n, S built).

(* ===================================================================== *)
(** * Strings and sorting *)
(* ===================================================================== *)

Lemma append_assoc (s1 s2 s3 : string) : s1 +:+ (s2 +:+ s3) = (s1 +:+ s2) +:+ s3.
Proof.
  induction s1 as [|a s1 IH]; [done|].
  change (String a (s1 +:+ (s2 +:+ s3)) = String a ((s1 +:+ s2) +:+ s3)).
  by rewrite IH.
Qed.

Lemma append_empty_r (s : string) : s +:+ "" = s.
Proof.
  induction s as [|a s IH]; [done|].
  change (String a (s +:+ "") = String a s). by rewrite IH.
Qed.

Lemma sort_Strings_Sorted (keys : list string) : Sorted String.le (sort_Strings keys).
Proof. apply (Sorted_merge_sort String.le). Qed.

Lemma sort_Strings_Permutation (keys : list string) : sort_Strings keys ≡ₚ keys.
Proof. apply merge_sort_Permutation. Qed.

(** The sorted list is determined by the set of keys, not by the order in
    which they are handed to the sort. *)
Lemma sort_Strings_order_irrelevant (keys1 keys2 : list string) :
  keys1 ≡ₚ keys2 → sort_Strings keys1 = sort_Strings keys2.
Proof.
  intros Hp. apply (Sorted_unique String.le); try apply sort_Strings_Sorted.
  by rewrite !sort_Strings_Permutation.
Qed.

Lemma keys_loop (order acc : list string) :
  fold_left (λ keys k, (keys ++ [k])%list) order acc = (acc ++ order)%list.
Proof.
  revert acc. induction order as [|k order IH]; intros acc; simpl.
  - by rewrite app_nil_r.
  - rewrite IH. by rewrite <- app_assoc.
Qed.

(* ===================================================================== *)
(** * MsgBody *)
(* ===================================================================== *)

Lemma Add_Body (key value : string) (mb : MsgBody.t) :
  MsgBody.Body (MsgBody.Add key value mb) = <[key := value]> (MsgBody.Body mb).
Proof.
  unfold MsgBody.Add. simpl. case_decide as Hs; [|done].
  assert (MsgBody.Body mb = ∅) as ->; [|done].
  apply map_size_empty_iff. lia.
Qed.

Lemma concat_empty_cons (x : string) (l : list string) :
  String.concat "" (x :: l) = x +:+ String.concat "" l.
Proof. destruct l; simpl; [by rewrite append_empty_r|done]. Qed.

Lemma concat_sep_cons (sep x y : string) (l : list string) :
  String.concat sep (x :: y :: l) = x +:+ sep +:+ String.concat sep (y :: l).
Proof. done. Qed.

Lemma write_keys_rest (mb : MsgBody.t) (i : nat) (keys : list string) (buffer : string) :
  MsgBody.write_keys mb (S i) keys buffer
  = buffer +:+ String.concat "" ((λ k, "," +:+ entry mb k) <$> keys).
Proof.
  revert i buffer. induction keys as [|k keys IH]; intros i buffer.
  - simpl. by rewrite append_empty_r.
  - cbn [MsgBody.write_keys]. rewrite IH, fmap_cons, concat_empty_cons.
    rewrite decide_True by lia.
    unfold entry. by rewrite <- !append_assoc.
Qed.

Lemma concat_comma (mb : MsgBody.t) (k : string) (keys : list string) :
  entry mb k +:+ String.concat "" ((λ k, "," +:+ entry mb k) <$> keys)
  = String.concat "," (entry mb <$> (k :: keys)).
Proof.
  revert k. induction keys as [|k' keys IH]; intros k.
  - simpl. by rewrite append_empty_r.
  - rewrite !fmap_cons, concat_sep_cons, concat_empty_cons.
    rewrite <- fmap_cons, <- IH. by rewrite <- !append_assoc.
Qed.

Lemma write_keys_concat (mb : MsgBody.t) (keys : list string) (buffer : string) :
  MsgBody.write_keys mb 0 keys buffer
  = buffer +:+ String.concat "," (entry mb <$> keys).
Proof.
  destruct keys as [|k keys].
  - simpl. by rewrite append_empty_r.
  - cbn [MsgBody.write_keys]. rewrite write_keys_rest, <- concat_comma.
    rewrite decide_False by lia.
    unfold entry. by rewrite <- !append_assoc.
Qed.

(** [ToString] in closed form: nothing for an empty body, else the pairs
    in the order of the sorted keys, separated by commas, between braces. *)
Lemma ToString_range_unfold (order : list string) (mb : MsgBody.t) :
  MsgBody.ToString_range order mb
  = if decide (MsgBody.Body mb = ∅) then ""
    else "{" +:+ String.concat "," (entry mb <$> sort_Strings order) +:+ "}".
Proof.
  unfold MsgBody.ToString_range. cbv zeta.
  destruct (decide (size (MsgBody.Body mb) = 0%nat)) as [Hs|Hs].
  - apply map_size_empty_iff in Hs. by rewrite decide_True.
  - rewrite decide_False by (by rewrite <- map_size_empty_iff).
    rewrite keys_loop, write_keys_concat. simpl.
    by rewrite <- !append_assoc.
Qed.

(** The string does not depend on the order in which [range] yields the
    keys. *)
Lemma ToString_range_irrelevant (order : list string) (mb : MsgBody.t) :
  MsgBody.range_order mb order →
  MsgBody.ToString_range order mb = MsgBody.ToString mb.
Proof.
  intros Ho. unfold MsgBody.ToString. rewrite !ToString_range_unfold.
  by rewrite (sort_Strings_order_irrelevant _ _ Ho).
Qed.

Lemma range_order_keys (mb : MsgBody.t) (order : list string) (k : string) :
  MsgBody.range_order mb order → k ∈ order ↔ MsgBody.HasKey k mb = true.
Proof.
  intros Ho. rewrite Ho. unfold MsgBody.HasKey. rewrite list_elem_of_fmap. split.
  - intros [[k' v] [-> Hin]]. apply elem_of_map_to_list in Hin. simpl. by rewrite Hin.
  - destruct (MsgBody.Body mb !! k) as [v|] eqn:Hk; [|done].
    intros _. exists (k, v). split; [done|]. by apply elem_of_map_to_list.
Qed.

Lemma add_all_Body (entries : list (string * string)) :
  MsgBody.Body (add_all entries) = list_to_map (reverse entries).
Proof.
  unfold add_all.
  assert (∀ mb, MsgBody.Body (fold_left (λ mb kv, MsgBody.Add kv.1 kv.2 mb) entries mb)
                = list_to_map (reverse entries) ∪ MsgBody.Body mb) as Hgen.
  { induction entries as [|[k v] entries IH]; intros mb; simpl.
    - by rewrite (left_id_L ∅ (∪)).
    - rewrite IH, Add_Body, reverse_cons, list_to_map_app. simpl.
      rewrite insert_empty, (insert_union_singleton_l (MsgBody.Body mb)).
      by rewrite (assoc_L (∪)). }
  rewrite Hgen. simpl. by rewrite (right_id_L ∅ (∪)).
Qed.

(** Entries with pairwise distinct keys give the same body in whichever
    order they are added. *)
Lemma add_all_Permutation (l1 l2 : list (string * string)) :
  NoDup l1.*1 → l1 ≡ₚ l2 → MsgBody.Body (add_all l1) = MsgBody.Body (add_all l2).
Proof.
  intros Hnd Hp. rewrite !add_all_Body. apply list_to_map_proper.
  - by rewrite fmap_reverse, reverse_Permutation.
  - by rewrite !reverse_Permutation.
Qed.

Lemma ToString_range_content (mb1 mb2 : MsgBody.t) (order1 order2 : list string) :
  MsgBody.range_order mb1 order1 → MsgBody.range_order mb2 order2 →
  (∀ k, MsgBody.Body mb1 !! k = MsgBody.Body mb2 !! k) →
  MsgBody.ToString_range order1 mb1 = MsgBody.ToString_range order2 mb2.
Proof.
  destruct mb1 as [m1], mb2 as [m2]. simpl. intros Ho1 Ho2 Heq.
  assert (m1 = m2) as <- by (by apply map_eq).
  by rewrite (ToString_range_irrelevant order1), (ToString_range_irrelevant order2).
Qed.

Lemma ToString_content (mb1 mb2 : MsgBody.t) :
  (∀ k, MsgBody.Body mb1 !! k = MsgBody.Body mb2 !! k) →
  MsgBody.ToString mb1 = MsgBody.ToString mb2.
Proof.
  intros Heq. unfold MsgBody.ToString.
  apply ToString_range_content; [by unfold MsgBody.range_order..|done].
Qed.

(** C5.  Canonical serialisation of a body ([MsgBody.ToString]):
    - an empty body gives the empty string;
    - a non-empty body gives an opening brace, the pairs key:value (each
      side between double quotes) separated by commas, and a closing brace,
      where the keys are exactly the keys of the body, each once, in
      ascending order;
    - the string depends only on the content: two bodies with the same
      value at every key serialise alike, whatever order [range] takes;
    - in particular adding the same entries (pairwise distinct keys) in a
      permuted order gives the same string. *)
Theorem C5_ToString_canonical :
  (∀ (mb : MsgBody.t) (order : list string),
     MsgBody.Body mb = ∅ → MsgBody.ToString_range order mb = "") ∧
  (∀ (mb : MsgBody.t) (order : list string),
     MsgBody.range_order mb order → MsgBody.Body mb ≠ ∅ →
     ∃ keys : list string,
       Sorted String.le keys ∧ NoDup keys ∧
       (∀ k, k ∈ keys ↔ MsgBody.HasKey k mb = true) ∧
       MsgBody.ToString_range order mb
       = "{" +:+ String.concat "," (entry mb <$> keys) +:+ "}") ∧
  (∀ (mb1 mb2 : MsgBody.t) (order1 order2 : list string),
     MsgBody.range_order mb1 order1 → MsgBody.range_order mb2 order2 →
     (∀ k, MsgBody.Body mb1 !! k = MsgBody.Body mb2 !! k) →
     MsgBody.ToString_range order1 mb1 = MsgBody.ToString_range order2 mb2) ∧
  (∀ (l1 l2 : list (string * string)) (order1 order2 : list string),
     NoDup l1.*1 → l1 ≡ₚ l2 →
     MsgBody.range_order (add_all l1) order1 →
     MsgBody.range_order (add_all l2) order2 →
     MsgBody.ToString_range order1 (add_all l1)
     = MsgBody.ToString_range order2 (add_all l2)).
Proof.
  split; [|split; [|split]].
  - intros mb order Hempty. rewrite ToString_range_unfold. by rewrite decide_True.
  - intros mb order Ho Hne. exists (sort_Strings order). split; [|split; [|split]].
    + apply sort_Strings_Sorted.
    + rewrite sort_Strings_Permutation, Ho. apply NoDup_fst_map_to_list.
    + intros k. rewrite sort_Strings_Permutation. by apply range_order_keys.
    + rewrite ToString_range_unfold. by rewrite decide_False.
  - apply ToString_range_content.
  - intros l1 l2 o1 o2 Hnd Hp Ho1 Ho2. apply ToString_range_content; [done..|].
    intros k. by rewrite (add_all_Permutation l1 l2).
Qed.

Lemma C5_ToString_canonical_witness :
  MsgBody.ToString_range [] MsgBody.NewMessageBody = "" ∧
  MsgBody.ToString_range ["b"; "a"] (add_all [("b", "2"); ("a", "1")])
  = MsgBody.ToString_range ["a"; "b"] (add_all [("a", "1"); ("b", "2")]).
Proof.
  split.
  - apply (proj1 C5_ToString_canonical). reflexivity.
  - apply (proj2 (proj2 (proj2 C5_ToString_canonical))).
    + apply (bool_decide_unpack _). vm_compute. exact I.
    + apply (bool_decide_unpack _). vm_compute. exact I.
    + unfold MsgBody.range_order. apply (bool_decide_unpack _). vm_compute. exact I.
    + unfold MsgBody.range_order. apply (bool_decide_unpack _). vm_compute. exact I.
Defined.

(* ===================================================================== *)
(** * The machine: loads, stores and the signature *)
(* ===================================================================== *)

Ltac unfold_M :=
  unfold mbind, M_bind, bind, mret, M_ret, ret, panic in *.

Section MachineFacts.
Context `{Digest} {LS : Type}.
Implicit Types (w : World LS) (m e : MsgPayload.t) (h : list MsgPayload.t)
  (p : loc) (l : MessageListener LS).

Lemma load_Some w p m : heap w !! p = Some m → load p w = (Ret m, w).
Proof. intros Hp. unfold load. by rewrite Hp. Qed.

Lemma load_None w p : heap w !! p = None → load p w = (Panic, w).
Proof. intros Hp. unfold load. by rewrite Hp. Qed.

Lemma load_last h e c (s : LS) cs :
  load (length h) (MkWorld (h ++ [e]) c s cs) = (Ret e, MkWorld (h ++ [e]) c s cs).
Proof. apply load_Some. simpl. by rewrite list_lookup_middle. Qed.

Lemma load_old h e c (s : LS) cs p m :
  h !! p = Some m →
  load p (MkWorld (h ++ [e]) c s cs) = (Ret m, MkWorld (h ++ [e]) c s cs).
Proof. intros Hp. apply load_Some. simpl. by apply lookup_app_l_Some. Qed.

Lemma store_last h e e' c (s : LS) cs :
  store (length h) e' (MkWorld (h ++ [e]) c s cs)
  = (Ret tt, MkWorld (h ++ [e']) c s cs).
Proof.
  unfold store. simpl. rewrite decide_True by (rewrite length_app; simpl; lia).
  rewrite insert_app_r_alt by lia. by rewrite Nat.sub_diag.
Qed.

Lemma SetBody_last h e body c (s : LS) cs :
  SetBody (length h) body (MkWorld (h ++ [e]) c s cs)
  = (Ret tt, MkWorld (h ++ [MsgPayload.with_Body body e]) c s cs).
Proof. unfold SetBody. unfold_M. by rewrite load_last, store_last. Qed.

Lemma SetSign_last h e sign c (s : LS) cs :
  SetSign (length h) sign (MkWorld (h ++ [e]) c s cs)
  = (Ret tt, MkWorld (h ++ [MsgPayload.with_Sign sign e]) c s cs).
Proof. unfold SetSign. unfold_M. by rewrite load_last, store_last. Qed.

(** [Signature] reads the envelope and nothing else; it leaves the world
    as it found it. *)
Lemma Signature_run w p m :
  heap w !! p = Some m → Signature p w = (signature_of m, w).
Proof.
  intros Hp. unfold Signature, signature_of, signature_with, ToString_ptr, signing_text.
  unfold_M. rewrite (load_Some _ _ _ Hp).
  destruct (MsgPayload.Body m) as [b|]; [|done].
  by rewrite <- !append_assoc.
Qed.

Lemma Signature_last h e c (s : LS) cs :
  Signature (length h) (MkWorld (h ++ [e]) c s cs)
  = (signature_of e, MkWorld (h ++ [e]) c s cs).
Proof. apply Signature_run. simpl. by rewrite list_lookup_middle. Qed.

Lemma NewPayload_run w msg m b phase :
  heap w !! msg = Some m → MsgPayload.Body m = Some b →
  NewPayload msg phase w
  = (Ret (length (heap w)),
     MkWorld (heap w ++ [derive_signed m phase (clock w) b])
       (clock w) (lstate w) (calls w)).
Proof.
  intros Hp Hb. unfold NewPayload. unfold_M.
  rewrite (load_Some _ _ _ Hp). unfold time_Now_Unix, alloc.
  rewrite (load_old _ _ _ _ _ _ _ Hp), SetBody_last, Signature_last.
  unfold signature_of. simpl. rewrite Hb. by rewrite SetSign_last.
Qed.

Lemma NewPayload_nil_body w msg m phase :
  heap w !! msg = Some m → MsgPayload.Body m = None →
  NewPayload msg phase w
  = (Panic,
     MkWorld (heap w ++ [derive m phase (clock w) None ""])
       (clock w) (lstate w) (calls w)).
Proof.
  intros Hp Hb. unfold NewPayload. unfold_M.
  rewrite (load_Some _ _ _ Hp). unfold time_Now_Unix, alloc.
  rewrite (load_old _ _ _ _ _ _ _ Hp), SetBody_last, Signature_last.
  unfold signature_of. simpl. by rewrite Hb.
Qed.

(** The common tail of [simplexNew], [duplexNew] and
    [duplexRecipientACK]: derive the reply, attach the listener's body,
    sign again. *)
Lemma reply_tail w mpl m b rsp phase (err : option error) :
  heap w !! mpl = Some m → MsgPayload.Body m = Some b →
  (returnMsg ← NewPayload mpl phase;
   _ ← SetBody returnMsg (Some rsp);
   sign ← Signature returnMsg;
   _ ← SetSign returnMsg sign;
   ret (Some returnMsg, err)) w
  = (Ret (Some (length (heap w)), err),
     MkWorld (heap w ++ [derive_signed m phase (clock w) rsp])
       (clock w) (lstate w) (calls w)).
Proof.
  intros Hp Hb. unfold_M. rewrite (NewPayload_run _ _ _ _ _ Hp Hb).
  rewrite SetBody_last, Signature_last. unfold signature_of. simpl.
  by rewrite SetSign_last.
Qed.

Lemma reply_tail_nil_body w mpl m rsp phase (err : option error) :
  heap w !! mpl = Some m → MsgPayload.Body m = None →
  (returnMsg ← NewPayload mpl phase;
   _ ← SetBody returnMsg (Some rsp);
   sign ← Signature returnMsg;
   _ ← SetSign returnMsg sign;
   ret (Some returnMsg, err)) w
  = (Panic,
     MkWorld (heap w ++ [derive m phase (clock w) None ""])
       (clock w) (lstate w) (calls w)).
Proof.
  intros Hp Hb. unfold_M. by rewrite (NewPayload_nil_body _ _ _ _ Hp Hb).
Qed.

End MachineFacts.

(* ===================================================================== *)
(** * The handlers, case by case *)
(* ===================================================================== *)

Section HandlerFacts.
Context `{Digest} {LS : Type}.
Implicit Types (w : World LS) (m e : MsgPayload.t) (p msg mpl : loc)
  (l : MessageListener LS).

Ltac start Hp :=
  unfold_M; rewrite (load_Some _ _ _ Hp); cbv zeta.

(** ** A phase the handler does not accept *)

Lemma noticeNew_phase w msg m l :
  heap w !! msg = Some m → MsgPayload.Phase m ≠ SenderReq →
  noticeNew msg l w = (Ret (None, Some (ErrInvalidPhase (MsgPayload.Phase m))), w).
Proof. intros Hp Hph. unfold noticeNew. start Hp. by rewrite decide_True. Qed.

Lemma simplexNew_phase w msg m l :
  heap w !! msg = Some m → MsgPayload.Phase m ≠ SenderReq →
  simplexNew msg l w = (Ret (None, Some (ErrInvalidPhase (MsgPayload.Phase m))), w).
Proof. intros Hp Hph. unfold simplexNew. start Hp. by rewrite decide_True. Qed.

Lemma duplexNew_phase w msg m l :
  heap w !! msg = Some m → MsgPayload.Phase m ≠ SenderReq →
  duplexNew msg l w = (Ret (None, Some (ErrInvalidPhase (MsgPayload.Phase m))), w).
Proof. intros Hp Hph. unfold duplexNew. start Hp. by rewrite decide_True. Qed.

(** ** noticeNew *)

Lemma noticeNew_run w msg m l :
  heap w !! msg = Some m →
  MsgPayload.Category m = NOTICE → MsgPayload.Phase m = SenderReq →
  noticeNew msg l w
  = (Ret (None, (OnReceived l (Notice (notice_of m)) (lstate w)).1.2),
     after_call w (OnReceived l (Notice (notice_of m)) (lstate w)).2
       (CallOnReceived (Notice (notice_of m)))).
Proof.
  intros Hp Hc Hph. unfold noticeNew. start Hp.
  rewrite decide_False by (by intros ?).
  unfold MsgPayload.ConvertToNotice. rewrite decide_False by (by intros ?).
  cbv zeta. rewrite decide_False by (by intros ?).
  unfold call_OnReceived, after_call, notice_of, message_of. simpl.
  by destruct (OnReceived l _ (lstate w)) as [[rsp err] s].
Qed.

(** ** simplexNew, duplexNew *)

Lemma simplexNew_category w mpl m l :
  heap w !! mpl = Some m →
  MsgPayload.Phase m = SenderReq → MsgPayload.Category m ≠ SIMPLEX →
  simplexNew mpl l w = (Ret (None, Some ErrNotSimplex), w).
Proof.
  intros Hp Hph Hc. unfold simplexNew. start Hp.
  rewrite decide_False by (by intros ?).
  unfold MsgPayload.ConvertToSimplex. rewrite decide_True by done.
  cbv zeta. by rewrite decide_True.
Qed.

Lemma duplexNew_category w mpl m l :
  heap w !! mpl = Some m →
  MsgPayload.Phase m = SenderReq → MsgPayload.Category m ≠ DUPLEX →
  duplexNew mpl l w = (Ret (None, Some ErrNotDuplex), w).
Proof.
  intros Hp Hph Hc. unfold duplexNew. start Hp.
  rewrite decide_False by (by intros ?).
  unfold MsgPayload.ConvertToDuplex. rewrite decide_True by done.
  cbv zeta. by rewrite decide_True.
Qed.

(** After the listener has answered: the shared end of the replying
    handlers. *)
Lemma reply_or_not w mpl m phase (c : Call) rsp (err : option error) (s : LS) :
  heap w !! mpl = Some m →
  (if decide (rsp = None) then ret (None, err)
   else
     returnMsg ← NewPayload mpl phase;
     _ ← SetBody returnMsg rsp;
     sign ← Signature returnMsg;
     _ ← SetSign returnMsg sign;
     ret (Some returnMsg, err)) (after_call w s c)
  = replied w m phase c ((rsp, err), s).
Proof.
  intros Hp. unfold replied. destruct rsp as [body|].
  - rewrite decide_False by done.
    destruct (MsgPayload.Body m) as [b|] eqn:Hb.
    + by rewrite (reply_tail _ mpl m b).
    + by rewrite (reply_tail_nil_body _ mpl m).
  - by rewrite decide_True.
Qed.

Lemma simplexNew_run w mpl m l :
  heap w !! mpl = Some m →
  MsgPayload.Category m = SIMPLEX → MsgPayload.Phase m = SenderReq →
  simplexNew mpl l w
  = replied w m ReceiverAck (CallOnReceived (Simplex (simplex_of m)))
      (OnReceived l (Simplex (simplex_of m)) (lstate w)).
Proof.
  intros Hp Hc Hph. unfold simplexNew. start Hp.
  rewrite decide_False by (by intros ?).
  unfold MsgPayload.ConvertToSimplex. rewrite decide_False by (by intros ?).
  cbv zeta. rewrite decide_False by (by intros ?).
  unfold call_OnReceived, simplex_of, message_of. simpl.
  destruct (OnReceived l _ (lstate w)) as [[rsp err] s].
  by apply (reply_or_not w mpl m).
Qed.

Lemma duplexNew_run w mpl m l :
  heap w !! mpl = Some m →
  MsgPayload.Category m = DUPLEX → MsgPayload.Phase m = SenderReq →
  duplexNew mpl l w
  = replied w m ReceiverAck (CallOnReceived (Duplex (duplex_of m)))
      (OnReceived l (Duplex (duplex_of m)) (lstate w)).
Proof.
  intros Hp Hc Hph. unfold duplexNew. start Hp.
  rewrite decide_False by (by intros ?).
  unfold MsgPayload.ConvertToDuplex. rewrite decide_False by (by intros ?).
  cbv zeta. rewrite decide_False by (by intros ?).
  unfold call_OnReceived, duplex_of, message_of. simpl.
  destruct (OnReceived l _ (lstate w)) as [[rsp err] s].
  by apply (reply_or_not w mpl m).
Qed.

(** ** The acknowledgement handlers *)

Lemma simplexRecipientACK_phase w mpl m l :
  heap w !! mpl = Some m → MsgPayload.Phase m ≠ ReceiverAck →
  simplexRecipientACK mpl l w
  = (Ret (None, Some (ErrInvalidPhase (MsgPayload.Phase m))), w).
Proof. intros Hp Hph. unfold simplexRecipientACK. start Hp. by rewrite decide_True. Qed.

Lemma duplexRecipientACK_phase w mpl m l :
  heap w !! mpl = Some m → MsgPayload.Phase m ≠ ReceiverAck →
  duplexRecipientACK mpl l w
  = (Ret (None, Some (ErrInvalidPhase (MsgPayload.Phase m))), w).
Proof. intros Hp Hph. unfold duplexRecipientACK. start Hp. by rewrite decide_True. Qed.

Lemma duplexSenderACK_phase w mpl m l :
  heap w !! mpl = Some m → MsgPayload.Phase m ≠ SenderAck →
  duplexSenderACK mpl l w
  = (Ret (None, Some (ErrInvalidPhase (MsgPayload.Phase m))), w).
Proof. intros Hp Hph. unfold duplexSenderACK. start Hp. by rewrite decide_True. Qed.

Lemma simplexRecipientACK_run w mpl m l :
  heap w !! mpl = Some m → MsgPayload.Phase m = ReceiverAck →
  simplexRecipientACK mpl l w
  = (Ret (None,
          (OnRecipientAckReceived l (MsgPayload.Genre m) (MsgPayload.MsgId m)
             (MsgPayload.Body m) (lstate w)).1.2),
     after_call w
       (OnRecipientAckReceived l (MsgPayload.Genre m) (MsgPayload.MsgId m)
          (MsgPayload.Body m) (lstate w)).2
       (CallOnRecipientAckReceived (MsgPayload.Genre m) (MsgPayload.MsgId m)
          (MsgPayload.Body m))).
Proof.
  intros Hp Hph. unfold simplexRecipientACK. start Hp.
  rewrite decide_False by (by intros ?).
  unfold call_OnRecipientAckReceived, after_call.
  by destruct (OnRecipientAckReceived l _ _ _ (lstate w)) as [[rsp err] s].
Qed.

Lemma duplexRecipientACK_run w mpl m l :
  heap w !! mpl = Some m → MsgPayload.Phase m = ReceiverAck →
  duplexRecipientACK mpl l w
  = replied w m SenderAck
      (CallOnRecipientAckReceived (MsgPayload.Genre m) (MsgPayload.MsgId m)
         (MsgPayload.Body m))
      (OnRecipientAckReceived l (MsgPayload.Genre m) (MsgPayload.MsgId m)
         (MsgPayload.Body m) (lstate w)).
Proof.
  intros Hp Hph. unfold duplexRecipientACK. start Hp.
  rewrite decide_False by (by intros ?).
  unfold call_OnRecipientAckReceived.
  destruct (OnRecipientAckReceived l _ _ _ (lstate w)) as [[rsp err] s].
  by apply (reply_or_not w mpl m).
Qed.

Lemma duplexSenderACK_run w mpl m l :
  heap w !! mpl = Some m → MsgPayload.Phase m = SenderAck →
  duplexSenderACK mpl l w
  = (Ret (None,
          (OnSenderAckReceived l (MsgPayload.Genre m) (MsgPayload.MsgId m)
             (MsgPayload.Body m) (lstate w)).1),
     after_call w
       (OnSenderAckReceived l (MsgPayload.Genre m) (MsgPayload.MsgId m)
          (MsgPayload.Body m) (lstate w)).2
       (CallOnSenderAckReceived (MsgPayload.Genre m) (MsgPayload.MsgId m)
          (MsgPayload.Body m))).
Proof.
  intros Hp Hph. unfold duplexSenderACK. start Hp.
  rewrite decide_False by (by intros ?).
  unfold call_OnSenderAckReceived, after_call.
  by destruct (OnSenderAckReceived l _ _ _ (lstate w)) as [err s].
Qed.

(** ** The two entry points *)

Lemma HandleNew_dispatch w msg m l :
  heap w !! msg = Some m →
  HandleNew msg l w
  = if decide (MsgPayload.Category m = NOTICE) then noticeNew msg l w
    else if decide (MsgPayload.Category m = SIMPLEX) then simplexNew msg l w
    else if decide (MsgPayload.Category m = DUPLEX) then duplexNew msg l w
    else (Ret (None, Some (ErrInvalidCategory (MsgPayload.Category m))), w).
Proof. intros Hp. unfold HandleNew. start Hp. by repeat case_decide. Qed.

Lemma HandleAck_dispatch w msg m l :
  heap w !! msg = Some m →
  HandleAck msg l w
  = if decide (MsgPayload.Category m = SIMPLEX) then
      if decide (MsgPayload.Phase m = ReceiverAck) then simplexRecipientACK msg l w
      else (Ret (None, Some (ErrInvalidPhase (MsgPayload.Phase m))), w)
    else if decide (MsgPayload.Category m = DUPLEX) then
      if decide (MsgPayload.Phase m = ReceiverAck) then duplexRecipientACK msg l w
      else if decide (MsgPayload.Phase m = SenderAck) then duplexSenderACK msg l w
      else (Ret (None, Some (ErrInvalidPhase (MsgPayload.Phase m))), w)
    else (Ret (None, Some (ErrInvalidCategory (MsgPayload.Category m))), w).
Proof. intros Hp. unfold HandleAck. start Hp. by repeat case_decide. Qed.

End HandlerFacts.

(* ===================================================================== *)
(** * Claims on the envelope: C4, C6, C8 *)
(* ===================================================================== *)

(** C4.  [SendQueueName] is decided by the phase alone: the destination's
    new-message queue at SENDER_REQ, the sender's ack queue at RECEIVER_ACK,
    the destination's ack queue at SENDER_ACK; for every other phase value it
    returns the invalid-phase error, and with it the empty string, never one
    of the queue names as a default. *)
Theorem C4_SendQueueName_by_phase (mpl : MsgPayload.t) :
  (MsgPayload.Phase mpl = SenderReq →
   MsgPayload.SendQueueName mpl = (MsgPayload.DstNewQueue mpl, None)) ∧
  (MsgPayload.Phase mpl = ReceiverAck →
   MsgPayload.SendQueueName mpl = (MsgPayload.SrcAckQueue mpl, None)) ∧
  (MsgPayload.Phase mpl = SenderAck →
   MsgPayload.SendQueueName mpl = (MsgPayload.DstAckQueue mpl, None)) ∧
  (MsgPayload.Phase mpl ≠ SenderReq → MsgPayload.Phase mpl ≠ ReceiverAck →
   MsgPayload.Phase mpl ≠ SenderAck →
   MsgPayload.SendQueueName mpl
   = ("", Some (ErrInvalidPhase (MsgPayload.Phase mpl)))).
Proof.
  unfold MsgPayload.SendQueueName. repeat split.
  all: intros; repeat case_decide;
    unfold SenderReq, ReceiverAck, SenderAck in *; congruence.
Qed.

Section EnvelopeClaims.
Context `{!Digest} {LS : Type}.
Implicit Types (w : World LS) (m e : MsgPayload.t) (p msg : loc).

(** C8.  [Signature] is deterministic and free of side effects: on two
    envelopes that agree on category, type, id, the three queue names,
    body content, phase and send time it yields the same outcome - the
    same signature string whenever the envelopes carry a body - wherever
    the envelopes are stored and whatever their [Sign] fields hold; the
    string does not depend on the order in which the body's map is
    traversed; and the world after the call is the world before it. *)
Theorem C8_Signature_deterministic w1 w2 p1 p2 m1 m2 :
  heap w1 !! p1 = Some m1 → heap w2 !! p2 = Some m2 →
  same_signed_fields m1 m2 →
  (Signature p1 w1).1 = (Signature p2 w2).1 ∧
  (Signature p1 w1).2 = w1 ∧ (Signature p2 w2).2 = w2 ∧
  (∀ b1 b2 order1 order2,
     MsgPayload.Body m1 = Some b1 → MsgPayload.Body m2 = Some b2 →
     MsgBody.range_order b1 order1 → MsgBody.range_order b2 order2 →
     (Signature p1 w1).1
     = Ret (MD5 (signing_text m1 (MsgBody.ToString_range order1 b1))) ∧
     (Signature p2 w2).1
     = Ret (MD5 (signing_text m1 (MsgBody.ToString_range order2 b2)))).
Proof.
  intros Hp1 Hp2 (Hc & Hg & Hi & Hs & Hda & Hdn & Hph & Ht & Hb).
  rewrite (Signature_run _ _ _ Hp1), (Signature_run _ _ _ Hp2). simpl.
  assert (∀ b1 b2, MsgPayload.Body m1 = Some b1 → MsgPayload.Body m2 = Some b2 →
                   MsgBody.ToString b1 = MsgBody.ToString b2) as Hts.
  { intros b1 b2 Hb1 Hb2. rewrite Hb1, Hb2 in Hb. by apply ToString_content. }
  assert (∀ body, signing_text m1 body = signing_text m2 body) as Htxt.
  { intros body. unfold signing_text. by rewrite Hc, Hg, Hi, Hs, Hda, Hdn, Hph, Ht. }
  split; [|split; [done|split; [done|]]].
  - unfold signature_of, signature_with.
    destruct (MsgPayload.Body m1) as [b1|] eqn:Hb1,
             (MsgPayload.Body m2) as [b2|] eqn:Hb2; try done.
    by rewrite (Hts b1 b2), Htxt.
  - intros b1 b2 o1 o2 Hb1 Hb2 Ho1 Ho2.
    unfold signature_of, signature_with. rewrite Hb1, Hb2.
    rewrite (ToString_range_irrelevant o1 b1), (ToString_range_irrelevant o2 b2) by done.
    by rewrite <- (Hts b1 b2), Htxt.
Qed.

(** C6, as amended.  For every prior envelope that carries a body, and
    every phase, [NewPayload] returns a pointer to a newly allocated
    envelope whose category, type, id, three queue names and body are
    those of the prior envelope, whose phase is the given phase, whose
    send time is the current reading of the clock, and whose signature is
    the signature over these new field values ([Signature], run on the new
    envelope, returns its [Sign]); the prior envelope, like every envelope
    allocated before, is left as it was, and no listener is called. *)
Theorem C6_NewPayload_derives w msg m b phase :
  heap w !! msg = Some m → MsgPayload.Body m = Some b →
  ∃ e,
    NewPayload msg phase w
    = (Ret (length (heap w)),
       MkWorld (heap w ++ [e]) (clock w) (lstate w) (calls w)) ∧
    length (heap w) ≠ msg ∧
    (heap w ++ [e]) !! length (heap w) = Some e ∧
    (∀ q x, heap w !! q = Some x → (heap w ++ [e]) !! q = Some x) ∧
    MsgPayload.Category e = MsgPayload.Category m ∧
    MsgPayload.Genre e = MsgPayload.Genre m ∧
    MsgPayload.MsgId e = MsgPayload.MsgId m ∧
    MsgPayload.SrcAckQueue e = MsgPayload.SrcAckQueue m ∧
    MsgPayload.DstNewQueue e = MsgPayload.DstNewQueue m ∧
    MsgPayload.DstAckQueue e = MsgPayload.DstAckQueue m ∧
    MsgPayload.Body e = MsgPayload.Body m ∧
    MsgPayload.Phase e = phase ∧
        MsgPayload.SendTime e = clock w ∧
    Signature (length (heap w))
      (MkWorld (heap w ++ [e]) (clock w) (lstate w) (calls w))
    = (Ret (MsgPayload.Sign e),
       MkWorld (heap w ++ [e]) (clock w) (lstate w) (calls w)).
Proof.
  intros Hp Hb. exists (derive_signed m phase (clock w) b).
  rewrite (NewPayload_run _ _ _ _ _ Hp Hb).
  split; [done|]. split.
  { apply lookup_lt_Some in Hp. lia. }
  split; [by rewrite list_lookup_middle|].
  split; [by intros q x Hq; apply lookup_app_l_Some|].
  repeat (split; [done|]). by rewrite Signature_last.
Qed.

End EnvelopeClaims.

Lemma C4_SendQueueName_by_phase_witness :
  MsgPayload.SendQueueName (envelope SIMPLEX ReceiverAck None "")
  = ("sys_amq_0001_biz", None) ∧
  MsgPayload.SendQueueName (envelope SIMPLEX "9" None "")
  = ("", Some (ErrInvalidPhase "9")).
Proof.
  split.
  - apply (proj1 (proj2 (C4_SendQueueName_by_phase
                            (envelope SIMPLEX ReceiverAck None "")))).
    reflexivity.
  - apply (proj2 (proj2 (proj2 (C4_SendQueueName_by_phase
                                   (envelope SIMPLEX "9" None "")))));
      vm_compute; discriminate.
Defined.

Section ConcreteEnvelopes.
#[local] Existing Instance md5_digest.

(** Two envelopes with the same signed fields: one unsigned, alone on its
    heap; one with a stale signature and its entries added in the other
    order, second on another heap. *)
Lemma C8_Signature_deterministic_witness :
  (Signature 0%nat (world_with (envelope DUPLEX SenderAck (Some body_ab) ""))).1
  = (Signature 1%nat
       (MkWorld [envelope NOTICE SenderReq None "";
                 envelope DUPLEX SenderAck
                   (Some (add_all [("a", "1"); ("b", "2")])) "stale"]
          0 7%nat [])).1.
Proof.
  refine (proj1 (C8_Signature_deterministic
                   (world_with (envelope DUPLEX SenderAck (Some body_ab) ""))
                   (MkWorld [envelope NOTICE SenderReq None "";
                             envelope DUPLEX SenderAck
                               (Some (add_all [("a", "1"); ("b", "2")])) "stale"]
                      0 7%nat [])
                   0%nat 1%nat
                   (envelope DUPLEX SenderAck (Some body_ab) "")
                   (envelope DUPLEX SenderAck
                      (Some (add_all [("a", "1"); ("b", "2")])) "stale")
                   eq_refl eq_refl _)).
  unfold same_signed_fields, envelope.
  cbn [MsgPayload.Category MsgPayload.Genre MsgPayload.MsgId
       MsgPayload.SrcAckQueue MsgPayload.DstAckQueue MsgPayload.DstNewQueue
       MsgPayload.Phase MsgPayload.SendTime MsgPayload.Body].
  repeat (split; [reflexivity|]).
  intros k.
  assert (MsgBody.Body body_ab
          = MsgBody.Body (add_all [("a", "1"); ("b", "2")])) as ->;
    [vm_compute; reflexivity | reflexivity].
Defined.

Lemma C6_NewPayload_derives_witness :
  (NewPayload 0%nat ReceiverAck
     (world_with (envelope SIMPLEX SenderReq (Some body_ab) "x"))).1
  = Ret 1%nat.
Proof.
  destruct (C6_NewPayload_derives
              (world_with (envelope SIMPLEX SenderReq (Some body_ab) "x"))
              0%nat (envelope SIMPLEX SenderReq (Some body_ab) "x")
              body_ab ReceiverAck eq_refl eq_refl) as (e & Hrun & _).
  rewrite Hrun. reflexivity.
Defined.

(** An envelope decoded without a body: [NewPayload] panics while it
    signs the copy, and returns nothing. *)
Lemma C6_counterexample :
  (NewPayload 0%nat ReceiverAck
     (world_with (envelope SIMPLEX SenderReq None "x"))).1 = Panic
  ∧ ¬ C6_as_stated.
Proof.
  split; [vm_compute; reflexivity|].
  intros Hclaim.
  destruct (Hclaim nat (world_with (envelope SIMPLEX SenderReq None "x"))
              0%nat (envelope SIMPLEX SenderReq None "x") ReceiverAck eq_refl)
    as [p Hp].
  vm_compute in Hp. discriminate Hp.
Qed.

End ConcreteEnvelopes.

(* ===================================================================== *)
(** * Claims on the handshake: C1, C2, C3, C7, C10 *)
(* ===================================================================== *)

Ltac consts :=
  unfold NOTICE, SIMPLEX, DUPLEX, SenderReq, ReceiverAck, SenderAck in *.

Section HandshakeClaims.
Context `{!Digest} {LS : Type}.
Implicit Types (w : World LS) (m e : MsgPayload.t) (p msg mpl : loc)
  (l : MessageListener LS).

(** The three replying handlers in one statement. *)
Lemma replying_handler_run (r : Replying) w mpl m l :
  heap w !! mpl = Some m → reaches_listener r m →
  replying_handler r mpl l w
  = replied w m (reply_phase r) (listener_call r m)
      (listener_answer l r m (lstate w)).
Proof.
  intros Hp Hr. destruct r; simpl in *.
  - destruct Hr. by apply simplexNew_run.
  - destruct Hr. by apply duplexNew_run.
  - by apply duplexRecipientACK_run.
Qed.

(** [HandleNew] on a transactional request is the matching replying
    handler. *)
Lemma HandleNew_request w msg m l :
  heap w !! msg = Some m →
  MsgPayload.Category m = SIMPLEX ∨ MsgPayload.Category m = DUPLEX →
  MsgPayload.Phase m = SenderReq →
  HandleNew msg l w
  = replied w m ReceiverAck (CallOnReceived (request_variant m))
      (OnReceived l (request_variant m) (lstate w)).
Proof.
  intros Hp Hc Hph. rewrite (HandleNew_dispatch _ _ _ _ Hp).
  unfold request_variant.
  destruct Hc as [Hc|Hc]; repeat case_decide; try (consts; congruence).
  - by apply simplexNew_run.
  - by apply duplexNew_run.
Qed.

(** C7.  For every NOTICE envelope at phase SENDER_REQ, [HandleNew]
    invokes the listener's [OnReceived] once, with the notice message that
    carries the envelope's type, id and body and whose destination is the
    envelope's [DstNewQueue]; it returns no reply envelope whatever the
    listener returns, and the error it returns is the listener's; no
    envelope is allocated. *)
Theorem C7_notice_is_terminal w msg m l :
  heap w !! msg = Some m →
  MsgPayload.Category m = NOTICE → MsgPayload.Phase m = SenderReq →
  let nm :=
    Notice {| NoticeMessage.Message :=
                {| Message.genre := MsgPayload.Genre m;
                   Message.msgId := MsgPayload.MsgId m;
                   Message.Body := MsgPayload.Body m |};
              NoticeMessage.Destination := MsgPayload.DstNewQueue m |} in
  let answer := OnReceived l nm (lstate w) in
  HandleNew msg l w
  = (Ret (None, answer.1.2),
     MkWorld (heap w) (clock w) answer.2 (calls w ++ [CallOnReceived nm])).
Proof.
  intros Hp Hc Hph. cbv zeta. rewrite (HandleNew_dispatch _ _ _ _ Hp).
  rewrite decide_True by done. by rewrite (noticeNew_run _ _ _ _ Hp Hc Hph).
Qed.

(** C2, as amended.  For every (category, phase, entry point) outside
    the handshake table the entry point returns no reply envelope and an
    error, calls no listener and allocates nothing (the world is left as it
    was).  The error is the invalid-phase error when the entry point
    dispatches on the category (NOTICE, SIMPLEX, DUPLEX for HandleNew;
    SIMPLEX, DUPLEX for HandleAck); for every other category - NOTICE at
    HandleAck, an unknown category at either entry point - it is the
    invalid-message-type error. *)
Theorem C2_illegal_triples_fail (ep : EntryPoint) w msg m l :
  heap w !! msg = Some m →
  ¬ legal (MsgPayload.Category m) (MsgPayload.Phase m) ep →
  (dispatched (MsgPayload.Category m) ep →
   dispatch ep msg l w
   = (Ret (None, Some (ErrInvalidPhase (MsgPayload.Phase m))), w)) ∧
  (¬ dispatched (MsgPayload.Category m) ep →
   dispatch ep msg l w
   = (Ret (None, Some (ErrInvalidCategory (MsgPayload.Category m))), w)).
Proof.
  intros Hp Hill. destruct ep; simpl in *.
  - rewrite (HandleNew_dispatch _ _ _ _ Hp). split.
    + intros Hd.
      assert (MsgPayload.Phase m ≠ SenderReq) as Hph by (intros ?; by apply Hill).
      repeat case_decide.
      * by apply noticeNew_phase.
      * by apply simplexNew_phase.
      * by apply duplexNew_phase.
      * by destruct Hd as [?|[?|?]].
    + intros Hd. by rewrite !decide_False by (intros ?; apply Hd; auto).
  - rewrite (HandleAck_dispatch _ _ _ _ Hp). split.
    + intros Hd. repeat case_decide; try done.
      * exfalso. apply Hill. auto.
      * exfalso. apply Hill. auto.
      * exfalso. apply Hill. auto.
      * by destruct Hd.
    + intros Hd. by rewrite !decide_False by (intros ?; apply Hd; auto).
Qed.

(** C3, as amended.  For every SIMPLEX or DUPLEX envelope at phase
    SENDER_REQ that carries a body, [HandleNew] invokes [OnReceived] once
    and produces a reply envelope if and only if the listener returns a
    reply body that is not nil (a body without entries counts).  The reply
    is a new envelope derived from the request at phase RECEIVER_ACK with
    the listener's body, signed.  When the listener returns nil, no
    envelope is produced.  In both cases the listener's error is
    returned. *)
Theorem C3_reply_iff_body w msg m b l :
  heap w !! msg = Some m →
  MsgPayload.Category m = SIMPLEX ∨ MsgPayload.Category m = DUPLEX →
  MsgPayload.Phase m = SenderReq →
  MsgPayload.Body m = Some b →
  let c := CallOnReceived (request_variant m) in
  let answer := OnReceived l (request_variant m) (lstate w) in
  (answer.1.1 = None →
   HandleNew msg l w = (Ret (None, answer.1.2), after_call w answer.2 c)) ∧
  (∀ body, answer.1.1 = Some body →
     HandleNew msg l w
     = (Ret (Some (length (heap w)), answer.1.2),
        after_call_alloc w answer.2 c
          (derive_signed m ReceiverAck (clock w) body)) ∧
     MsgPayload.Phase (derive_signed m ReceiverAck (clock w) body) = ReceiverAck) ∧
  ((∃ p err, (HandleNew msg l w).1 = Ret (Some p, err)) ↔ answer.1.1 ≠ None).
Proof.
  intros Hp Hc Hph Hb. cbv zeta.
  rewrite (HandleNew_request _ _ _ _ Hp Hc Hph). unfold replied.
  destruct (OnReceived l (request_variant m) (lstate w)) as [[[body|] err] s];
    simpl; rewrite ?Hb.
  - split; [done|]. split.
    + intros ? [= <-]. done.
    + split; [done|]. intros _. by eexists _, _.
  - split; [done|]. split; [done|]. split; [|done].
    intros (p & e & Hr). discriminate Hr.
Qed.

(** C10, as amended.  When the envelope handled carries a body and the
    listener returns both a reply body and an error, [simplexNew],
    [duplexNew] and [duplexRecipientACK] return both: a pointer to the
    newly allocated reply envelope - derived from the envelope handled, at
    the next phase, with the listener's body, and signed over these
    fields ([Signature], run on it, returns its [Sign]) - and the
    listener's error. *)
Theorem C10_reply_and_error (r : Replying) w mpl m b l body err s :
  heap w !! mpl = Some m →
  reaches_listener r m →
  MsgPayload.Body m = Some b →
  listener_answer l r m (lstate w) = ((Some body, Some err), s) →
  let e := derive_signed m (reply_phase r) (clock w) body in
  replying_handler r mpl l w
  = (Ret (Some (length (heap w)), Some err),
     after_call_alloc w s (listener_call r m) e) ∧
  heap (after_call_alloc w s (listener_call r m) e) !! length (heap w) = Some e ∧
    MsgPayload.Body e = Some body ∧
  MsgPayload.Phase e = reply_phase r ∧
  (Signature (length (heap w)) (after_call_alloc w s (listener_call r m) e)).1
  = Ret (MsgPayload.Sign e).
Proof.
  intros Hp Hr Hb Ha. cbv zeta.
  rewrite (replying_handler_run r _ _ _ _ Hp Hr), Ha. unfold replied.
  rewrite Hb. split; [done|]. split.
  { simpl. by rewrite list_lookup_middle. }
  repeat (split; [done|]). unfold after_call_alloc. by rewrite Signature_last.
Qed.

End HandshakeClaims.

Section SignatureNotChecked.
Context `{!Digest} {LS : Type}.
Implicit Types (w : World LS) (m e : MsgPayload.t) (p msg mpl : loc)
  (l : MessageListener LS).

Ltac compare_runs Hlen Hclk Hls Hcs :=
  unfold replied, after_call, after_call_alloc, derive_signed, signature_with,
    signing_text, derive, notice_of, simplex_of, duplex_of, message_of; simpl;
  rewrite ?Hclk, ?Hls, ?Hcs;
  repeat match goal with
  | |- context [OnReceived ?l ?a ?s] =>
      destruct (OnReceived l a s) as [[[?|] ?] ?]
  | |- context [OnRecipientAckReceived ?l ?g ?i ?b ?s] =>
      destruct (OnRecipientAckReceived l g i b s) as [[[?|] ?] ?]
  | |- context [OnSenderAckReceived ?l ?g ?i ?b ?s] =>
      destruct (OnSenderAckReceived l g i b s) as [? ?]
  | |- context [match MsgPayload.Body ?m with _ => _ end] =>
      destruct (MsgPayload.Body m)
  end; simpl;
  rewrite ?drop_app_length, ?drop_all, ?Hlen;
  repeat split; try done; try (intros _; by eexists).

Ltac illegal :=
  repeat split; try done;
  rewrite ?drop_all; try done;
  let Hl := fresh in
  intros Hl; exfalso; simpl in Hl; consts; intuition congruence.

(** C1, as amended.  [HandleNew] and [HandleAck] never compare the
    carried signature with the recomputed one, and there is no
    signature-mismatch error: run on two worlds that differ at most in
    the [Sign] field of the inbound envelope (and in the other envelopes
    on the heap), they return the same pointer and error, make the same
    listener calls, leave the listener in the same state and allocate the
    same reply envelope.  In particular an envelope at a legal (category,
    phase) reaches its listener callback whatever signature it carries. *)
Theorem C1_signature_not_checked (ep : EntryPoint) w1 w2 msg m sign l :
  heap w1 !! msg = Some m →
  heap w2 !! msg = Some (MsgPayload.with_Sign sign m) →
  length (heap w1) = length (heap w2) →
  clock w1 = clock w2 → lstate w1 = lstate w2 → calls w1 = calls w2 →
  (dispatch ep msg l w1).1 = (dispatch ep msg l w2).1 ∧
  lstate (dispatch ep msg l w1).2 = lstate (dispatch ep msg l w2).2 ∧
  calls (dispatch ep msg l w1).2 = calls (dispatch ep msg l w2).2 ∧
  drop (length (heap w1)) (heap (dispatch ep msg l w1).2)
  = drop (length (heap w2)) (heap (dispatch ep msg l w2).2) ∧
  (legal (MsgPayload.Category m) (MsgPayload.Phase m) ep →
   ∃ c, calls (dispatch ep msg l w2).2 = calls w2 ++ [c]).
Proof.
  intros Hp1 Hp2 Hlen Hclk Hls Hcs.
  destruct ep; simpl dispatch.
  - rewrite (HandleNew_dispatch _ _ _ _ Hp1), (HandleNew_dispatch _ _ _ _ Hp2).
    simpl MsgPayload.Category.
    destruct (decide (MsgPayload.Phase m = SenderReq)) as [Hph|Hph];
      repeat case_decide.
    + rewrite (noticeNew_run _ _ _ _ Hp1), (noticeNew_run _ _ _ _ Hp2) by done.
      compare_runs Hlen Hclk Hls Hcs.
    + rewrite (simplexNew_run _ _ _ _ Hp1), (simplexNew_run _ _ _ _ Hp2) by done.
      compare_runs Hlen Hclk Hls Hcs.
    + rewrite (duplexNew_run _ _ _ _ Hp1), (duplexNew_run _ _ _ _ Hp2) by done.
      compare_runs Hlen Hclk Hls Hcs.
    + simpl. illegal.
    + rewrite (noticeNew_phase _ _ _ _ Hp1), (noticeNew_phase _ _ _ _ Hp2) by done.
      simpl. illegal.
    + rewrite (simplexNew_phase _ _ _ _ Hp1), (simplexNew_phase _ _ _ _ Hp2) by done.
      simpl. illegal.
    + rewrite (duplexNew_phase _ _ _ _ Hp1), (duplexNew_phase _ _ _ _ Hp2) by done.
      simpl. illegal.
    + simpl. illegal.
  - rewrite (HandleAck_dispatch _ _ _ _ Hp1), (HandleAck_dispatch _ _ _ _ Hp2).
    simpl MsgPayload.Category. simpl MsgPayload.Phase.
    repeat case_decide.
    + rewrite (simplexRecipientACK_run _ _ _ _ Hp1),
        (simplexRecipientACK_run _ _ _ _ Hp2) by done.
      compare_runs Hlen Hclk Hls Hcs.
    + simpl. illegal.
    + rewrite (duplexRecipientACK_run _ _ _ _ Hp1),
        (duplexRecipientACK_run _ _ _ _ Hp2) by done.
      compare_runs Hlen Hclk Hls Hcs.
    + rewrite (duplexSenderACK_run _ _ _ _ Hp1),
        (duplexSenderACK_run _ _ _ _ Hp2) by done.
      compare_runs Hlen Hclk Hls Hcs.
    + simpl. illegal.
    + simpl. illegal.
Qed.

End SignatureNotChecked.

Section ConcreteHandshake.
#[local] Existing Instance md5_digest.

Example signed_notice_verifies :
  signature_of signed_notice = Ret (MsgPayload.Sign signed_notice).
Proof. vm_compute. reflexivity. Qed.

(** After the body has been replaced the recomputed signature differs
    from the carried one. *)
Example tampered_notice_mismatch :
  signature_of tampered_notice = Ret "e0ede5bc5b69ffb4eb97eca5c14e6ffc"
  ∧ MsgPayload.Sign tampered_notice = "7a17434a1863920ffe62badf4bc686a5".
Proof. vm_compute. split; reflexivity. Qed.

(** The tampered notice is delivered: [HandleNew] returns no error and
    has called [OnReceived]. *)
Example tampered_notice_delivered :
  (HandleNew 0%nat (answering None None) (world_with tampered_notice)).1
  = Ret (None, None)
  ∧ calls (HandleNew 0%nat (answering None None) (world_with tampered_notice)).2
    = [CallOnReceived (Notice (notice_of tampered_notice))].
Proof. vm_compute. split; reflexivity. Qed.

(** The notice whose body was replaced after signing: the recomputed
    signature differs from the carried one, and [HandleNew] delivers the
    notice to [OnReceived] and returns no error. *)
Lemma C1_counterexample :
  signature_of tampered_notice ≠ Ret (MsgPayload.Sign tampered_notice)
  ∧ HandleNew 0%nat (answering None None) (world_with tampered_notice)
    = (Ret (None, None),
       MkWorld [tampered_notice] 1700000005 1%nat
         [CallOnReceived (Notice (notice_of tampered_notice))])
  ∧ ¬ C1_as_stated.
Proof.
  split; [vm_compute; discriminate|].
  split; [vm_compute; reflexivity|].
  intros Hclaim.
  destruct (Hclaim handleNew nat (answering None None)
              (world_with tampered_notice) 0%nat tampered_notice eq_refl)
    as (err & Hr & Hcalls).
  - vm_compute. discriminate.
  - vm_compute in Hr. discriminate Hr.
Qed.

Lemma C1_signature_not_checked_witness :
  (dispatch handleNew 0%nat (answering None None) (world_with signed_notice)).1
  = (dispatch handleNew 0%nat (answering None None)
       (world_with (MsgPayload.with_Sign "forged" signed_notice))).1.
Proof.
  refine (proj1 (C1_signature_not_checked handleNew
                   (world_with signed_notice)
                   (world_with (MsgPayload.with_Sign "forged" signed_notice))
                   0%nat signed_notice "forged" (answering None None)
                   eq_refl eq_refl eq_refl eq_refl eq_refl eq_refl)).
Defined.

(** A NOTICE envelope at RECEIVER_ACK handed to [HandleAck]: the error is
    the invalid-message-type error, not the invalid-phase error. *)
Lemma C2_counterexample :
  (HandleAck 0%nat (answering None None)
     (world_with (envelope NOTICE ReceiverAck (Some body_ab) ""))).1
  = Ret (None, Some (ErrInvalidCategory NOTICE))
  ∧ ¬ C2_as_stated.
Proof.
  split; [vm_compute; reflexivity|].
  intros Hclaim.
  destruct (Hclaim handleAck nat (answering None None)
              (world_with (envelope NOTICE ReceiverAck (Some body_ab) ""))
              0%nat (envelope NOTICE ReceiverAck (Some body_ab) "") eq_refl)
    as (phase & Hr).
  - simpl. consts. intuition congruence.
  - vm_compute in Hr. discriminate Hr.
Qed.

Lemma C2_illegal_triples_fail_witness :
  dispatch handleAck 0%nat (answering (Some body_ok) None)
    (world_with (envelope SIMPLEX SenderAck (Some body_ab) ""))
  = (Ret (None, Some (ErrInvalidPhase SenderAck)),
     world_with (envelope SIMPLEX SenderAck (Some body_ab) ""))
  ∧ dispatch handleAck 0%nat (answering (Some body_ok) None)
      (world_with (envelope NOTICE SenderAck (Some body_ab) ""))
    = (Ret (None, Some (ErrInvalidCategory NOTICE)),
       world_with (envelope NOTICE SenderAck (Some body_ab) "")).
Proof.
  split.
  - refine (proj1 (C2_illegal_triples_fail handleAck
                     (world_with (envelope SIMPLEX SenderAck (Some body_ab) ""))
                     0%nat (envelope SIMPLEX SenderAck (Some body_ab) "")
                     (answering (Some body_ok) None) eq_refl _) _).
    + simpl. consts. intuition congruence.
    + simpl. left. reflexivity.
  - refine (proj2 (C2_illegal_triples_fail handleAck
                     (world_with (envelope NOTICE SenderAck (Some body_ab) ""))
                     0%nat (envelope NOTICE SenderAck (Some body_ab) "")
                     (answering (Some body_ok) None) eq_refl _) _).
    + simpl. consts. intuition congruence.
    + simpl. consts. intuition congruence.
Defined.

(** Two inputs.  A request without a body, answered with a body of one
    entry: [HandleNew] panics and produces no reply.  A request with a
    body, answered with a body that has no entry: [HandleNew] produces a
    reply. *)
Lemma C3_counterexample :
  (HandleNew 0%nat (answering (Some body_ok) None)
     (world_with (envelope SIMPLEX SenderReq None ""))).1 = Panic
  ∧ (HandleNew 0%nat (answering (Some MsgBody.NewMessageBody) None)
       (world_with (envelope SIMPLEX SenderReq (Some body_ab) ""))).1
    = Ret (Some 1%nat, None)
  ∧ ¬ C3_if_as_stated ∧ ¬ C3_only_if_as_stated.
Proof.
  split; [vm_compute; reflexivity|].
  split; [vm_compute; reflexivity|].
  split; intros Hclaim.
  - destruct (Hclaim nat (answering (Some body_ok) None)
                (world_with (envelope SIMPLEX SenderReq None ""))
                0%nat (envelope SIMPLEX SenderReq None "") eq_refl
                (or_introl eq_refl) eq_refl)
      as (p & err & Hr).
    + exists body_ok. split; [reflexivity|].
      intros Hempty. apply (f_equal (lookup "ok")) in Hempty.
      vm_compute in Hempty. discriminate Hempty.
    + vm_compute in Hr. discriminate Hr.
  - destruct (Hclaim nat (answering (Some MsgBody.NewMessageBody) None)
                (world_with (envelope SIMPLEX SenderReq (Some body_ab) ""))
                0%nat (envelope SIMPLEX SenderReq (Some body_ab) "") eq_refl
                (or_introl eq_refl) eq_refl)
      as (b & Hb & Hne).
    + exists 1%nat, None. vm_compute. reflexivity.
    + apply Hne. injection Hb as <-. reflexivity.
Qed.

Lemma C3_reply_iff_body_witness :
  (HandleNew 0%nat (answering (Some body_ok) (Some (ErrApplication "later")))
     (world_with (envelope DUPLEX SenderReq (Some body_ab) ""))).1
  = Ret (Some 1%nat, Some (ErrApplication "later")).
Proof.
  destruct (C3_reply_iff_body
              (world_with (envelope DUPLEX SenderReq (Some body_ab) ""))
              0%nat (envelope DUPLEX SenderReq (Some body_ab) "") body_ab
              (answering (Some body_ok) (Some (ErrApplication "later")))
              eq_refl (or_intror eq_refl) eq_refl eq_refl)
    as (_ & Hsome & _).
  destruct (Hsome body_ok eq_refl) as [Hrun _].
  rewrite Hrun. reflexivity.
Defined.

Lemma C7_notice_is_terminal_witness :
  (HandleNew 0%nat (answering (Some body_ok) (Some (ErrApplication "later")))
     (world_with (envelope NOTICE SenderReq (Some body_ab) ""))).1
  = Ret (None, Some (ErrApplication "later")).
Proof.
  rewrite (C7_notice_is_terminal
             (world_with (envelope NOTICE SenderReq (Some body_ab) ""))
             0%nat (envelope NOTICE SenderReq (Some body_ab) "")
             (answering (Some body_ok) (Some (ErrApplication "later")))
             eq_refl eq_refl eq_refl).
  reflexivity.
Defined.

(** An envelope without a body, the listener answering with a body and
    an error: each of the three handlers panics, and returns neither. *)
Lemma C10_counterexample :
  (simplexNew 0%nat (answering (Some body_ok) (Some (ErrApplication "later")))
     (world_with (envelope SIMPLEX SenderReq None ""))).1 = Panic
  ∧ ¬ C10_as_stated bySimplexNew ∧ ¬ C10_as_stated byDuplexNew
  ∧ ¬ C10_as_stated byDuplexRecipientACK.
Proof.
  split; [vm_compute; reflexivity|].
  split; [|split]; intros Hclaim.
  - destruct (Hclaim nat (answering (Some body_ok) (Some (ErrApplication "later")))
                (world_with (envelope SIMPLEX SenderReq None ""))
                0%nat (envelope SIMPLEX SenderReq None "") body_ok
                (ErrApplication "later") eq_refl (conj eq_refl eq_refl) eq_refl)
      as (p & Hr).
    vm_compute in Hr. discriminate Hr.
  - destruct (Hclaim nat (answering (Some body_ok) (Some (ErrApplication "later")))
                (world_with (envelope DUPLEX SenderReq None ""))
                0%nat (envelope DUPLEX SenderReq None "") body_ok
                (ErrApplication "later") eq_refl (conj eq_refl eq_refl) eq_refl)
      as (p & Hr).
    vm_compute in Hr. discriminate Hr.
  - destruct (Hclaim nat (answering (Some body_ok) (Some (ErrApplication "later")))
                (world_with (envelope DUPLEX ReceiverAck None ""))
                0%nat (envelope DUPLEX ReceiverAck None "") body_ok
                (ErrApplication "later") eq_refl eq_refl eq_refl)
      as (p & Hr).
    vm_compute in Hr. discriminate Hr.
Qed.

Lemma C10_reply_and_error_witness :
  (replying_handler byDuplexRecipientACK 0%nat
     (answering (Some body_ok) (Some (ErrApplication "later")))
     (world_with (envelope DUPLEX ReceiverAck (Some body_ab) ""))).1
  = Ret (Some 1%nat, Some (ErrApplication "later")).
Proof.
  destruct (C10_reply_and_error byDuplexRecipientACK
              (world_with (envelope DUPLEX ReceiverAck (Some body_ab) ""))
              0%nat (envelope DUPLEX ReceiverAck (Some body_ab) "") body_ab
              (answering (Some body_ok) (Some (ErrApplication "later")))
              body_ok (ErrApplication "later") 1%nat
              eq_refl eq_refl eq_refl eq_refl)
    as (Hrun & _).
  rewrite Hrun. reflexivity.
Defined.

End ConcreteHandshake.

(* ===================================================================== *)
(** * The handshake scenarios, run on the model *)
(* ===================================================================== *)

Section Scenarios.
#[local] Existing Instance md5_digest.

(** SIMPLEX round trip: the request yields a reply at RECEIVER_ACK, bound
    for the sender's ack queue; the reply, handed to [HandleAck], reaches
    [OnRecipientAckReceived] and yields nothing more. *)
Example simplex_round_trip :
  let l := answering (Some body_ok) None in
  let r1 := HandleNew 0%nat l (world_with (envelope SIMPLEX SenderReq (Some body_ab) "")) in
  let r2 := HandleAck 1%nat l r1.2 in
  r1.1 = Ret (Some 1%nat, None)
  ∧ MsgPayload.Phase <$> heap r1.2 !! 1%nat = Some ReceiverAck
  ∧ MsgPayload.MsgId <$> heap r1.2 !! 1%nat = Some "42"
  ∧ MsgPayload.SendQueueName <$> heap r1.2 !! 1%nat = Some ("sys_amq_0001_biz", None)
  ∧ r2.1 = Ret (None, None)
  ∧ calls r2.2
    = [CallOnReceived (Simplex (simplex_of (envelope SIMPLEX SenderReq (Some body_ab) "")));
       CallOnRecipientAckReceived "order" "42" (Some body_ok)]
  ∧ length (heap r2.2) = 2%nat.
Proof. vm_compute. repeat split; reflexivity. Qed.

(** DUPLEX full cycle: SENDER_REQ, RECEIVER_ACK, SENDER_ACK; one callback
    per step, a reply envelope after each of the first two. *)
Example duplex_full_cycle :
  let l := answering (Some body_ok) None in
  let r1 := HandleNew 0%nat l (world_with (envelope DUPLEX SenderReq (Some body_ab) "")) in
  let r2 := HandleAck 1%nat l r1.2 in
  let r3 := HandleAck 2%nat l r2.2 in
  r1.1 = Ret (Some 1%nat, None)
  ∧ r2.1 = Ret (Some 2%nat, None)
  ∧ r3.1 = Ret (None, None)
  ∧ MsgPayload.Phase <$> heap r3.2 = [SenderReq; ReceiverAck; SenderAck]
  ∧ (MsgPayload.SendQueueName <$> heap r3.2).*1
    = ["sys_amq_0002_biz"; "sys_amq_0001_biz"; "sys_amq_0002_fund"]
  ∧ length (calls r3.2) = 3%nat
  ∧ lstate r3.2 = 3%nat.
Proof. vm_compute. repeat split; reflexivity. Qed.

(** The outbound constructors sign as [NewPayload] does: a message whose
    body was never set cannot be wrapped. *)
Example NoticePayload_without_body :
  (NoticePayload (NewNoticeMessage "1") (world_with signed_notice)).1 = Panic
  ∧ (NoticePayload
       {| NoticeMessage.Message := message_of signed_notice;
          NoticeMessage.Destination := "sys_amq_0002_biz" |}
       (MkWorld [] 1700000000 0%nat [])).1 = Ret 0%nat.
Proof. vm_compute. split; reflexivity. Qed.

End Scenarios.

(* ===================================================================== *)
(** * Claim on the outbound check: C9 *)
(* ===================================================================== *)

Section SendFacts.
Context {PS : Type}.
Implicit Types (c : Client PS) (w : ClientWorld PS) (msg : AnyMessage)
  (name : string) (names : list string).

Lemma check_names_pass c names w :
  Forall (passes c) names →
  ∃ lines, check_names c names w
           = (Ret None, MkClientWorld (pstate w) (sent w) (logs w ++ lines)).
Proof.
  intros Hall. revert w. induction Hall as [|name names Hn _ IH]; intros w.
  - exists []. destruct w. simpl. by rewrite app_nil_r.
  - cbn [check_names]. rewrite decide_False.
    2:{ unfold passes in Hn. by destruct (regexp.FindStringSubmatch _ name). }
    unfold_M. case_decide.
    + unfold log. destruct (IH (MkClientWorld (pstate w) (sent w)
                                  (logs w ++ [LogNodeError
                                     (nth 2 (regexp.FindStringSubmatch
                                               (queueNamePattern c) name) "")])))
        as [lines ->].
      simpl. eexists (_ :: lines). by rewrite <- app_assoc.
    + by destruct (IH w) as [lines ->]; exists lines.
Qed.

Lemma check_names_fail c good bad rest w :
  Forall (passes c) good → ¬ passes c bad →
  ∃ lines, check_names c (good ++ bad :: rest) w
           = (Ret (Some (ErrQueueName bad)),
              MkClientWorld (pstate w) (sent w) (logs w ++ lines)).
Proof.
  intros Hall Hbad. revert w. induction Hall as [|name names Hn _ IH]; intros w.
  - exists []. cbn [app check_names]. rewrite decide_True.
    + destruct w. simpl. by rewrite app_nil_r.
    + unfold passes in Hbad.
      destruct (regexp.FindStringSubmatch _ bad); [done|]. by destruct Hbad.
  - cbn [app check_names]. rewrite decide_False.
    2:{ unfold passes in Hn. by destruct (regexp.FindStringSubmatch _ name). }
    unfold_M. case_decide.
    + unfold log. destruct (IH (MkClientWorld (pstate w) (sent w)
                                  (logs w ++ [LogNodeError
                                     (nth 2 (regexp.FindStringSubmatch
                                               (queueNamePattern c) name) "")])))
        as [lines ->].
      simpl. eexists (_ :: lines). by rewrite <- app_assoc.
    + by destruct (IH w) as [lines ->]; exists lines.
Qed.

(** A name that fails the pattern: [Send] returns the queue-name error
    for the first such name and hands nothing to the transport. *)
Lemma Send_rejects_bad_name c msg good bad rest w :
  nameList_of msg = good ++ bad :: rest →
  Forall (passes c) good → ¬ passes c bad →
  (Send c msg w).1 = Ret (Some (ErrQueueName bad))
  ∧ sent (Send c msg w).2 = sent w
  ∧ pstate (Send c msg w).2 = pstate w.
Proof.
  intros Hnames Hgood Hbad. unfold Send, messageCheck. rewrite Hnames.
  unfold_M. destruct (check_names_fail c good bad rest w Hgood Hbad) as [lines ->].
  by rewrite decide_True.
Qed.

(** Every name passes the pattern: the message is handed to the
    transport and [Send] returns what the transport returns, whether or
    not the node segments name known nodes. *)
Lemma Send_hands_over c msg w :
  Forall (passes c) (nameList_of msg) →
  (Send c msg w).1 = Ret (provider_Send (provider c) msg (pstate w)).1
  ∧ sent (Send c msg w).2 = sent w ++ [msg]
  ∧ pstate (Send c msg w).2 = (provider_Send (provider c) msg (pstate w)).2.
Proof.
  intros Hall. unfold Send, messageCheck. unfold_M.
  destruct (check_names_pass c _ w Hall) as [lines ->].
  rewrite decide_False by (by intros ?).
  unfold call_provider_Send. simpl.
  destruct (provider_Send (provider c) msg (pstate w)) as [err s].
  by destruct err.
Qed.

End SendFacts.

(** C9.  The code at the failing input.  The destination
    sys_amq_0001_unknownnode matches the naming pattern, and its node segment
    names no known node; [Send] only logs the node error: it returns no
    error and the notice is handed to the transport. *)
Theorem C9_unknown_node_is_sent :
  regexp.FindStringSubmatch pattern_single "sys_amq_0001_unknownnode"
  = ["sys_amq_0001_unknownnode"; "sys_amq_0001"; "unknownnode"]
  ∧ Node.HasNode "unknownnode" = false
  ∧ Send (newClient 1 accepting) (notice_to "sys_amq_0001_unknownnode")
      (MkClientWorld tt [] [])
    = (Ret None,
       MkClientWorld tt [notice_to "sys_amq_0001_unknownnode"]
         [LogNodeError "unknownnode";
          LogSendSuccess (notice_to "sys_amq_0001_unknownnode")]).
Proof. vm_compute. repeat split; reflexivity. Qed.

(** The part of the check that works: a name that fails the pattern. *)
Example Send_bad_pattern :
  Send (newClient 1 accepting) (notice_to "sys_amq_001_biz") (MkClientWorld tt [] [])
  = (Ret (Some (ErrQueueName "sys_amq_001_biz")), MkClientWorld tt [] []).
Proof. vm_compute. reflexivity. Qed.

(** The queue names of the specification's scenarios. *)
Example queue_name_patterns :
  regexp.FindStringSubmatch pattern_single "sys_amq_0001_biz"
  = ["sys_amq_0001_biz"; "sys_amq_0001"; "biz"]
  ∧ regexp.FindStringSubmatch pattern_partitioned "sys_amq_0001_biz_p2"
    = ["sys_amq_0001_biz_p2"; "sys_amq_0001"; "biz"]
  ∧ regexp.FindStringSubmatch pattern_partitioned "sys_amq_0001_biz" = []
  ∧ Node.HasNode "biz" = true.
Proof. vm_compute. repeat split; reflexivity. Qed.

(* ===================================================================== *)
(** * The digest and the decimal printer on known values *)
(* ===================================================================== *)

Example md5_empty : RFC1321.md5_hex "" = "d41d8cd98f00b204e9800998ecf8427e".
Proof. vm_compute. reflexivity. Qed.

Example md5_abc : RFC1321.md5_hex "abc" = "900150983cd24fb0d6963f7d28e17f72".
Proof. vm_compute. reflexivity. Qed.

Example md5_two_blocks :
  RFC1321.md5_hex
    "aaaaaaaaaaaaaaaaaaaaaaaaaaaaaaaaaaaaaaaaaaaaaaaaaaaaaaaaaaaaaaaaaaaaaa"
  = "0f5c6c4e740bfcc08c3c26ccb2673d46".
Proof. vm_compute. reflexivity. Qed.

Example ToStr_examples :
  ToStr 0 = "0" ∧ ToStr 1700000000 = "1700000000" ∧ ToStr (-42) = "-42".
Proof. vm_compute. auto. Qed.

(* ===================================================================== *)
(** * Further properties: package node *)
(* ===================================================================== *)

Lemma IsValid_values (n : Node.t) :
  Node.IsValid n = None ↔ n = Node.BIZ ∨ n = Node.FUND ∨ n = Node.OPT.
Proof. unfold Node.IsValid. case_decide; naive_solver. Qed.

(** X1.  Node names round trip.  A valid node is found again from its
    name; a string that names a node is the name of the node found for it;
    the strings that name a node are exactly the names of the three nodes of
    [Values]; and every invalid node prints as a name that names no node. *)
Theorem X1_node_names_round_trip :
  (∀ n, Node.IsValid n = None → Node.GetNode (Node.String n) = n) ∧
  (∀ s, Node.HasNode s = true → Node.String (Node.GetNode s) = s) ∧
  (∀ s, Node.HasNode s = true ↔ ∃ n, n ∈ Node.Values ∧ Node.String n = s) ∧
  (∀ n, Node.IsValid n ≠ None →
     Node.String n = "Unknown" ∧ Node.HasNode (Node.String n) = false).
Proof.
    assert (∀ s, Node.HasNode s = true ↔ s = "biz" ∨ s = "fund" ∨ s = "opt") as Hhas.
  { intros s. unfold Node.HasNode, Node.GetNode.
    change (Node.String Node.BIZ) with "biz".
    change (Node.String Node.FUND) with "fund".
    change (Node.String Node.OPT) with "opt".
    destruct (decide (s = "biz")) as [->|?]; [by split; auto|].
    destruct (decide (s = "fund")) as [->|?]; [by split; auto|].
    destruct (decide (s = "opt")) as [->|?]; [by split; auto|].
    split; [done|]. by intros [?|[?|?]]. }
  split; [|split; [|split]].
  - intros n Hn. apply IsValid_values in Hn. by destruct Hn as [->|[->| ->]].
  - intros s Hs. apply Hhas in Hs. by destruct Hs as [->|[->| ->]].
  - intros s. rewrite Hhas. unfold Node.Values. split.
    + intros [->|[->| ->]]; [exists Node.BIZ|exists Node.FUND|exists Node.OPT];
        (split; [|done]); repeat constructor.
    + intros (n & Hn & <-).
      repeat (apply elem_of_cons in Hn as [->|Hn]; [by auto|]).
      by apply elem_of_nil in Hn.
  - intros n Hn.
    assert (n < Node.BIZ ∨ n > Node.OPT) as Hout.
    { rewrite IsValid_values in Hn. unfold Node.BIZ, Node.FUND, Node.OPT in *. lia. }
    assert (Node.String n = "Unknown") as ->.
    { unfold Node.String. by rewrite decide_True. }
    done.
Qed.

Lemma X1_node_names_round_trip_witness :
  Node.GetNode (Node.String Node.FUND) = Node.FUND
  ∧ Node.String (Node.GetNode "opt") = "opt"
  ∧ Node.String 7 = "Unknown".
Proof.
  split; [|split].
  - apply (proj1 X1_node_names_round_trip Node.FUND). reflexivity.
  - apply (proj1 (proj2 X1_node_names_round_trip) "opt"). reflexivity.
  - apply (proj2 (proj2 (proj2 X1_node_names_round_trip)) 7). vm_compute. discriminate.
Defined.

(* ===================================================================== *)
(** * Further properties: MsgBody *)
(* ===================================================================== *)

Lemma Get_Add (mb : MsgBody.t) (k k' v : string) :
  MsgBody.Get k' (MsgBody.Add k v mb)
  = if decide (k' = k) then v else MsgBody.Get k' mb.
Proof.
  unfold MsgBody.Get. rewrite Add_Body. case_decide as Hk.
  - subst. by rewrite lookup_insert_eq.
  - by rewrite lookup_insert_ne.
Qed.

Lemma HasKey_Add (mb : MsgBody.t) (k k' v : string) :
  MsgBody.HasKey k' (MsgBody.Add k v mb)
  = if decide (k' = k) then true else MsgBody.HasKey k' mb.
Proof.
  unfold MsgBody.HasKey. rewrite Add_Body. case_decide as Hk.
  - subst. by rewrite lookup_insert_eq.
  - by rewrite lookup_insert_ne.
Qed.

Lemma MsgBody_eq (mb1 mb2 : MsgBody.t) :
  MsgBody.Body mb1 = MsgBody.Body mb2 → mb1 = mb2.
Proof. destruct mb1, mb2. simpl. by intros ->. Qed.

(** X2.  [Add], [Get] and [HasKey].  After [Add k v] the body has the key
    [k] and [Get k] returns [v]; every other key keeps its value and its
    presence, also when the body was empty before; a second [Add] on [k]
    replaces the value; the number of entries grows by one exactly when the
    key was absent; and [Get] on an absent key returns the empty string. *)
Theorem X2_Add_Get_HasKey (mb : MsgBody.t) (k v : string) :
  MsgBody.Get k (MsgBody.Add k v mb) = v ∧
  MsgBody.HasKey k (MsgBody.Add k v mb) = true ∧
  (∀ k', k' ≠ k →
     MsgBody.Get k' (MsgBody.Add k v mb) = MsgBody.Get k' mb ∧
     MsgBody.HasKey k' (MsgBody.Add k v mb) = MsgBody.HasKey k' mb) ∧
  (∀ v', MsgBody.Add k v' (MsgBody.Add k v mb) = MsgBody.Add k v' mb) ∧
  size (MsgBody.Body (MsgBody.Add k v mb))
  = (if MsgBody.HasKey k mb then size (MsgBody.Body mb)
     else S (size (MsgBody.Body mb))) ∧
  (MsgBody.HasKey k mb = false → MsgBody.Get k mb = "").
Proof.
  split; [|split; [|split; [|split; [|split]]]].
  - rewrite Get_Add. by rewrite decide_True.
  - rewrite HasKey_Add. by rewrite decide_True.
  - intros k' Hk. rewrite Get_Add, HasKey_Add. by rewrite !decide_False.
  - intros v'. apply MsgBody_eq. rewrite !Add_Body. apply insert_insert_eq.
  - rewrite Add_Body. unfold MsgBody.HasKey.
    destruct (MsgBody.Body mb !! k) as [x|] eqn:Hk.
        + by rewrite map_size_insert_Some.
    + by rewrite map_size_insert_None.
  - unfold MsgBody.HasKey, MsgBody.Get.
    by destruct (MsgBody.Body mb !! k).
Qed.

Lemma X2_Add_Get_HasKey_witness :
  MsgBody.Get "a" (MsgBody.Add "ok" "1" body_ab) = MsgBody.Get "a" body_ab
  ∧ MsgBody.Get "zz" body_ab = "".
Proof.
  split.
    - apply (proj1 (proj2 (proj2 (X2_Add_Get_HasKey body_ab "ok" "1"))) "a").
    discriminate.
  - apply (proj2 (proj2 (proj2 (proj2 (proj2 (X2_Add_Get_HasKey body_ab "zz" "")))))).
    vm_compute. reflexivity.
Defined.

(** ** The serialised form, read back *)

Lemma ToString_unfold (mb : MsgBody.t) :
  MsgBody.ToString mb
  = if decide (MsgBody.Body mb = ∅) then ""
    else "{" +:+ String.concat ","
                   (entry mb <$> sort_Strings (map_to_list (MsgBody.Body mb)).*1)
         +:+ "}".
Proof. unfold MsgBody.ToString. apply ToString_range_unfold. Qed.

(** The serialised form over any sorted list of the keys. *)
Lemma ToString_sorted (mb : MsgBody.t) (keys : list string) :
  keys ≡ₚ (map_to_list (MsgBody.Body mb)).*1 → Sorted String.le keys →
  MsgBody.Body mb ≠ ∅ →
  MsgBody.ToString mb = "{" +:+ String.concat "," (entry mb <$> keys) +:+ "}".
Proof.
  intros Hp Hs Hne. rewrite ToString_unfold, decide_False by done.
  assert (sort_Strings (map_to_list (MsgBody.Body mb)).*1 = keys) as ->; [|done].
  apply (Sorted_unique String.le); [apply sort_Strings_Sorted|done|].
  by rewrite sort_Strings_Permutation.
Qed.

Lemma fields_from_app (t cur s : string) :
  no_dq t = true → fields_from cur (t +:+ s) = fields_from (cur +:+ t) s.
Proof.
  revert cur. induction t as [|a t IH]; intros cur Ht.
  - by rewrite append_empty_r.
  - cbn [no_dq] in Ht. apply andb_prop in Ht as [Ha Ht].
    change (String a t +:+ s) with (String a (t +:+ s)).
    cbn [fields_from]. apply negb_true_iff in Ha. rewrite Ha.
    rewrite IH by done. by rewrite <- append_assoc.
Qed.

Lemma fields_from_dq (cur s : string) :
  fields_from cur (dq +:+ s) = cur :: fields_from "" s.
Proof. reflexivity. Qed.

Lemma fields_from_entry (mb : MsgBody.t) (k cur rest : string) :
  no_dq k = true → no_dq (MsgBody.Get k mb) = true →
  fields_from cur (entry mb k +:+ rest)
  = cur :: k :: ":" :: MsgBody.Get k mb :: fields_from "" rest.
Proof.
  intros Hk Hv. unfold entry. rewrite <- !append_assoc.
  rewrite fields_from_dq, (fields_from_app k) by done.
  rewrite fields_from_dq, (fields_from_app ":") by done.
  rewrite fields_from_dq, (fields_from_app (MsgBody.Get k mb)) by done.
  by rewrite fields_from_dq.
Qed.

(** The pieces after the first pair: a separator, then the other pairs. *)
Lemma fields_from_rest (mb : MsgBody.t) (keys : list string) :
  (∀ k, k ∈ keys → no_dq k = true ∧ no_dq (MsgBody.Get k mb) = true) →
  ∃ sep rest,
    fields_from "" (String.concat "" ((λ k, "," +:+ entry mb k) <$> keys) +:+ "}")
    = sep :: rest
    ∧ pairs_of rest = (λ k, (k, MsgBody.Get k mb)) <$> keys.
Proof.
  induction keys as [|k keys IH]; intros Hq.
  - by exists "}", [].
  - destruct IH as (sep & rest & Hf & Hpairs).
    { intros k' Hk'. apply Hq. by right. }
    destruct (Hq k) as [Hk Hv]; [by left|].
    rewrite fmap_cons, concat_empty_cons, <- !append_assoc.
    rewrite (fields_from_app ",") by done.
    rewrite fields_from_entry, Hf by done.
    eexists _, _. split; [done|]. cbn [pairs_of]. by rewrite Hpairs.
Qed.

(** Decoding: the pairs read back from the serialised form of a
    quote-free, non-empty body are its entries, in the order of the keys. *)
Lemma pairs_of_ToString (mb : MsgBody.t) :
  quote_free mb → MsgBody.Body mb ≠ ∅ →
  pairs_of (tail (fields_from "" (MsgBody.ToString mb)))
  = (λ k, (k, MsgBody.Get k mb))
      <$> sort_Strings (map_to_list (MsgBody.Body mb)).*1.
Proof.
  intros Hq Hne. rewrite ToString_unfold, decide_False by done.
  assert (∀ k, k ∈ sort_Strings (map_to_list (MsgBody.Body mb)).*1 →
               no_dq k = true ∧ no_dq (MsgBody.Get k mb) = true) as Hkeys.
  { intros k. rewrite sort_Strings_Permutation, list_elem_of_fmap.
    intros ([k' v] & -> & Hin). apply elem_of_map_to_list in Hin.
    unfold MsgBody.Get. simpl. rewrite Hin. by apply (Hq k' v). }
  destruct (sort_Strings (map_to_list (MsgBody.Body mb)).*1) as [|k keys] eqn:Hsort.
  { exfalso. apply Hne. apply map_to_list_empty_iff.
    apply fmap_nil_inv with (f := fst). apply Permutation_nil_r.
    by rewrite <- sort_Strings_Permutation, Hsort. }
  rewrite <- concat_comma, <- !append_assoc.
  destruct (fields_from_rest mb keys) as (sep & rest & Hf & Hpairs).
  { intros k' Hk'. apply Hkeys. by right. }
  destruct (Hkeys k) as [Hk Hv]; [by left|].
  rewrite (fields_from_app "{") by done.
  rewrite fields_from_entry, Hf by done.
  cbn [tail pairs_of fmap list_fmap]. by rewrite Hpairs.
Qed.

(** The entries of a body, from its keys in any order. *)
Lemma entries_of_keys (mb : MsgBody.t) (keys : list string) :
  keys ≡ₚ (map_to_list (MsgBody.Body mb)).*1 →
  MsgBody.Body mb = list_to_map ((λ k, (k, MsgBody.Get k mb)) <$> keys).
Proof.
  intros Hp.
  assert ((λ k, (k, MsgBody.Get k mb)) <$> (map_to_list (MsgBody.Body mb)).*1
          = map_to_list (MsgBody.Body mb)) as Hall.
  { rewrite <- list_fmap_compose. rewrite <- (list_fmap_id (map_to_list _)) at 2.
    apply list_fmap_ext. intros i [k v] Hin. simpl.
    apply list_elem_of_lookup_2, elem_of_map_to_list in Hin.
    unfold MsgBody.Get. by rewrite Hin. }
  rewrite <- (list_to_map_to_list (MsgBody.Body mb)) at 1.
  rewrite <- Hall. apply list_to_map_proper.
  - rewrite <- list_fmap_compose. simpl.
    assert ((fst ∘ (λ k, (k, MsgBody.Get k mb))) <$> (map_to_list (MsgBody.Body mb)).*1
            = (map_to_list (MsgBody.Body mb)).*1) as ->.
    { rewrite <- (list_fmap_id ((map_to_list _).*1)) at 2. by apply list_fmap_ext. }
    apply NoDup_fst_map_to_list.
  - by rewrite Hp.
Qed.

(** X3.  On bodies whose keys and values hold no double quote the
    canonical serialisation is injective: two such bodies with the same
    [ToString] have the same entries. *)
Theorem X3_ToString_injective_without_quotes (mb1 mb2 : MsgBody.t) :
  quote_free mb1 → quote_free mb2 →
  MsgBody.ToString mb1 = MsgBody.ToString mb2 → mb1 = mb2.
Proof.
  intros Hq1 Hq2 Heq. apply MsgBody_eq.
  destruct (decide (MsgBody.Body mb1 = ∅)) as [H1|H1],
           (decide (MsgBody.Body mb2 = ∅)) as [H2|H2].
  - by rewrite H1, H2.
  - rewrite !ToString_unfold, decide_True, decide_False in Heq by done.
    discriminate Heq.
  - rewrite !ToString_unfold, decide_False, decide_True in Heq by done.
    discriminate Heq.
  - pose proof (pairs_of_ToString mb1 Hq1 H1) as Hp1.
    pose proof (pairs_of_ToString mb2 Hq2 H2) as Hp2.
    rewrite Heq, Hp2 in Hp1.
    rewrite (entries_of_keys mb1 (sort_Strings (map_to_list (MsgBody.Body mb1)).*1))
      by apply sort_Strings_Permutation.
    rewrite (entries_of_keys mb2 (sort_Strings (map_to_list (MsgBody.Body mb2)).*1))
      by apply sort_Strings_Permutation.
    by rewrite Hp1.
Qed.

Lemma quote_free_add_all (entries : list (string * string)) :
  Forall (λ kv, no_dq kv.1 = true ∧ no_dq kv.2 = true) entries →
  quote_free (add_all entries).
Proof.
  intros Hall k v. rewrite add_all_Body. intros Hk.
  apply elem_of_list_to_map_2 in Hk. rewrite elem_of_reverse in Hk.
  rewrite Forall_forall in Hall. apply (Hall (k, v) Hk).
Qed.

Lemma X3_ToString_injective_without_quotes_witness :
  add_all [("b", "2"); ("a", "1")] = add_all [("a", "1"); ("b", "2")].
Proof.
  apply X3_ToString_injective_without_quotes.
  - apply quote_free_add_all. repeat constructor.
  - apply quote_free_add_all. repeat constructor.
  - vm_compute. reflexivity.
Defined.

Lemma ToString_one (k v : string) :
  MsgBody.ToString (add_all [(k, v)]) = "{" +:+ dq +:+ k +:+ dq +:+ ":" +:+ dq +:+ v +:+ dq +:+ "}".
Proof.
  rewrite (ToString_sorted _ [k]).
  - cbn [fmap list_fmap String.concat]. unfold entry, MsgBody.Get.
    rewrite add_all_Body. cbn [reverse rev_append list_to_map foldr uncurry fst snd].
    rewrite lookup_insert_eq. by rewrite <- !append_assoc.
  - rewrite add_all_Body. cbn [reverse rev_append list_to_map foldr uncurry fst snd].
    by rewrite insert_empty, map_to_list_singleton.
  - repeat constructor.
  - rewrite add_all_Body. cbn [reverse rev_append list_to_map foldr uncurry fst snd].
    apply insert_non_empty.
Qed.

Lemma ToString_two (k1 v1 k2 v2 : string) :
  String.le k1 k2 → k1 ≠ k2 →
  MsgBody.ToString (add_all [(k1, v1); (k2, v2)])
  = "{" +:+ dq +:+ k1 +:+ dq +:+ ":" +:+ dq +:+ v1 +:+ dq +:+ ","
    +:+ dq +:+ k2 +:+ dq +:+ ":" +:+ dq +:+ v2 +:+ dq +:+ "}".
Proof.
  intros Hle Hne.
  assert (MsgBody.Body (add_all [(k1, v1); (k2, v2)]) = <[k2 := v2]> {[k1 := v1]})
    as HB by (by rewrite add_all_Body).
  rewrite (ToString_sorted _ [k1; k2]).
  - cbn [fmap list_fmap String.concat]. unfold entry, MsgBody.Get. rewrite HB.
    rewrite lookup_insert_eq, lookup_insert_ne, lookup_singleton_eq by done.
    by rewrite <- !append_assoc.
  - rewrite HB, map_to_list_insert by (by rewrite lookup_singleton_ne).
    rewrite map_to_list_singleton. simpl. apply perm_swap.
  - repeat constructor. done.
  - rewrite HB. apply insert_non_empty.
Qed.

Section Collision.
Context `{Digest} {LS : Type}.

(** X4.  [ToString] escapes nothing, so bodies with different entries can
    serialise alike, and envelopes that differ only in such bodies get the
    same signature: a body with the two entries [k1:v1] and [k2:v2] and
    the body with the one entry under [k1] whose value spells out the
    rest. *)
Theorem X4_unescaped_bodies_collide (k1 k2 v1 v2 : string) (m : MsgPayload.t)
    (w : World LS) (p1 p2 : loc) :
  let b1 := add_all [(k1, v1); (k2, v2)] in
  let b2 := add_all [(k1, v1 +:+ dq +:+ "," +:+ dq +:+ k2 +:+ dq +:+ ":" +:+ dq +:+ v2)] in
  String.le k1 k2 → k1 ≠ k2 →
  heap w !! p1 = Some (MsgPayload.with_Body (Some b1) m) →
  heap w !! p2 = Some (MsgPayload.with_Body (Some b2) m) →
  MsgBody.HasKey k2 b1 = true ∧ MsgBody.HasKey k2 b2 = false ∧
  MsgBody.ToString b1 = MsgBody.ToString b2 ∧
  (Signature p1 w).1 = (Signature p2 w).1.
Proof.
  intros b1 b2 Hle Hne H1 H2.
  assert (MsgBody.ToString b1 = MsgBody.ToString b2) as Heq.
  { unfold b1, b2. rewrite ToString_one, ToString_two by done.
    by rewrite <- !append_assoc. }
  split_and!.
  - unfold MsgBody.HasKey, b1. rewrite add_all_Body.
    cbn [reverse rev_append list_to_map foldr uncurry fst snd].
    by rewrite lookup_insert_eq.
  - unfold MsgBody.HasKey, b2. rewrite add_all_Body.
    cbn [reverse rev_append list_to_map foldr uncurry fst snd].
    rewrite lookup_insert_ne by done. by rewrite lookup_empty.
  - done.
  - rewrite (Signature_run _ _ _ H1), (Signature_run _ _ _ H2).
    unfold signature_of, signature_with. simpl. fold b1 b2. by rewrite Heq.
Qed.

End Collision.

Lemma X4_unescaped_bodies_collide_witness :
  let b1 := add_all [("a", "1"); ("b", "2")] in
  let b2 := add_all [("a", "1" +:+ dq +:+ "," +:+ dq +:+ "b" +:+ dq +:+ ":" +:+ dq +:+ "2")] in
  let w := MkWorld [envelope NOTICE SenderReq (Some b1) "";
                    envelope NOTICE SenderReq (Some b2) ""] 0 0%nat [] in
  MsgBody.HasKey "b" b1 = true ∧ MsgBody.HasKey "b" b2 = false ∧
  MsgBody.ToString b1 = MsgBody.ToString b2 ∧
  (@Signature md5_digest nat 0%nat w).1 = (@Signature md5_digest nat 1%nat w).1.
Proof.
  refine (@X4_unescaped_bodies_collide md5_digest nat "a" "b" "1" "2"
            (envelope NOTICE SenderReq None "")
            (MkWorld [envelope NOTICE SenderReq
                        (Some (add_all [("a", "1"); ("b", "2")])) "";
                      envelope NOTICE SenderReq
                        (Some (add_all [("a", "1" +:+ dq +:+ "," +:+ dq +:+ "b"
                                              +:+ dq +:+ ":" +:+ dq +:+ "2")])) ""]
               0 0%nat [])
            0%nat 1%nat _ _ eq_refl eq_refl).
  - apply (bool_decide_unpack _). vm_compute. exact I.
  - discriminate.
Defined.

(* ===================================================================== *)
(** * Further properties: the outbound constructors *)
(* ===================================================================== *)

Section OutboundFacts.
Context `{Digest} {LS : Type}.
Implicit Types (w : World LS) (m : Message.t) (e : MsgPayload.t)
  (l : MessageListener LS) (b : MsgBody.t).

Lemma payload_of_run category m src dstNew dstAck w b :
  Message.Body m = Some b →
  payload_of category m src dstNew dstAck w
  = (Ret (length (heap w)),
     MkWorld (heap w ++ [outbound_signed category m src dstNew dstAck (clock w) b])
       (clock w) (lstate w) (calls w)).
Proof.
  intros Hb. unfold payload_of. unfold_M. unfold time_Now_Unix, alloc.
  rewrite SetBody_last, Signature_last. unfold signature_of. simpl.
  rewrite Hb. by rewrite SetSign_last.
Qed.

Lemma payload_of_nil_body category m src dstNew dstAck w :
  Message.Body m = None →
  (payload_of category m src dstNew dstAck w).1 = Panic.
Proof.
  intros Hb. unfold payload_of. unfold_M. unfold time_Now_Unix, alloc.
  rewrite SetBody_last, Signature_last. unfold signature_of. simpl.
  by rewrite Hb.
Qed.

Lemma outbound_signed_verifies category m src dstNew dstAck now b :
  signature_of (outbound_signed category m src dstNew dstAck now b)
  = Ret (MsgPayload.Sign (outbound_signed category m src dstNew dstAck now b)).
Proof. reflexivity. Qed.

(** X5.  What the three outbound constructors build from a message with a
    body: one new envelope at the end of the store, at phase SENDER_REQ,
    stamped with the clock, whose signature is the one [Signature]
    computes over it, whose conversion back gives the message it was built
    from with no error, and whose send queue is the message's
    destination. *)
Theorem X5_outbound_payload_round_trip w :
  (∀ (nm : NoticeMessage.t) b,
     Message.Body (NoticeMessage.Message nm) = Some b →
     ∃ e, NoticePayload nm w
          = (Ret (length (heap w)),
             MkWorld (heap w ++ [e]) (clock w) (lstate w) (calls w))
        ∧ MsgPayload.Phase e = SenderReq ∧ MsgPayload.SendTime e = clock w
        ∧ signature_of e = Ret (MsgPayload.Sign e)
        ∧ MsgPayload.ConvertToNotice e = (nm, None)
        ∧ MsgPayload.SendQueueName e = (NoticeMessage.Destination nm, None))
  ∧ (∀ (sm : SimplexMessage.t) b,
       Message.Body (SimplexMessage.Message sm) = Some b →
       ∃ e, SimplexPayload sm w
            = (Ret (length (heap w)),
               MkWorld (heap w ++ [e]) (clock w) (lstate w) (calls w))
          ∧ MsgPayload.Phase e = SenderReq ∧ MsgPayload.SendTime e = clock w
          ∧ signature_of e = Ret (MsgPayload.Sign e)
          ∧ MsgPayload.ConvertToSimplex e = (sm, None)
          ∧ MsgPayload.SendQueueName e = (SimplexMessage.Destination sm, None))
  ∧ (∀ (dm : DuplexMessage.t) b,
       Message.Body (DuplexMessage.Message dm) = Some b →
       ∃ e, DuplexPayload dm w
            = (Ret (length (heap w)),
               MkWorld (heap w ++ [e]) (clock w) (lstate w) (calls w))
          ∧ MsgPayload.Phase e = SenderReq ∧ MsgPayload.SendTime e = clock w
          ∧ signature_of e = Ret (MsgPayload.Sign e)
          ∧ MsgPayload.ConvertToDuplex e = (dm, None)
          ∧ MsgPayload.SendQueueName e = (DuplexMessage.DestinationNew dm, None)).
Proof.
  split_and!.
  - intros [[genre msgId body] destination] b Hb. simpl in Hb. subst body.
    eexists. split; [by apply payload_of_run|]. by split_and!.
  - intros [[genre msgId body] source destination] b Hb. simpl in Hb. subst body.
    eexists. split; [by apply payload_of_run|]. by split_and!.
  - intros [[genre msgId body] source destination destinationAck] b Hb.
    simpl in Hb. subst body.
    eexists. split; [by apply payload_of_run|]. by split_and!.
Qed.

(** X6.  A constructor panics exactly when the message has no body: the
    signature is computed through the nil body pointer. *)
Theorem X6_outbound_payload_needs_body w :
  (∀ nm : NoticeMessage.t,
     (NoticePayload nm w).1 = Panic
     ↔ Message.Body (NoticeMessage.Message nm) = None)
  ∧ (∀ sm : SimplexMessage.t,
       (SimplexPayload sm w).1 = Panic
       ↔ Message.Body (SimplexMessage.Message sm) = None)
  ∧ (∀ dm : DuplexMessage.t,
       (DuplexPayload dm w).1 = Panic
       ↔ Message.Body (DuplexMessage.Message dm) = None).
Proof.
  split_and!.
  - intros nm. unfold NoticePayload.
    destruct (Message.Body (NoticeMessage.Message nm)) as [b|] eqn:Hb.
    + by rewrite (payload_of_run _ _ _ _ _ _ b).
    + by rewrite payload_of_nil_body.
  - intros sm. unfold SimplexPayload.
    destruct (Message.Body (SimplexMessage.Message sm)) as [b|] eqn:Hb.
    + by rewrite (payload_of_run _ _ _ _ _ _ b).
    + by rewrite payload_of_nil_body.
  - intros dm. unfold DuplexPayload.
    destruct (Message.Body (DuplexMessage.Message dm)) as [b|] eqn:Hb.
    + by rewrite (payload_of_run _ _ _ _ _ _ b).
    + by rewrite payload_of_nil_body.
Qed.

End OutboundFacts.

Section Delivery.
Context `{Digest} {LS : Type}.
Implicit Types (w : World LS) (l : MessageListener LS) (b : MsgBody.t).

Lemma HandleNew_after_payload_of category m src dstNew dstAck w b l :
  Message.Body m = Some b →
  HandleNew (length (heap w)) l (payload_of category m src dstNew dstAck w).2
  = HandleNew (length (heap w)) l
      (MkWorld (heap w ++ [outbound_signed category m src dstNew dstAck (clock w) b])
         (clock w) (lstate w) (calls w))
  ∧ heap (MkWorld (heap w ++ [outbound_signed category m src dstNew dstAck (clock w) b])
            (clock w) (lstate w) (calls w)) !! length (heap w)
    = Some (outbound_signed category m src dstNew dstAck (clock w) b).
Proof.
  intros Hb. rewrite (payload_of_run _ _ _ _ _ _ b Hb). split; [done|].
  simpl. by rewrite list_lookup_middle.
Qed.

(** X7.  Sender to receiver.  The envelope a constructor builds from a
    message with a body, handed to [HandleNew], reaches [OnReceived] once,
    with the very message it was built from; a notice yields no reply, a
    transactional request yields a reply exactly when the listener returns
    a body, and the listener's error comes back in every case.  No such
    envelope makes [HandleNew] panic. *)
Theorem X7_built_envelope_is_delivered w l :
  (∀ (nm : NoticeMessage.t) b,
     Message.Body (NoticeMessage.Message nm) = Some b →
     let r := HandleNew (length (heap w)) l (NoticePayload nm w).2 in
     let a := OnReceived l (Notice nm) (lstate w) in
     r.1 = Ret (None, a.1.2)
     ∧ calls r.2 = calls w ++ [CallOnReceived (Notice nm)]
     ∧ lstate r.2 = a.2
     ∧ length (heap r.2) = S (length (heap w)))
  ∧ (∀ (sm : SimplexMessage.t) b,
       Message.Body (SimplexMessage.Message sm) = Some b →
       let r := HandleNew (length (heap w)) l (SimplexPayload sm w).2 in
       let a := OnReceived l (Simplex sm) (lstate w) in
       r.1 = answer_of (S (length (heap w))) a.1.1 a.1.2
       ∧ calls r.2 = calls w ++ [CallOnReceived (Simplex sm)]
       ∧ lstate r.2 = a.2)
  ∧ (∀ (dm : DuplexMessage.t) b,
       Message.Body (DuplexMessage.Message dm) = Some b →
       let r := HandleNew (length (heap w)) l (DuplexPayload dm w).2 in
       let a := OnReceived l (Duplex dm) (lstate w) in
       r.1 = answer_of (S (length (heap w))) a.1.1 a.1.2
       ∧ calls r.2 = calls w ++ [CallOnReceived (Duplex dm)]
       ∧ lstate r.2 = a.2).
Proof.
  split_and!.
  - intros [[genre msgId body] destination] b Hb. simpl in Hb. subst body.
    unfold NoticePayload. cbv zeta.
    edestruct HandleNew_after_payload_of as [-> Hp]; [done|].
    rewrite (HandleNew_dispatch _ _ _ _ Hp), decide_True by done.
    rewrite (noticeNew_run _ _ _ _ Hp) by done.
    simpl. rewrite length_app. simpl. split_and!; [done..|lia].
  - intros [[genre msgId body] source destination] b Hb. simpl in Hb. subst body.
    unfold SimplexPayload. cbv zeta.
    edestruct HandleNew_after_payload_of as [-> Hp]; [done|].
    rewrite (HandleNew_dispatch _ _ _ _ Hp).
    rewrite decide_False, decide_True by done.
    rewrite (simplexNew_run _ _ _ _ Hp) by done.
    unfold replied, simplex_of, message_of. simpl.
    destruct (OnReceived l _ (lstate w)) as [[[rsp|] err] s]; simpl;
      [rewrite length_app; simpl; rewrite Nat.add_1_r|]; done.
  - intros [[genre msgId body] source destination destinationAck] b Hb.
    simpl in Hb. subst body.
    unfold DuplexPayload. cbv zeta.
    edestruct HandleNew_after_payload_of as [-> Hp]; [done|].
    rewrite (HandleNew_dispatch _ _ _ _ Hp).
    rewrite decide_False, decide_False, decide_True by done.
    rewrite (duplexNew_run _ _ _ _ Hp) by done.
    unfold replied, duplex_of, message_of. simpl.
    destruct (OnReceived l _ (lstate w)) as [[[rsp|] err] s]; simpl;
      [rewrite length_app; simpl; rewrite Nat.add_1_r|]; done.
Qed.

End Delivery.

Lemma X5_outbound_payload_round_trip_witness :
  ∃ e, @NoticePayload md5_digest nat ping_notice empty_world
       = (Ret (length (heap empty_world)),
          MkWorld (heap empty_world ++ [e]) (clock empty_world)
            (lstate empty_world) (calls empty_world))
     ∧ MsgPayload.Phase e = SenderReq
     ∧ MsgPayload.SendTime e = clock empty_world
     ∧ @signature_of md5_digest e = Ret (MsgPayload.Sign e)
     ∧ MsgPayload.ConvertToNotice e = (ping_notice, None)
     ∧ MsgPayload.SendQueueName e = (NoticeMessage.Destination ping_notice, None).
Proof.
  exact (proj1 (@X5_outbound_payload_round_trip md5_digest nat empty_world)
           ping_notice body_ok eq_refl).
Defined.

Lemma X6_outbound_payload_needs_body_witness :
  (@SimplexPayload md5_digest nat (NewSimplexMessage "1") empty_world).1 = Panic.
Proof.
  refine (proj2 (proj1 (proj2 (@X6_outbound_payload_needs_body md5_digest nat
                                 empty_world))
                   (NewSimplexMessage "1")) _).
  reflexivity.
Defined.

Lemma X7_built_envelope_is_delivered_witness :
  let l := answering (Some body_ok) None in
  let r := @HandleNew md5_digest nat (length (heap empty_world)) l
             (@SimplexPayload md5_digest nat order_simplex empty_world).2 in
  let a := OnReceived l (Simplex order_simplex) (lstate empty_world) in
  r.1 = answer_of (S (length (heap empty_world))) a.1.1 a.1.2
  ∧ calls r.2 = calls empty_world ++ [CallOnReceived (Simplex order_simplex)]
  ∧ lstate r.2 = a.2.
Proof.
  exact (proj1 (proj2 (@X7_built_envelope_is_delivered md5_digest nat empty_world
                         (answering (Some body_ok) None)))
           order_simplex body_ab eq_refl).
Defined.

(* ===================================================================== *)
(** * Further properties: the handshake handlers *)
(* ===================================================================== *)

Section DispatchFacts.
Context `{Digest} {LS : Type}.
Implicit Types (w : World LS) (m e : MsgPayload.t) (p msg : loc)
  (l : MessageListener LS).

(** Every run of an entry point on a stored envelope has one of three
    shapes: an error before any listener call; one listener call and no
    reply; one listener call at a replying row, continued by [replied]. *)
Lemma dispatch_cases (ep : EntryPoint) w msg m l :
  heap w !! msg = Some m →
  (∃ err, dispatch ep msg l w = (Ret (None, Some err), w))
  ∨ (∃ c s err, dispatch ep msg l w = (Ret (None, err), after_call w s c))
  ∨ (∃ r, replying_row r ep m
          ∧ dispatch ep msg l w
            = replied w m (reply_phase r) (listener_call r m)
                (listener_answer l r m (lstate w))).
Proof.
  intros Hp. destruct ep; simpl.
  - rewrite (HandleNew_dispatch _ _ _ _ Hp).
    destruct (decide (MsgPayload.Phase m = SenderReq)) as [Hph|Hph].
    + repeat case_decide.
      * right; left. eexists _, _, _. by apply noticeNew_run.
      * right; right. exists bySimplexNew. split; [done|]. by apply simplexNew_run.
      * right; right. exists byDuplexNew. split; [done|]. by apply duplexNew_run.
      * left. by eexists.
    + left. repeat case_decide.
      * eexists. by apply noticeNew_phase.
      * eexists. by apply simplexNew_phase.
      * eexists. by apply duplexNew_phase.
      * by eexists.
  - rewrite (HandleAck_dispatch _ _ _ _ Hp). repeat case_decide.
    + right; left. eexists _, _, _. by apply simplexRecipientACK_run.
    + left. by eexists.
    + right; right. exists byDuplexRecipientACK. split; [done|].
      by apply duplexRecipientACK_run.
    + right; left. eexists _, _, _. by apply duplexSenderACK_run.
    + left. by eexists.
    + left. by eexists.
Qed.

Lemma dispatch_invalid_pointer (ep : EntryPoint) w msg l :
  heap w !! msg = None → dispatch ep msg l w = (Panic, w).
Proof.
  intros Hp. destruct ep; simpl; unfold HandleNew, HandleAck; unfold_M;
    by rewrite (load_None _ _ Hp).
Qed.

Ltac frame_done :=
  simpl; rewrite ?app_nil_r; split_and!; try done; simpl; lia.

(** X8.  What the entry points leave alone, on every input.  A run of
    [HandleNew] or [HandleAck] only appends: the envelopes already stored,
    the inbound one among them, are unchanged; at most one envelope is
    allocated, and only after a listener call; the listener is invoked at
    most once, and its state is untouched when it is not invoked.  The
    clock is only read.  A pointer to no envelope gives a panic and
    changes nothing. *)
Theorem X8_entry_points_only_append (ep : EntryPoint) w msg l :
  let r := dispatch ep msg l w in
  (∃ new cs, heap r.2 = heap w ++ new ∧ calls r.2 = calls w ++ cs
             ∧ (length new ≤ length cs)%nat ∧ (length cs ≤ 1)%nat
             ∧ (cs = [] → lstate r.2 = lstate w))
  ∧ clock r.2 = clock w
  ∧ (heap w !! msg = None → r = (Panic, w)).
Proof.
  cbv zeta. destruct (heap w !! msg) as [m|] eqn:Hp.
  - destruct (dispatch_cases ep w msg m l Hp)
      as [[err ->]|[(c & s & err & ->)|(r & _ & ->)]].
    + split_and!; [|done..]. exists [], []. frame_done.
    + split_and!; [|done..]. exists [], [c]. frame_done.
    + unfold replied.
      destruct (listener_answer l r m (lstate w)) as [[[body|] err] s].
      * destruct (MsgPayload.Body m); (split_and!; [|done..]);
          eexists [_], [_]; frame_done.
      * split_and!; [|done..]. exists [], [listener_call r m]. frame_done.
  - rewrite (dispatch_invalid_pointer _ _ _ _ Hp).
    split_and!; [|done..]. exists [], []. frame_done.
Qed.

End DispatchFacts.

Section ReplyFacts.
Context `{Digest} {LS : Type}.
Implicit Types (w : World LS) (m e : MsgPayload.t) (p msg : loc)
  (l : MessageListener LS).

(** Read back from a returned reply pointer: the row, the listener's body
    and the envelope allocated. *)
Lemma dispatch_reply_inv (ep : EntryPoint) w msg m l p err :
  heap w !! msg = Some m →
  (dispatch ep msg l w).1 = Ret (Some p, err) →
  ∃ r body b,
    replying_row r ep m
    ∧ (listener_answer l r m (lstate w)).1 = (Some body, err)
    ∧ MsgPayload.Body m = Some b
    ∧ p = length (heap w)
    ∧ dispatch ep msg l w
      = (Ret (Some (length (heap w)), err),
         after_call_alloc w (listener_answer l r m (lstate w)).2
           (listener_call r m)
           (derive_signed m (reply_phase r) (clock w) body)).
Proof.
  intros Hp Hret.
  destruct (dispatch_cases ep w msg m l Hp)
    as [[e He]|[(c & s & e & He)|(r & Hrow & He)]];
    rewrite He in Hret; [done..|].
  rewrite He. unfold replied in *.
  destruct (listener_answer l r m (lstate w)) as [[[body|] e] s] eqn:Hans;
    [|done].
  destruct (MsgPayload.Body m) as [b|]; [|done].
  simpl in Hret. injection Hret as <- <-. exists r, body, b.
  by rewrite Hans.
Qed.

Lemma reply_phase_next (r : Replying) (ep : EntryPoint) m :
  replying_row r ep m → reply_phase r = next_phase (MsgPayload.Phase m).
Proof.
  unfold next_phase. destruct r; simpl; intros (_ & _ & ->); [done..|].
  by rewrite decide_False.
Qed.

(** X9.  Anatomy of a reply.  Whenever an entry point returns a reply
    pointer, the inbound envelope sat at one of the three replying rows
    and carried a body, the listener returned a body and the error that is
    returned with the pointer, and the pointer is the one new envelope:
    category, type, id and the three queues of the inbound envelope, the
    listener's body, the clock's time, the next phase, a signature that
    [Signature] reproduces, and as send queue the sender's ack queue after
    a request, the receiver's ack queue after an acknowledgement. *)
Theorem X9_reply_anatomy (ep : EntryPoint) w msg m l p err :
  heap w !! msg = Some m →
  (dispatch ep msg l w).1 = Ret (Some p, err) →
  ∃ r body e,
    replying_row r ep m
    ∧ (listener_answer l r m (lstate w)).1 = (Some body, err)
    ∧ MsgPayload.Body m ≠ None
    ∧ p = length (heap w)
    ∧ heap (dispatch ep msg l w).2 = heap w ++ [e]
    ∧ (MsgPayload.Category e, MsgPayload.Genre e, MsgPayload.MsgId e)
      = (MsgPayload.Category m, MsgPayload.Genre m, MsgPayload.MsgId m)
    ∧ (MsgPayload.SrcAckQueue e, MsgPayload.DstNewQueue e, MsgPayload.DstAckQueue e)
      = (MsgPayload.SrcAckQueue m, MsgPayload.DstNewQueue m, MsgPayload.DstAckQueue m)
    ∧ MsgPayload.Body e = Some body
    ∧ MsgPayload.SendTime e = clock w
    ∧ MsgPayload.Phase e = next_phase (MsgPayload.Phase m)
    ∧ signature_of e = Ret (MsgPayload.Sign e)
    ∧ MsgPayload.SendQueueName e
      = (if decide (MsgPayload.Phase m = SenderReq) then MsgPayload.SrcAckQueue m
         else MsgPayload.DstAckQueue m, None).
Proof.
  intros Hp Hret.
  destruct (dispatch_reply_inv ep w msg m l p err Hp Hret)
    as (r & body & b & Hrow & Hans & Hb & -> & ->).
  exists r, body, (derive_signed m (reply_phase r) (clock w) body).
  split_and!; try done.
  - by rewrite Hb.
  - by apply reply_phase_next with ep.
  - unfold MsgPayload.SendQueueName. simpl.
    destruct r; simpl in *; destruct Hrow as (_ & _ & ->).
        + by rewrite decide_True.
    + by rewrite decide_True.
    + by rewrite decide_False.
Qed.

End ReplyFacts.

Section ReplyChain.
Context `{Digest} {LS LS2 : Type}.

(** X10.  The next step of the handshake.  A reply envelope that an entry
    point has produced, handed to [HandleAck] in any world (the other
    party's), never panics and reaches exactly one callback, with the type
    and id of the envelope that started the exchange and the replier's
    body: [OnRecipientAckReceived] for the reply to a request,
    [OnSenderAckReceived] for the reply to an acknowledgement.  Handed to
    [HandleNew] it is refused with the invalid-phase error and changes
    nothing.  Only the reply to a DUPLEX request can be answered by a
    further envelope, so an exchange has at most three envelopes. *)
Theorem X10_reply_is_acknowledged (ep : EntryPoint) (w : World LS) (msg : loc)
    (m : MsgPayload.t) (l : MessageListener LS) (p : loc) (err : option error)
    (e : MsgPayload.t) (w2 : World LS2) (q : loc) (l2 : MessageListener LS2) :
  heap w !! msg = Some m →
  (dispatch ep msg l w).1 = Ret (Some p, err) →
  heap (dispatch ep msg l w).2 !! p = Some e →
  heap w2 !! q = Some e →
  HandleNew q l2 w2
  = (Ret (None, Some (ErrInvalidPhase (MsgPayload.Phase e))), w2)
  ∧ (HandleAck q l2 w2).1 ≠ Panic
  ∧ calls (HandleAck q l2 w2).2
    = calls w2
      ++ [if decide (MsgPayload.Phase m = SenderReq)
          then CallOnRecipientAckReceived (MsgPayload.Genre m)
                 (MsgPayload.MsgId m) (MsgPayload.Body e)
          else CallOnSenderAckReceived (MsgPayload.Genre m)
                 (MsgPayload.MsgId m) (MsgPayload.Body e)]
  ∧ (∀ p2 err2, (HandleAck q l2 w2).1 = Ret (Some p2, err2) →
       MsgPayload.Category m = DUPLEX ∧ MsgPayload.Phase m = SenderReq).
Proof.
  intros Hp Hret He Hq.
  destruct (dispatch_reply_inv ep w msg m l p err Hp Hret)
    as (r & body & b & Hrow & Hans & Hb & -> & Hrun).
  rewrite Hrun in He. simpl in He. rewrite list_lookup_middle in He by done.
  injection He as <-.
  set (e := derive_signed m (reply_phase r) (clock w) body) in *.
  destruct r; simpl in Hrow; destruct Hrow as (_ & Hc & Hph).
  - assert (MsgPayload.Category e = SIMPLEX) as Hce by done.
    assert (MsgPayload.Phase e = ReceiverAck) as Hpe by done.
    split_and!.
    + rewrite (HandleNew_dispatch _ _ _ _ Hq), Hce.
      rewrite decide_False, decide_True by done.
      apply simplexNew_phase; [done|]. by rewrite Hpe.
    + rewrite (HandleAck_dispatch _ _ _ _ Hq), Hce, Hpe, !decide_True by done.
      by rewrite (simplexRecipientACK_run _ _ _ _ Hq).
    + rewrite (HandleAck_dispatch _ _ _ _ Hq), Hce, Hpe, !decide_True by done.
      by rewrite (simplexRecipientACK_run _ _ _ _ Hq).
    + intros p2 err2.
      rewrite (HandleAck_dispatch _ _ _ _ Hq), Hce, Hpe, !decide_True by done.
      by rewrite (simplexRecipientACK_run _ _ _ _ Hq).
  - assert (MsgPayload.Category e = DUPLEX) as Hce by done.
    assert (MsgPayload.Phase e = ReceiverAck) as Hpe by done.
    assert (HandleAck q l2 w2
            = replied w2 e SenderAck
                (CallOnRecipientAckReceived (MsgPayload.Genre e)
                   (MsgPayload.MsgId e) (MsgPayload.Body e))
                (OnRecipientAckReceived l2 (MsgPayload.Genre e)
                   (MsgPayload.MsgId e) (MsgPayload.Body e) (lstate w2)))
      as Hack.
    { rewrite (HandleAck_dispatch _ _ _ _ Hq), Hce, Hpe.
      rewrite decide_False, !decide_True by done.
      by apply duplexRecipientACK_run. }
    split_and!.
    + rewrite (HandleNew_dispatch _ _ _ _ Hq), Hce.
      rewrite decide_False, decide_False, decide_True by done.
      apply duplexNew_phase; [done|]. by rewrite Hpe.
    + rewrite Hack. unfold replied.
      by destruct (OnRecipientAckReceived l2 _ _ _ _) as [[[?|] ?] ?].
    + rewrite Hack, Hph, decide_True by done. unfold replied.
      by destruct (OnRecipientAckReceived l2 _ _ _ _) as [[[?|] ?] ?].
    + done.
  - assert (MsgPayload.Category e = DUPLEX) as Hce by done.
    assert (MsgPayload.Phase e = SenderAck) as Hpe by done.
    assert (HandleAck q l2 w2 = duplexSenderACK q l2 w2) as Hack.
    { rewrite (HandleAck_dispatch _ _ _ _ Hq), Hce, Hpe.
      by rewrite decide_False, decide_True, decide_False, decide_True. }
    split_and!.
    + rewrite (HandleNew_dispatch _ _ _ _ Hq), Hce.
      rewrite decide_False, decide_False, decide_True by done.
      apply duplexNew_phase; [done|]. by rewrite Hpe.
    + by rewrite Hack, (duplexSenderACK_run _ _ _ _ Hq).
    + rewrite Hack, (duplexSenderACK_run _ _ _ _ Hq) by done.
      by rewrite Hph, decide_False.
    + intros p2 err2. by rewrite Hack, (duplexSenderACK_run _ _ _ _ Hq).
Qed.

End ReplyChain.

Section ConcreteReplies.
#[local] Existing Instance md5_digest.

Lemma X8_entry_points_only_append_witness :
  HandleAck 5%nat (answering (Some body_ok) None) empty_world
  = (Panic, empty_world).
Proof.
  exact (proj2 (proj2 (X8_entry_points_only_append handleAck empty_world 5%nat
                         (answering (Some body_ok) None)))
           eq_refl).
Defined.

Lemma X9_reply_anatomy_witness :
  let w := world_with (envelope SIMPLEX SenderReq (Some body_ab) "") in
  ∃ e, heap (HandleNew 0%nat (answering (Some body_ok) None) w).2 = heap w ++ [e]
       ∧ MsgPayload.SendQueueName e = ("sys_amq_0001_biz", None).
Proof.
  cbv zeta.
  destruct (X9_reply_anatomy handleNew
              (world_with (envelope SIMPLEX SenderReq (Some body_ab) ""))
              0%nat (envelope SIMPLEX SenderReq (Some body_ab) "")
              (answering (Some body_ok) None) 1%nat None eq_refl)
    as (r & body & e & _ & _ & _ & _ & Hheap & _ & _ & _ & _ & _ & _ & Hq).
  - vm_compute. reflexivity.
  - exists e. split; [exact Hheap|exact Hq].
Defined.

Lemma X10_reply_is_acknowledged_witness :
  let m := envelope DUPLEX SenderReq (Some body_ab) "" in
  let e := derive_signed m ReceiverAck 1700000005 body_ok in
  calls (HandleAck 0%nat (answering None None) (world_with e)).2
  = calls (world_with e)
    ++ [if decide (MsgPayload.Phase m = SenderReq)
        then CallOnRecipientAckReceived (MsgPayload.Genre m)
               (MsgPayload.MsgId m) (MsgPayload.Body e)
        else CallOnSenderAckReceived (MsgPayload.Genre m)
               (MsgPayload.MsgId m) (MsgPayload.Body e)].
Proof.
  cbv zeta.
  refine (proj1 (proj2 (proj2
            (X10_reply_is_acknowledged handleNew
               (world_with (envelope DUPLEX SenderReq (Some body_ab) ""))
               0%nat (envelope DUPLEX SenderReq (Some body_ab) "")
               (answering (Some body_ok) None) 1%nat None
               (derive_signed (envelope DUPLEX SenderReq (Some body_ab) "")
                  ReceiverAck 1700000005 body_ok)
               (world_with
                  (derive_signed (envelope DUPLEX SenderReq (Some body_ab) "")
                     ReceiverAck 1700000005 body_ok))
               0%nat (answering None None) eq_refl _ _ eq_refl)))).
  - vm_compute. reflexivity.
  - vm_compute. reflexivity.
Defined.

End ConcreteReplies.

(* ===================================================================== *)
(** * Further properties: what the signature covers *)
(* ===================================================================== *)

Section SignedText.
Context `{Digest} {LS : Type}.

Lemma signing_text_grouped (m : MsgPayload.t) (body : string) :
  signing_text m body
  = "category=" +:+ MessageCategory.String (MsgPayload.Category m) +:+
    "type=" +:+ (MsgPayload.Genre m +:+ "msgId=" +:+ MsgPayload.MsgId m) +:+
    "queue=" +:+
    (MsgPayload.SrcAckQueue m +:+ MsgPayload.DstAckQueue m +:+
     MsgPayload.DstNewQueue m) +:+
    "body=" +:+ body +:+
    "@phase=" +:+ MessagePhase.String (MsgPayload.Phase m) +:+
    "@sendTime=" +:+ ToStr (MsgPayload.SendTime m) +:+
    "@#$dz874&*&*#@@$^&^FS()()!@FSF".
Proof. unfold signing_text. by rewrite <- !append_assoc. Qed.

(** X11.  The signed text has no separators between the three queue
    names, nor a fixed width for the type and the id, and it carries
    category and phase by their display names: two envelopes with the same
    body and send time get the same signature as soon as the
    concatenation of the three queues (source ack, destination ack,
    destination new, in this order) is the same, the type followed by
    msgId= and the id is the same, and category and phase display alike
    (every unknown code displays as Unknown). *)
Theorem X11_signature_field_boundaries (w : World LS) (p1 p2 : loc)
    (m1 m2 : MsgPayload.t) :
  heap w !! p1 = Some m1 → heap w !! p2 = Some m2 →
  MsgPayload.Body m1 = MsgPayload.Body m2 →
  MsgPayload.SendTime m1 = MsgPayload.SendTime m2 →
  MessageCategory.String (MsgPayload.Category m1)
  = MessageCategory.String (MsgPayload.Category m2) →
  MessagePhase.String (MsgPayload.Phase m1)
  = MessagePhase.String (MsgPayload.Phase m2) →
  MsgPayload.Genre m1 +:+ "msgId=" +:+ MsgPayload.MsgId m1
  = MsgPayload.Genre m2 +:+ "msgId=" +:+ MsgPayload.MsgId m2 →
  MsgPayload.SrcAckQueue m1 +:+ MsgPayload.DstAckQueue m1 +:+ MsgPayload.DstNewQueue m1
  = MsgPayload.SrcAckQueue m2 +:+ MsgPayload.DstAckQueue m2 +:+ MsgPayload.DstNewQueue m2 →
  (Signature p1 w).1 = (Signature p2 w).1.
Proof.
  intros H1 H2 Hb Ht Hc Hph Hid Hq.
  rewrite (Signature_run _ _ _ H1), (Signature_run _ _ _ H2). simpl.
  unfold signature_of. rewrite Hb. destruct (MsgPayload.Body m2) as [b|]; [|done].
  unfold signature_with. by rewrite !signing_text_grouped, Hc, Hph, Ht, Hid, Hq.
Qed.

End SignedText.

Lemma X11_signature_field_boundaries_witness :
  (@Signature md5_digest nat 0%nat
     (MkWorld [ack_to "sys_amq_0001_biz" ""; ack_to "sys_amq_0001_" "biz"]
        0 0%nat [])).1
  = (@Signature md5_digest nat 1%nat
       (MkWorld [ack_to "sys_amq_0001_biz" ""; ack_to "sys_amq_0001_" "biz"]
          0 0%nat [])).1.
Proof.
  exact (@X11_signature_field_boundaries md5_digest nat
           (MkWorld [ack_to "sys_amq_0001_biz" ""; ack_to "sys_amq_0001_" "biz"]
              0 0%nat [])
           0%nat 1%nat (ack_to "sys_amq_0001_biz" "") (ack_to "sys_amq_0001_" "biz")
           eq_refl eq_refl eq_refl eq_refl eq_refl eq_refl eq_refl eq_refl).
Defined.

(* ===================================================================== *)
(** * Further properties: the default listener *)
(* ===================================================================== *)

Section ListenerUse.
Context `{Digest} {LS : Type}.
Implicit Types (w : World LS) (m : MsgPayload.t) (msg : loc)
  (l : MessageListener LS).

(** An entry point uses its listener only at the type of the envelope. *)
Lemma dispatch_listener_ext (ep : EntryPoint) w msg m l1 l2 :
  heap w !! msg = Some m →
  (∀ a s, GetGenre a = MsgPayload.Genre m → OnReceived l1 a s = OnReceived l2 a s) →
  (∀ id rsp s, OnRecipientAckReceived l1 (MsgPayload.Genre m) id rsp s
               = OnRecipientAckReceived l2 (MsgPayload.Genre m) id rsp s) →
  (∀ id rsp s, OnSenderAckReceived l1 (MsgPayload.Genre m) id rsp s
               = OnSenderAckReceived l2 (MsgPayload.Genre m) id rsp s) →
  dispatch ep msg l1 w = dispatch ep msg l2 w.
Proof.
  intros Hp Hnew Hack Hsack. destruct ep; simpl.
  - rewrite !(HandleNew_dispatch _ _ _ _ Hp).
    destruct (decide (MsgPayload.Phase m = SenderReq)) as [Hph|Hph].
    + repeat case_decide; [| | |done].
      * rewrite !(noticeNew_run _ _ _ _ Hp) by done. by rewrite Hnew.
      * rewrite !(simplexNew_run _ _ _ _ Hp) by done. by rewrite Hnew.
      * rewrite !(duplexNew_run _ _ _ _ Hp) by done. by rewrite Hnew.
    + repeat case_decide; [| | |done].
      * by rewrite !(noticeNew_phase _ _ _ _ Hp).
      * by rewrite !(simplexNew_phase _ _ _ _ Hp).
      * by rewrite !(duplexNew_phase _ _ _ _ Hp).
  - rewrite !(HandleAck_dispatch _ _ _ _ Hp). repeat case_decide; try done.
    + rewrite !(simplexRecipientACK_run _ _ _ _ Hp) by done. by rewrite Hack.
    + rewrite !(duplexRecipientACK_run _ _ _ _ Hp) by done. by rewrite Hack.
    + rewrite !(duplexSenderACK_run _ _ _ _ Hp) by done. by rewrite Hsack.
Qed.

End ListenerUse.

Section DefaultListener.
Context `{Digest} {LS : Type}.
Implicit Types (w : World (ListenerState LS)) (m : MsgPayload.t) (msg : loc)
  (pm : gmap string (Processor LS)).

(** X12.  Routing by type.  With the default listener an entry point
    consults the processor map only at the type of the envelope: two maps
    with the same entry there give the same run, whatever other
    processors are registered. *)
Theorem X12_default_listener_routes_by_type (ep : EntryPoint) w msg m pm1 pm2 :
  heap w !! msg = Some m →
  pm1 !! MsgPayload.Genre m = pm2 !! MsgPayload.Genre m →
  dispatch ep msg (defaultMessageListener pm1) w
  = dispatch ep msg (defaultMessageListener pm2) w.
Proof.
  intros Hp Hpm. apply (dispatch_listener_ext ep w msg m); [done|..].
  - intros a s Ha. simpl. unfold processor_of. by rewrite Ha, Hpm.
  - intros id rsp s. simpl. unfold processor_of. by rewrite Hpm.
  - intros id rsp s. simpl. unfold processor_of. by rewrite Hpm.
Qed.

(** X13.  A type without processor.  At every legal row of the handshake
    table an envelope whose type has no processor is dropped: no reply
    envelope is built (so no panic, body or not), the type is written to
    the log, the processors are not touched.  The caller gets the
    no-processor error, except at SENDER_ACK, where it gets no error at
    all. *)
Theorem X13_type_without_processor (ep : EntryPoint) w msg m pm :
  heap w !! msg = Some m →
  pm !! MsgPayload.Genre m = None →
  legal (MsgPayload.Category m) (MsgPayload.Phase m) ep →
  let r := dispatch ep msg (defaultMessageListener pm) w in
  r.1 = Ret (None, if decide (MsgPayload.Phase m = SenderAck) then None
                   else Some ErrNoProcessor)
  ∧ heap r.2 = heap w
  ∧ lstate r.2
    = MkListenerState (processors_state (lstate w))
        (undefined_types (lstate w) ++ [MsgPayload.Genre m]).
Proof.
  intros Hp Hpm Hlegal. cbv zeta. destruct ep; simpl in *.
  - destruct Hlegal as [Hc Hph].
    rewrite (HandleNew_dispatch _ _ _ _ Hp), Hph.
    rewrite (decide_False (P := SenderReq = SenderAck)) by done.
    destruct Hc as [Hc|[Hc|Hc]]; rewrite Hc.
    + rewrite decide_True by done.
      rewrite (noticeNew_run _ _ _ _ Hp) by done. simpl.
      unfold processor_of. simpl. by rewrite Hpm.
    + rewrite decide_False, decide_True by done.
      rewrite (simplexNew_run _ _ _ _ Hp) by done. unfold replied. simpl.
      unfold processor_of. simpl. by rewrite Hpm.
    + rewrite decide_False, decide_False, decide_True by done.
      rewrite (duplexNew_run _ _ _ _ Hp) by done. unfold replied. simpl.
      unfold processor_of. simpl. by rewrite Hpm.
  - rewrite (HandleAck_dispatch _ _ _ _ Hp).
    destruct Hlegal as [[Hc Hph]|[[Hc Hph]|[Hc Hph]]]; rewrite Hc, Hph.
    + rewrite !decide_True by done.
      rewrite (decide_False (P := ReceiverAck = SenderAck)) by done.
      rewrite (simplexRecipientACK_run _ _ _ _ Hp) by done. simpl.
      unfold processor_of. by rewrite Hpm.
    + rewrite decide_False, !decide_True by done.
      rewrite (decide_False (P := ReceiverAck = SenderAck)) by done.
      rewrite (duplexRecipientACK_run _ _ _ _ Hp) by done. unfold replied. simpl.
      unfold processor_of. by rewrite Hpm.
    + rewrite decide_False, decide_True, decide_False, !decide_True by done.
      rewrite (duplexSenderACK_run _ _ _ _ Hp) by done. simpl.
      unfold processor_of. by rewrite Hpm.
Qed.

End DefaultListener.

Section ConcreteListeners.
#[local] Existing Instance md5_digest.

Lemma X12_default_listener_routes_by_type_witness :
  let w := MkWorld [envelope SIMPLEX SenderReq (Some body_ab) ""] 1700000005
             (MkListenerState 0%nat []) [] in
  let pm1 : gmap string (Processor nat) :=
    {[ "order" := answering_processor "order" (Some body_ok) ]} in
  let pm2 := <["ping" := answering_processor "ping" None]> pm1 in
  HandleNew 0%nat (defaultMessageListener pm1) w
  = HandleNew 0%nat (defaultMessageListener pm2) w.
Proof.
  cbv zeta.
  refine (X12_default_listener_routes_by_type handleNew
            (MkWorld [envelope SIMPLEX SenderReq (Some body_ab) ""] 1700000005
               (MkListenerState 0%nat []) [])
            0%nat (envelope SIMPLEX SenderReq (Some body_ab) "")
            {[ "order" := answering_processor "order" (Some body_ok) ]}
            (<["ping" := answering_processor "ping" None]>
               {[ "order" := answering_processor "order" (Some body_ok) ]})
            eq_refl _).
  vm_compute. reflexivity.
Defined.

Lemma X13_type_without_processor_witness :
  let w := MkWorld [envelope DUPLEX SenderAck None ""] 1700000005
             (MkListenerState 0%nat []) [] in
  let pm : gmap string (Processor nat) :=
    {[ "ping" := answering_processor "ping" None ]} in
  (HandleAck 0%nat (defaultMessageListener pm) w).1 = Ret (None, None)
  ∧ heap (HandleAck 0%nat (defaultMessageListener pm) w).2 = heap w
  ∧ lstate (HandleAck 0%nat (defaultMessageListener pm) w).2
    = MkListenerState 0%nat ["order"].
Proof.
  cbv zeta.
  refine (X13_type_without_processor handleAck
            (MkWorld [envelope DUPLEX SenderAck None ""] 1700000005
               (MkListenerState 0%nat []) [])
            0%nat (envelope DUPLEX SenderAck None "")
            {[ "ping" := answering_processor "ping" None ]}
            eq_refl _ _).
  - vm_compute. reflexivity.
  - right; right. split; reflexivity.
Defined.

End ConcreteListeners.

(* ===================================================================== *)
(** * Further properties: the client's life cycle *)
(* ===================================================================== *)

Section LifecycleFacts.
Context {PS LS C : Type}.
Implicit Types (w : Life PS LS C) (ps : list (Processor LS))
  (vs : list Z) (r : option C * option error).

Lemma fold_insert_lookup ps (m0 : gmap string (Processor LS)) (t : string) :
  fold_left (λ m p, <[GetType p := p]> m) ps m0 !! t
  = match last_of_type t ps with
    | Some p => Some p
    | None => m0 !! t
    end.
Proof.
  unfold last_of_type. induction ps as [|p ps IH] using rev_ind; [done|].
  rewrite fold_left_app, filter_app. simpl.
  destruct (decide (GetType p = t)) as [Heq|Hne].
  - rewrite filter_cons_True, filter_nil by done.
    rewrite last_snoc, Heq. by rewrite lookup_insert_eq.
  - rewrite filter_cons_False, filter_nil, app_nil_r by done.
    by rewrite lookup_insert_ne.
Qed.

(** X14.  [AddProcessor], given processors that are not nil, never
    fails.  Before [Start] it registers every processor under its type: where several of the arguments, or an
    argument and an earlier registration, have the same type, the last
    one silently replaces the others; every other type keeps its
    processor.  After [Start] it registers nothing and only prints a
    line. *)
Theorem X14_AddProcessor_last_wins ps w :
  let r := AddProcessor ps w in
  r.1 = Ret tt
  ∧ (started (obj w) = false →
       (∀ t, processorMap (obj r.2) !! t
             = match last_of_type t ps with
               | Some p => Some p
               | None => processorMap (obj w) !! t
               end)
       ∧ started (obj r.2) = false ∧ lines r.2 = lines w)
  ∧ (started (obj w) = true →
       r.2 = MkLife (obj w) (transport w) (listening w)
               (lines w ++ [LineAlreadyStarted])).
Proof.
  cbv zeta. unfold AddProcessor, this, set_processorMap, write_line. unfold_M.
  destruct (started (obj w)) eqn:Hs; simpl.
  - split_and!; done.
  - case_decide as Hlen; simpl.
        + split_and!; [done|intros _|done]. split_and!; [|done..].
      intros t. apply fold_insert_lookup.
    + split_and!; [done|intros _|done]. split_and!; [|done..].
      intros t. destruct ps; [done|simpl in Hlen; lia].
Qed.

(** ** Start *)

Lemma check_partitions_run limit vs w :
  check_partitions limit vs w
  = (if decide (Exists (bad_partition limit) vs) then Panic else Ret tt, w).
Proof.
    induction vs as [|v vs IH]; cbn [check_partitions].
  - rewrite decide_False; [done|]. by intros ?%Exists_nil.
  - unfold bad_partition in *. destruct (decide (v = 0)) as [->|Hv].
    + rewrite IH. destruct (decide (Exists _ vs)) as [He|He].
      * rewrite decide_True; [done|]. by right.
      * rewrite decide_False; [done|]. intros [?|?]%Exists_cons; [lia|done].
    + destruct (decide (v ≤ 0 ∧ v < limit)) as [Hb|Hb].
      * unfold_M. rewrite decide_True; [done|]. left. lia.
      * rewrite IH. destruct (decide (Exists _ vs)) as [He|He].
        -- rewrite decide_True; [done|]. by right.
        -- rewrite decide_False; [done|].
           intros [?|?]%Exists_cons; [lia|done].
Qed.

Lemma BuildQueueName_run sid w :
  ∃ new, BuildQueueName sid w
         = (Ret (single_queue sid (node (obj w))),
            MkLife (obj w) (transport w) (listening w) (lines w ++ new)).
Proof.
  unfold BuildQueueName, this, write_line. unfold_M. case_decide.
  - by eexists [_].
  - exists []. destruct w. simpl. by rewrite app_nil_r.
Qed.

Lemma BuildQueueNameByPartition_run sid (v : Z) w :
  ∃ new, BuildQueueNameByPartition sid v w
         = (Ret (partition_queue sid (node (obj w)) v),
            MkLife (obj w) (transport w) (listening w) (lines w ++ new)).
Proof.
  unfold BuildQueueNameByPartition, this, write_line. unfold_M.
  repeat case_decide; simpl.
  - eexists [_; _]. by rewrite <- app_assoc.
  - by eexists [_].
  - by eexists [_].
  - exists []. destruct w. simpl. by rewrite app_nil_r.
Qed.

Lemma listen_partitions_run vs r w :
  ∃ new,
    listen_partitions vs r w
    = (Ret (listen_each (provider_Listen (obj w))
              (partition_queue (systemId (obj w)) (node (obj w)) <$> vs)
              r (transport w)).1,
       MkLife (obj w)
         (listen_each (provider_Listen (obj w))
            (partition_queue (systemId (obj w)) (node (obj w)) <$> vs)
            r (transport w)).2
         (listening w
          ++ (partition_queue (systemId (obj w)) (node (obj w)) <$> vs))
         (lines w ++ new)).
Proof.
  revert r w. induction vs as [|v vs IH]; intros r w.
  - exists []. destruct w. simpl. by rewrite !app_nil_r.
  - cbn [listen_partitions]. unfold this at 1. unfold_M.
    destruct (BuildQueueNameByPartition_run (systemId (obj w)) v w) as [new1 ->].
    unfold write_line, call_provider_Listen. cbn [obj transport listening lines].
    cbn [fmap list_fmap listen_each].
    destruct (provider_Listen (obj w) _ (transport w)) as [r' s'].
    destruct (IH r' (MkLife (obj w) s'
                       (listening w ++ [partition_queue (systemId (obj w)) (node (obj w)) v])
                       ((lines w ++ new1)
                        ++ [LineListenPartition v
                              (partition_queue (systemId (obj w)) (node (obj w)) v)])))
      as [new2 ->].
    cbn [obj transport listening lines].
    eexists (new1 ++ _ :: new2). f_equal. f_equal.
    + by rewrite <- app_assoc.
    + by rewrite <- !app_assoc.
Qed.

End LifecycleFacts.

Section StartFacts.
Context {PS LS C : Type}.
Implicit Types (w : Life PS LS C) (vs : list Z).

Lemma listen_each_snoc (listen : string → PS → (option C * option error) * PS)
    (names : list string) (name : string) (r : option C * option error) (s : PS) :
  listen_each listen (names ++ [name]) r s
  = listen name (listen_each listen names r s).2.
Proof.
  revert r s. induction names as [|n names IH]; intros r s; simpl.
  - by destruct (listen name s).
  - destruct (listen n s) as [r' s']. apply IH.
Qed.

Lemma Start_started vs w :
  started (obj w) = true →
  Start vs w = (Ret (None, Some (ErrAlreadyStarted (node (obj w)))), w).
Proof. intros Hs. unfold Start, this. unfold_M. by rewrite Hs. Qed.

Lemma Start_panic vs w :
  started (obj w) = false →
  Exists (bad_partition (partitions (outbound (obj w)))) vs →
  Start vs w
  = (Panic, MkLife (mark_started (obj w)) (transport w) (listening w) (lines w)).
Proof.
  intros Hs Hbad. unfold Start, this, set_started. unfold_M. rewrite Hs.
  cbn [obj outbound]. rewrite check_partitions_run. by rewrite decide_True.
Qed.

Lemma Start_pass vs w :
  started (obj w) = false →
  ¬ Exists (bad_partition (partitions (outbound (obj w)))) vs →
  ∃ new,
    Start vs w
    = (Ret (listen_each (provider_Listen (obj w))
              (listened_names (partitions (outbound (obj w)))
                 (systemId (obj w)) (node (obj w)) vs)
              (None, None) (transport w)).1,
       MkLife (mark_started (obj w))
         (listen_each (provider_Listen (obj w))
            (listened_names (partitions (outbound (obj w)))
               (systemId (obj w)) (node (obj w)) vs)
            (None, None) (transport w)).2
         (listening w
          ++ listened_names (partitions (outbound (obj w)))
               (systemId (obj w)) (node (obj w)) vs)
         (lines w ++ new)).
Proof.
  intros Hs Hok. unfold Start, this, set_started. unfold_M. rewrite Hs.
  cbn [obj outbound]. rewrite check_partitions_run, decide_False by done.
  unfold listened_names. cbn [obj outbound systemId].
  destruct (decide (partitions (outbound (obj w)) = 1)) as [H1|H1].
  - match goal with
    | |- context [BuildQueueName ?sid ?w'] =>
        destruct (BuildQueueName_run sid w') as [new1 ->]
    end.
    unfold write_line, call_provider_Listen.
    cbn [obj transport listening lines node provider_Listen listen_each].
    destruct (provider_Listen (obj w) _ (transport w)) as [r' s'].
    eexists (new1 ++ [_]). cbn [fst snd]. by rewrite <- app_assoc.
  - destruct (decide (length vs = 0)%nat) as [Hl|Hl].
    + match goal with
      | |- context [listen_partitions ?xs ?r ?w'] =>
          destruct (listen_partitions_run xs r w') as [new1 ->]
      end.
      by exists new1.
    + match goal with
      | |- context [listen_partitions ?xs ?r ?w'] =>
          destruct (listen_partitions_run xs r w') as [new1 ->]
      end.
      by exists new1.
Qed.

(** X15.  [Start] runs once.  Whatever a first call did (it listened,
    the transport refused, or it panicked on a partition number and the
    caller recovered), the client is marked as started, and every later
    call returns the already-started error and changes nothing: a failed
    start cannot be tried again on the same client. *)
Theorem X15_Start_only_once vs vs' w :
  let w1 := (Start vs w).2 in
  started (obj w1) = true
  ∧ Start vs' w1 = (Ret (None, Some (ErrAlreadyStarted (node (obj w)))), w1).
Proof.
  cbv zeta.
  assert (started (obj (Start vs w).2) = true
          ∧ node (obj (Start vs w).2) = node (obj w)) as [Hs Hn].
  { destruct (started (obj w)) eqn:Hs.
    - by rewrite Start_started.
    - destruct (decide (Exists (bad_partition (partitions (outbound (obj w)))) vs))
        as [Hbad|Hok].
      + by rewrite Start_panic.
      + by destruct (Start_pass vs w Hs Hok) as [new ->]. }
  split; [done|]. rewrite <- Hn. by apply Start_started.
Qed.

(** X16.  What a first [Start] listens on.  Unless a listed partition
    number is negative and below the configured count, [Start] returns:
    it calls [Listen] once per queue, in order, on the node's single
    queue when one partition is configured (the list is then ignored), on
    the partitions 0 to n-1 when the list is empty, else on exactly the
    listed partitions, whether or not they are below the configured
    count.  What it returns is the result of the last [Listen] alone:
    an error of an earlier call is lost; with nothing to listen on
    (an empty list and a count of zero or less) it returns no closer and
    no error. *)
Theorem X16_Start_listens vs w :
  started (obj w) = false →
  ¬ Exists (bad_partition (partitions (outbound (obj w)))) vs →
  let names := listened_names (partitions (outbound (obj w)))
                 (systemId (obj w)) (node (obj w)) vs in
  let r := Start vs w in
  listening r.2 = listening w ++ names
  ∧ transport r.2
    = (listen_each (provider_Listen (obj w)) names (None, None) (transport w)).2
  ∧ (names = [] → r.1 = Ret (None, None))
  ∧ (∀ init name, names = init ++ [name] →
       r.1 = Ret (provider_Listen (obj w) name
                    (listen_each (provider_Listen (obj w)) init (None, None)
                       (transport w)).2).1).
Proof.
  intros Hs Hok. cbv zeta. destruct (Start_pass vs w Hs Hok) as [new ->].
  cbn [fst snd listening transport]. split_and!; [done|done|..].
  - by intros ->.
  - intros init name ->. by rewrite listen_each_snoc.
Qed.

(** X17.  When [Start] panics.  A first [Start] panics exactly when some
    listed partition number is negative and below the configured count;
    this is checked before any queue is listened on, and after the flag is
    set: nothing is listened on, and the client counts as started. *)
Theorem X17_Start_panics vs w :
  started (obj w) = false →
  ((Start vs w).1 = Panic
   ↔ Exists (bad_partition (partitions (outbound (obj w)))) vs)
  ∧ ((Start vs w).1 = Panic →
       listening (Start vs w).2 = listening w
       ∧ transport (Start vs w).2 = transport w
       ∧ started (obj (Start vs w).2) = true).
Proof.
  intros Hs.
  destruct (decide (Exists (bad_partition (partitions (outbound (obj w)))) vs))
    as [Hbad|Hok].
  - by rewrite Start_panic.
  - destruct (Start_pass vs w Hs Hok) as [new ->]. simpl. by split.
Qed.

End StartFacts.

Lemma X14_AddProcessor_last_wins_witness :
  processorMap
    (obj (AddProcessor [answering_processor "order" None;
                        answering_processor "order" (Some body_ok)]
            (biz_life 1 "")).2) !! "order"
  = Some (answering_processor "order" (Some body_ok)).
Proof.
  exact (proj1 (proj1 (proj2 (X14_AddProcessor_last_wins
                                [answering_processor "order" None;
                                 answering_processor "order" (Some body_ok)]
                                (biz_life 1 "")))
                  eq_refl)
           "order").
Defined.

Lemma X16_Start_listens_witness :
  (Start [] (biz_life 2 "sys_amq_0001_biz_p0")).1 = Ret (Some tt, None)
  ∧ listening (Start [] (biz_life 2 "sys_amq_0001_biz_p0")).2
    = ["sys_amq_0001_biz_p0"; "sys_amq_0001_biz_p1"].
Proof.
  assert (¬ Exists (bad_partition
                      (partitions (outbound (obj (biz_life 2 "sys_amq_0001_biz_p0")))))
              []) as Hok by (by intros ?%Exists_nil).
  split.
  - exact (proj2 (proj2 (proj2 (X16_Start_listens []
                                  (biz_life 2 "sys_amq_0001_biz_p0") eq_refl Hok)))
             ["sys_amq_0001_biz_p0"] "sys_amq_0001_biz_p1" eq_refl).
  - exact (proj1 (X16_Start_listens [] (biz_life 2 "sys_amq_0001_biz_p0")
                    eq_refl Hok)).
Defined.

Lemma X17_Start_panics_witness :
  (Start [1; -1] (biz_life 2 "")).1 = Panic.
Proof.
  apply (proj1 (X17_Start_panics [1; -1] (biz_life 2 "") eq_refl)).
  right. left. split; simpl; lia.
Defined.

(* ===================================================================== *)
(** * Further properties: queue names and the outbound check *)
(* ===================================================================== *)

Lemma length_append (s1 s2 : string) :
  String.length (s1 +:+ s2) = (String.length s1 + String.length s2)%nat.
Proof. induction s1 as [|a s1 IH]; simpl; [done|]. by rewrite IH. Qed.

Lemma substring_prefix (p rest : string) :
  substring 0 (String.length p) (p +:+ rest) = p.
Proof.
  induction p as [|a p IH]; simpl.
  - by destruct rest.
  - by rewrite IH.
Qed.

Lemma consumed_app (p rest : string) : regexp.consumed (p +:+ rest) rest = p.
Proof.
  unfold regexp.consumed. rewrite length_append.
  replace (String.length p + String.length rest - String.length rest)%nat
    with (String.length p) by lia.
  apply substring_prefix.
Qed.

Lemma consumed_all (s : string) : regexp.consumed s "" = s.
Proof.
  rewrite <- (append_empty_r s) at 1. apply consumed_app.
Qed.

Lemma strip_prefix_app (p s : string) : regexp.strip_prefix p (p +:+ s) = Some s.
Proof.
  induction p as [|a p IH]; simpl; [done|]. by rewrite decide_True.
Qed.

Lemma FindStringSubmatch_unfold (r : regexp.t) (s : string) :
  regexp.FindStringSubmatch r s
  = match regexp.match_here r s ∅
            (λ rest caps, Some (<[0%nat := regexp.consumed s rest]> caps)) with
    | Some caps => regexp.submatches r caps
    | None =>
        match s with
        | String _ s' => regexp.FindStringSubmatch r s'
        | EmptyString => []
        end
    end.
Proof. by destruct s. Qed.

Section ClassRuns.
Context {R : Type}.
Implicit Types (c : regexp.class) (k : string → option R).

(** A run of [c*] over characters of the class stops where the
    continuation first succeeds, reading from the longest run down. *)
Lemma star_class_prefix c (pre post : string) k (x : R) :
  in_class_all c pre = true →
  regexp.star_class c post k = Some x →
  regexp.star_class c (pre +:+ post) k = Some x.
Proof.
  intros Hpre Hpost. induction pre as [|a pre IH]; [done|].
  cbn [in_class_all] in Hpre. apply andb_prop in Hpre as [Ha Hpre].
  change (String a pre +:+ post) with (String a (pre +:+ post)).
  cbn [regexp.star_class]. by rewrite Ha, IH.
Qed.

Lemma star_class_all c (s : string) k (x : R) :
  in_class_all c s = true → k "" = Some x → regexp.star_class c s k = Some x.
Proof.
  intros Hs Hk. rewrite <- (append_empty_r s).
  by apply star_class_prefix.
Qed.

Lemma plus_class_all c (s : string) k (x : R) :
  s ≠ "" → in_class_all c s = true → k "" = Some x →
  regexp.plus_class c s k = Some x.
Proof.
  intros Hne Hs Hk. destruct s as [|a s]; [done|].
  cbn [in_class_all] in Hs. apply andb_prop in Hs as [Ha Hs].
  cbn [regexp.plus_class]. rewrite Ha. by apply star_class_all.
Qed.

Lemma plus_class_prefix c (pre post : string) k (x : R) :
  pre ≠ "" → in_class_all c pre = true →
  regexp.star_class c post k = Some x →
  regexp.plus_class c (pre +:+ post) k = Some x.
Proof.
  intros Hne Hpre Hpost. destruct pre as [|a pre]; [done|].
  cbn [in_class_all] in Hpre. apply andb_prop in Hpre as [Ha Hpre].
  change (String a pre +:+ post) with (String a (pre +:+ post)).
  cbn [regexp.plus_class]. rewrite Ha. by apply star_class_prefix.
Qed.

(** No suffix lets the continuation succeed: the run fails. *)
Lemma star_class_None c (s : string) k :
  (∀ pre post, s = pre +:+ post → k post = None) →
  regexp.star_class c s k = None.
Proof.
  induction s as [|a s IH]; intros Hk.
  - apply (Hk "" ""). done.
  - cbn [regexp.star_class]. rewrite IH.
    + destruct (regexp.in_class c a); by apply (Hk "").
    + intros pre post ->. by apply (Hk (String a pre)).
Qed.

End ClassRuns.

Lemma four_digits_inv (sid : string) :
  four_digits sid = true →
  ∃ a b c d, sid = String a (String b (String c (String d "")))
    ∧ regexp.in_class regexp.Digit a = true ∧ regexp.in_class regexp.Digit b = true
    ∧ regexp.in_class regexp.Digit c = true ∧ regexp.in_class regexp.Digit d = true.
Proof.
  destruct sid as [|a [|b [|c [|d [|? ?]]]]]; try discriminate.
  unfold four_digits.
  rewrite !andb_true_iff. intros [[[? ?] ?] ?]. by exists a, b, c, d.
Qed.

Lemma repeat_four_digits {R : Type} (sid rest : string) (k : string → option R) :
  four_digits sid = true →
  regexp.repeat_class 4 regexp.Digit (sid +:+ rest) k = k rest.
Proof.
  intros (a & b & c & d & -> & Ha & Hb & Hc & Hd)%four_digits_inv.
  change (String a (String b (String c (String d ""))) +:+ rest)
    with (String a (String b (String c (String d rest)))).
  cbn [regexp.repeat_class]. by rewrite Ha, Hb, Hc, Hd.
Qed.

Lemma match_here_Cat (r1 r2 : regexp.t) (s : string) (caps : regexp.captures)
    (k : string → regexp.captures → option regexp.captures) :
  regexp.match_here (regexp.Cat r1 r2) s caps k
  = regexp.match_here r1 s caps (λ rest caps', regexp.match_here r2 rest caps' k).
Proof. reflexivity. Qed.

(** The head of both patterns, the group (sys_amq_\d{4}). *)
Lemma match_here_head (sid rest : string) (caps : regexp.captures)
    (k : string → regexp.captures → option regexp.captures) :
  four_digits sid = true →
  regexp.match_here
    (regexp.Group 1 (regexp.Cat (regexp.Lit "sys_amq_") (regexp.Repeat 4 regexp.Digit)))
    ("sys_amq_" +:+ sid +:+ rest) caps k
  = k rest (<[1%nat := "sys_amq_" +:+ sid]> caps).
Proof.
  intros Hsid. cbn [regexp.match_here].
  rewrite strip_prefix_app, repeat_four_digits by done.
  by rewrite (append_assoc "sys_amq_" sid rest), consumed_app.
Qed.

Lemma submatches_three (r : regexp.t) (whole g1 g2 : string) :
  regexp.NumSubexp r = 2%nat →
  regexp.submatches r
    (<[0%nat := whole]> (<[2%nat := g2]> (<[1%nat := g1]> ∅)))
  = [whole; g1; g2].
Proof.
  intros Hn. unfold regexp.submatches. rewrite Hn. cbn [seq List.map].
  assert (∀ (m : gmap nat string) i j x, i ≠ j → <[i := x]> m !! j = m !! j)
    as Hne by (intros; by apply lookup_insert_ne).
  assert (∀ (m : gmap nat string) i x, <[i := x]> m !! i = Some x)
    as Heq by (intros; by apply lookup_insert_eq).
  by rewrite Heq, (Hne _ 0%nat 1%nat), (Hne _ 2%nat 1%nat), Heq,
    (Hne _ 0%nat 2%nat), Heq.
Qed.

(** The single-partition pattern on a well-formed name: the node segment
    is everything after the system id. *)
Lemma FindStringSubmatch_single (sid nm : string) :
  four_digits sid = true → nm ≠ "" →
  in_class_all regexp.AnyCharNotNL nm = true →
  regexp.FindStringSubmatch pattern_single ("sys_amq_" +:+ sid +:+ "_" +:+ nm)
  = ["sys_amq_" +:+ sid +:+ "_" +:+ nm; "sys_amq_" +:+ sid; nm].
Proof.
  intros Hsid Hne Hnm. rewrite FindStringSubmatch_unfold.
  unfold pattern_single at 1.
  rewrite match_here_Cat, match_here_head by done.
  cbn [regexp.match_here]. rewrite strip_prefix_app.
  erewrite plus_class_all; [|done..|reflexivity].
  rewrite !consumed_all. by apply submatches_three.
Qed.

Lemma in_class_all_app (c : regexp.class) (pre post : string) :
  in_class_all c (pre +:+ post) = in_class_all c pre && in_class_all c post.
Proof.
  induction pre as [|a pre IH]; [done|].
  change (String a pre +:+ post) with (String a (pre +:+ post)).
  cbn [in_class_all]. by rewrite IH, andb_assoc.
Qed.

Lemma star_class_first {R : Type} (c : regexp.class) (a : ascii) (s : string)
    (k : string → option R) :
  regexp.star_class c s k = None →
  regexp.star_class c (String a s) k = k (String a s).
Proof. intros Hs. cbn [regexp.star_class]. rewrite Hs. by destruct (regexp.in_class c a). Qed.

(** The tail _p\d+ of the partitioned pattern does not start inside a run
    of digits. *)
Lemma strip_p_digits (ds pre post : string) :
  in_class_all regexp.Digit ds = true → ds = pre +:+ post →
  regexp.strip_prefix "_p" post = None.
Proof.
  intros Hds ->. rewrite in_class_all_app in Hds.
  apply andb_prop in Hds as [_ Hpost]. destruct post as [|a post]; [done|].
  cbn [in_class_all] in Hpost. apply andb_prop in Hpost as [Ha _].
  cbn [regexp.strip_prefix]. case_decide as Heq; [|done].
  subst a. discriminate Ha.
Qed.

(** The partitioned pattern on a well-formed name: the node segment is
    what stands between the system id and the last _p followed by
    digits. *)
Lemma FindStringSubmatch_partitioned (sid nm ds : string) :
  four_digits sid = true → nm ≠ "" →
  in_class_all regexp.AnyCharNotNL nm = true →
  ds ≠ "" → in_class_all regexp.Digit ds = true →
  regexp.FindStringSubmatch pattern_partitioned
    ("sys_amq_" +:+ sid +:+ "_" +:+ nm +:+ "_p" +:+ ds)
  = ["sys_amq_" +:+ sid +:+ "_" +:+ nm +:+ "_p" +:+ ds; "sys_amq_" +:+ sid; nm].
Proof.
  intros Hsid Hne Hnm Hdne Hds. rewrite FindStringSubmatch_unfold.
  unfold pattern_partitioned at 1.
  rewrite match_here_Cat, match_here_head by done.
  cbn [regexp.match_here]. rewrite strip_prefix_app.
  erewrite plus_class_prefix; [|done|done|].
  2:{ change ("_p" +:+ ds) with (String "_" (String "p" ds)).
      rewrite star_class_first.
      - change (String "_" (String "p" ds)) with ("_p" +:+ ds).
        rewrite strip_prefix_app.
        by apply plus_class_all.
      - rewrite star_class_first; [done|].
        apply star_class_None. intros pre post Hsplit.
        by rewrite (strip_p_digits ds pre post). }
  rewrite consumed_all, consumed_app. by apply submatches_three.
Qed.

Lemma strip_prefix_Some (p s rest : string) :
  regexp.strip_prefix p s = Some rest → s = p +:+ rest.
Proof.
  revert s. induction p as [|a p IH]; intros s; simpl.
  - by intros [= ->].
  - destruct s as [|b s]; [done|]. case_decide as Heq; [|done].
    intros ->%IH. by subst.
Qed.

Section Continuations.
Context {R : Type}.
Implicit Types (c : regexp.class) (k : string → option R).

Lemma repeat_class_None (n : nat) c (s : string) k :
  (∀ pre post, s = pre +:+ post → k post = None) →
  regexp.repeat_class n c s k = None.
Proof.
  revert s. induction n as [|n IH]; intros s Hk; simpl.
  - by apply (Hk "").
  - destruct s as [|a s]; [done|]. destruct (regexp.in_class c a); [|done].
    apply IH. intros pre post ->. by apply (Hk (String a pre)).
Qed.

Lemma plus_class_None c (s : string) k :
  (∀ pre post, s = pre +:+ post → k post = None) →
  regexp.plus_class c s k = None.
Proof.
  intros Hk. destruct s as [|a s]; [done|]. simpl.
  destruct (regexp.in_class c a); [|done].
  apply star_class_None. intros pre post ->. by apply (Hk (String a pre)).
Qed.

End Continuations.

(** A match calls its continuation only on suffixes of the string: when
    the continuation fails on all of them, there is no match. *)
Lemma match_here_None (r : regexp.t) (s : string) (caps : regexp.captures)
    (k : string → regexp.captures → option regexp.captures) :
  (∀ pre post caps', s = pre +:+ post → k post caps' = None) →
  regexp.match_here r s caps k = None.
Proof.
  revert s caps k.
  induction r as [l|n c|c|i r IH|r1 IH1 r2 IH2]; intros s caps k Hk;
    cbn [regexp.match_here].
  - destruct (regexp.strip_prefix l s) as [rest|] eqn:Hl; [|done].
    apply strip_prefix_Some in Hl. by apply (Hk l).
  - apply repeat_class_None. intros pre post Hs. by apply (Hk pre).
  - apply plus_class_None. intros pre post Hs. by apply (Hk pre).
  - apply IH. intros pre post caps' Hs. by apply (Hk pre).
  - apply IH1. intros pre post caps' ->. apply IH2.
    intros pre' post' caps'' ->. apply (Hk (pre +:+ pre')).
    by rewrite <- append_assoc.
Qed.

Lemma match_here_partitioned_None (s : string) (caps : regexp.captures)
    (k : string → regexp.captures → option regexp.captures) :
  (∀ pre post, s = pre +:+ post → regexp.strip_prefix "_p" post = None) →
  regexp.match_here pattern_partitioned s caps k = None.
Proof.
  intros Hs. unfold pattern_partitioned.
  rewrite match_here_Cat. apply match_here_None. intros pre1 post1 caps1 ->.
  rewrite match_here_Cat. apply match_here_None. intros pre2 post2 caps2 ->.
  rewrite match_here_Cat. apply match_here_None. intros pre3 post3 caps3 ->.
  cbn [regexp.match_here].
  rewrite (Hs (pre1 +:+ pre2 +:+ pre3) post3); [done|].
  by rewrite <- !append_assoc.
Qed.

(** Without _p anywhere in the name the partitioned pattern matches at no
    offset. *)
Lemma FindStringSubmatch_partitioned_None (s : string) :
  (∀ pre post, s = pre +:+ post → regexp.strip_prefix "_p" post = None) →
  regexp.FindStringSubmatch pattern_partitioned s = [].
Proof.
  induction s as [|a s IH]; intros Hs; rewrite FindStringSubmatch_unfold;
    rewrite match_here_partitioned_None by done; [done|].
  apply IH. intros pre post ->. by apply (Hs (String a pre)).
Qed.

(** ** The names the client builds *)

Lemma digits_of_uint (u : Decimal.uint) :
  in_class_all regexp.Digit (NilEmpty.string_of_uint u) = true.
Proof. induction u; simpl; try done; by rewrite IHu. Qed.

Lemma digits_of_uint_zero (u : Decimal.uint) :
  NilZero.string_of_uint u ≠ ""
  ∧ in_class_all regexp.Digit (NilZero.string_of_uint u) = true.
Proof.
  destruct u; (split; [done|]); try done;
    unfold NilZero.string_of_uint; apply digits_of_uint.
Qed.

Lemma ToStr_digits (v : Z) :
  0 ≤ v → ToStr v ≠ "" ∧ in_class_all regexp.Digit (ToStr v) = true.
Proof.
  intros Hv. unfold ToStr. destruct v as [|p|p]; [done| |lia].
  apply digits_of_uint_zero.
Qed.

Lemma Node_String_cases (n : Node.t) :
  Node.String n = "biz" ∨ Node.String n = "fund" ∨ Node.String n = "opt"
  ∨ Node.String n = "Unknown".
Proof.
  unfold Node.String, Node.BIZ, Node.OPT. case_decide as Hn; [by auto|].
  assert (n = 0 ∨ n = 1 ∨ n = 2) as [-> | [-> | ->]] by lia; auto.
Qed.

Lemma Node_String_class (n : Node.t) :
  Node.String n ≠ "" ∧ in_class_all regexp.AnyCharNotNL (Node.String n) = true.
Proof. by destruct (Node_String_cases n) as [-> | [-> | [-> | ->]]]. Qed.

Lemma no_p_nil (pre post : string) :
  "" = pre +:+ post → regexp.strip_prefix "_p" post = None.
Proof. destruct pre, post; done. Qed.

Lemma no_p_cons (x : ascii) (s : string) :
  regexp.strip_prefix "_p" (String x s) = None →
  (∀ pre post, s = pre +:+ post → regexp.strip_prefix "_p" post = None) →
  ∀ pre post, String x s = pre +:+ post → regexp.strip_prefix "_p" post = None.
Proof.
  intros Hx Hs pre post Heq. destruct pre as [|y pre].
  - change ("" +:+ post) with post in Heq. by rewrite <- Heq.
  - change (String y pre +:+ post) with (String y (pre +:+ post)) in Heq.
    injection Heq as _ Heq. by apply (Hs pre).
Qed.

Lemma no_p_digit (a : ascii) (s : string) :
  regexp.in_class regexp.Digit a = true →
  regexp.strip_prefix "_p" (String a s) = None.
Proof.
  intros Ha. cbn [regexp.strip_prefix]. case_decide as Heq; [|done].
  subst a. discriminate Ha.
Qed.

Lemma no_p_before_digit (a : ascii) (s : string) :
  regexp.in_class regexp.Digit a = true →
  regexp.strip_prefix "_p" (String "_" (String a s)) = None.
Proof.
  intros Ha. cbn [regexp.strip_prefix]. rewrite decide_True by done.
  case_decide as Heq; [|done]. subst a. discriminate Ha.
Qed.

(** A name [BuildQueueName] builds holds no _p. *)
Lemma single_queue_no_p (sid : string) (n : Node.t) :
  four_digits sid = true →
  ∀ pre post, single_queue sid n = pre +:+ post →
              regexp.strip_prefix "_p" post = None.
Proof.
  intros (a & b & c & d & -> & Ha & Hb & Hc & Hd)%four_digits_inv.
  unfold single_queue.
  destruct (Node_String_cases n) as [-> | [-> | [-> | ->]]]; cbv [String.append];
    repeat (apply no_p_cons; [first [reflexivity|by apply no_p_before_digit|by apply no_p_digit]|]);
    apply no_p_nil.
Qed.

Lemma GetNode_partition_segment (n : Node.t) (ds : string) :
  Node.HasNode (Node.String n +:+ "_p" +:+ ds) = false.
Proof.
  unfold Node.HasNode, Node.GetNode.
  change (Node.String Node.BIZ) with "biz".
  change (Node.String Node.FUND) with "fund".
  change (Node.String Node.OPT) with "opt".
  destruct (Node_String_cases n) as [-> | [-> | [-> | ->]]];
    cbv [String.append]; by rewrite !decide_False.
Qed.

Lemma BuildQueueName_value {PS LS C : Type} (w : Life PS LS C) (sid : string) :
  (BuildQueueName sid w).1 = Ret (single_queue sid (node (obj w))).
Proof. by destruct (BuildQueueName_run sid w) as [new ->]. Qed.

Lemma BuildQueueNameByPartition_value {PS LS C : Type} (w : Life PS LS C)
    (sid : string) (v : Z) :
  (BuildQueueNameByPartition sid v w).1
  = Ret (partition_queue sid (node (obj w)) v).
Proof. by destruct (BuildQueueNameByPartition_run sid v w) as [new ->]. Qed.

Lemma passes_submatch {PS : Type} (c : Client PS) (name : string) (m : list string) :
  regexp.FindStringSubmatch (queueNamePattern c) name = m → m ≠ [] →
  passes c name.
Proof. intros <-. done. Qed.

(** X18.  A name built by [BuildQueueName] for a four-digit system id,
    used as the destination of a notice.  A client configured with one
    partition finds the system prefix and the name of the builder's node
    in it and hands the notice to the transport, returning the
    transport's result.  A client configured with any other partition
    count refuses it with the queue-name error and sends nothing: such a
    client cannot address a single-partition queue. *)
Theorem X18_BuildQueueName_and_the_check {PS LS C PS' : Type}
    (w : Life PS LS C) (sid : string) (cfg : Z) (prov : Provider PS')
    (nm : NoticeMessage.t) (cw : ClientWorld PS') :
  four_digits sid = true →
  (BuildQueueName sid w).1 = Ret (NoticeMessage.Destination nm) →
  let c := newClient cfg prov in
  let r := Send c (Notice nm) cw in
  (cfg = 1 →
     regexp.FindStringSubmatch (queueNamePattern c) (NoticeMessage.Destination nm)
     = [NoticeMessage.Destination nm; "sys_amq_" +:+ sid;
        Node.String (node (obj w))]
     ∧ r.1 = Ret (provider_Send prov (Notice nm) (pstate cw)).1
     ∧ sent r.2 = sent cw ++ [Notice nm])
  ∧ (cfg ≠ 1 →
       r.1 = Ret (Some (ErrQueueName (NoticeMessage.Destination nm)))
       ∧ sent r.2 = sent cw).
Proof.
  intros Hsid Hname. rewrite BuildQueueName_value in Hname.
  injection Hname as Hname. cbv zeta. split.
  - intros ->.
    assert (regexp.FindStringSubmatch (queueNamePattern (newClient 1 prov))
              (NoticeMessage.Destination nm)
            = [NoticeMessage.Destination nm; "sys_amq_" +:+ sid;
               Node.String (node (obj w))]) as Hm.
    { rewrite <- Hname. unfold single_queue. simpl.
      apply FindStringSubmatch_single; [done|apply Node_String_class..]. }
    split; [done|].
    destruct (Send_hands_over (newClient 1 prov) (Notice nm) cw) as (? & ? & _);
      [|done].
    repeat constructor. by apply (passes_submatch _ _ _ Hm).
  - intros Hcfg.
    destruct (Send_rejects_bad_name (newClient cfg prov) (Notice nm) []
                (NoticeMessage.Destination nm) [] cw) as (? & ? & _);
      [done|done| |done].
    unfold passes. simpl. rewrite decide_False by done. intros Hp. apply Hp.
    apply FindStringSubmatch_partitioned_None. intros pre post Hsplit.
    rewrite <- Hname in Hsplit. by apply (single_queue_no_p sid (node (obj w)) Hsid pre).
Qed.

(** X19.  A name built by [BuildQueueNameByPartition] for a four-digit
    system id and a partition number that is not negative, used as the
    destination of a notice.  A client configured with a partition count
    other than one finds the system prefix and the node name in it and
    hands the notice over.  A client configured with one partition hands
    it over as well, but takes the node name together with the partition
    suffix as the node, which names no node. *)
Theorem X19_BuildQueueNameByPartition_and_the_check {PS LS C PS' : Type}
    (w : Life PS LS C) (sid : string) (v : Z) (cfg : Z) (prov : Provider PS')
    (nm : NoticeMessage.t) (cw : ClientWorld PS') :
  four_digits sid = true → 0 ≤ v →
  (BuildQueueNameByPartition sid v w).1 = Ret (NoticeMessage.Destination nm) →
  let c := newClient cfg prov in
  let r := Send c (Notice nm) cw in
  r.1 = Ret (provider_Send prov (Notice nm) (pstate cw)).1
  ∧ sent r.2 = sent cw ++ [Notice nm]
  ∧ (cfg ≠ 1 →
       regexp.FindStringSubmatch (queueNamePattern c) (NoticeMessage.Destination nm)
       = [NoticeMessage.Destination nm; "sys_amq_" +:+ sid;
          Node.String (node (obj w))])
  ∧ (cfg = 1 →
       regexp.FindStringSubmatch (queueNamePattern c) (NoticeMessage.Destination nm)
       = [NoticeMessage.Destination nm; "sys_amq_" +:+ sid;
          Node.String (node (obj w)) +:+ "_p" +:+ ToStr v]
       ∧ Node.HasNode (Node.String (node (obj w)) +:+ "_p" +:+ ToStr v) = false).
Proof.
  intros Hsid Hv Hname. rewrite BuildQueueNameByPartition_value in Hname.
  injection Hname as Hname. cbv zeta.
  destruct (ToStr_digits v Hv) as [Hne Hds].
  destruct (Node_String_class (node (obj w))) as [Hnne Hncl].
  assert (cfg ≠ 1 →
          regexp.FindStringSubmatch (queueNamePattern (newClient cfg prov))
            (NoticeMessage.Destination nm)
          = [NoticeMessage.Destination nm; "sys_amq_" +:+ sid;
             Node.String (node (obj w))]) as Hmulti.
  { intros Hcfg. rewrite <- Hname. unfold partition_queue. simpl.
    rewrite decide_False by done. by apply FindStringSubmatch_partitioned. }
  assert (cfg = 1 →
          regexp.FindStringSubmatch (queueNamePattern (newClient cfg prov))
            (NoticeMessage.Destination nm)
          = [NoticeMessage.Destination nm; "sys_amq_" +:+ sid;
             Node.String (node (obj w)) +:+ "_p" +:+ ToStr v]) as Hsingle.
  { intros ->. rewrite <- Hname. unfold partition_queue. simpl.
    apply FindStringSubmatch_single; [done| |].
    - by destruct (Node.String (node (obj w))).
    - rewrite !in_class_all_app, Hncl. simpl.
      clear -Hds. induction (ToStr v) as [|a s IH]; [done|].
      cbn [in_class_all] in *. apply andb_prop in Hds as [Ha Hs].
      rewrite IH by done. rewrite andb_true_r.
      destruct (decide (a = "010"%char)) as [->|Hnl]; [discriminate Ha|].
      unfold regexp.in_class. apply negb_true_iff, Z.eqb_neq. intros Heq.
      apply Hnl. rewrite <- (ascii_N_embedding a).
      replace (N_of_ascii a) with 10%N by lia. done. }
  assert (passes (newClient cfg prov) (NoticeMessage.Destination nm)) as Hpass.
  { destruct (decide (cfg = 1)) as [H1|H1].
    - by apply (passes_submatch _ _ _ (Hsingle H1)).
    - by apply (passes_submatch _ _ _ (Hmulti H1)). }
  destruct (Send_hands_over (newClient cfg prov) (Notice nm) cw) as (? & ? & _);
    [by repeat constructor|].
  split_and!; [done..|].
  intros H1. split; [by apply Hsingle|]. apply GetNode_partition_segment.
Qed.

(** ** The outcome of [Send] *)




Lemma submatches_nonempty (r : regexp.t) (caps : regexp.captures) :
  regexp.submatches r caps ≠ [].
Proof. unfold regexp.submatches. by cbn [seq List.map]. Qed.

Lemma passes_prefix {PS : Type} (c : Client PS) (prefix name : string) :
  passes c name → passes c (prefix +:+ name).
Proof.
  unfold passes. intros Hname. induction prefix as [|a prefix IH]; [done|].
  change (String a prefix +:+ name) with (String a (prefix +:+ name)).
  rewrite FindStringSubmatch_unfold.
  destruct (regexp.match_here _ _ _ _); [apply submatches_nonempty|done].
Qed.

(** X21.  The pattern is not anchored at the start of the name: when a
    destination passes the check of a client, so does the same
    destination behind any prefix, and the notice is handed to the
    transport. *)
Theorem X21_check_not_anchored {PS : Type} (c : Client PS)
    (nm : NoticeMessage.t) (prefix : string) (w : ClientWorld PS) :
  passes c (NoticeMessage.Destination nm) →
  let nm' := NoticeMessage.Make (NoticeMessage.Message nm)
               (prefix +:+ NoticeMessage.Destination nm) in
  passes c (NoticeMessage.Destination nm')
  ∧ (Send c (Notice nm') w).1
    = Ret (provider_Send (provider c) (Notice nm') (pstate w)).1
  ∧ sent (Send c (Notice nm') w).2 = sent w ++ [Notice nm'].
Proof.
  intros Hpass. cbv zeta.
  assert (passes c (prefix +:+ NoticeMessage.Destination nm)) as Hp
    by by apply passes_prefix.
  split; [done|].
  destruct (Send_hands_over c
              (Notice (NoticeMessage.Make (NoticeMessage.Message nm)
                         (prefix +:+ NoticeMessage.Destination nm))) w)
    as (? & ? & _); [|done].
  by repeat constructor.
Qed.

Lemma X18_BuildQueueName_and_the_check_witness :
  (Send (newClient 2 accepting) (Notice ping_notice) (MkClientWorld tt [] [])).1
  = Ret (Some (ErrQueueName (NoticeMessage.Destination ping_notice)))
  ∧ sent (Send (newClient 2 accepting) (Notice ping_notice)
            (MkClientWorld tt [] [])).2
    = sent (MkClientWorld tt [] []).
Proof.
  refine (proj2 (X18_BuildQueueName_and_the_check (biz_life 1 "") "0002" 2
                   accepting ping_notice (MkClientWorld tt [] []) eq_refl _) _).
  - vm_compute. reflexivity.
  - lia.
Defined.

Lemma X19_BuildQueueNameByPartition_and_the_check_witness :
  (Send (newClient 4 accepting) (Notice ping_partition) (MkClientWorld tt [] [])).1
  = Ret (provider_Send accepting (Notice ping_partition)
           (pstate (MkClientWorld tt [] []))).1.
Proof.
  refine (proj1 (X19_BuildQueueNameByPartition_and_the_check (biz_life 4 "")
                   "0002" 3 4 accepting ping_partition (MkClientWorld tt [] [])
                   eq_refl _ _)).
  - lia.
  - vm_compute. reflexivity.
Defined.

Lemma X21_check_not_anchored_witness :
  let nm' := NoticeMessage.Make (NoticeMessage.Message ping_notice)
               ("anything at all " +:+ NoticeMessage.Destination ping_notice) in
  passes (newClient 1 accepting) (NoticeMessage.Destination nm')
  ∧ (Send (newClient 1 accepting) (Notice nm') (MkClientWorld tt [] [])).1
    = Ret (provider_Send (provider (newClient 1 accepting)) (Notice nm')
             (pstate (MkClientWorld tt [] []))).1
  ∧ sent (Send (newClient 1 accepting) (Notice nm') (MkClientWorld tt [] [])).2
    = sent (MkClientWorld tt [] []) ++ [Notice nm'].
Proof.
  refine (X21_check_not_anchored (newClient 1 accepting) ping_notice
            "anything at all " (MkClientWorld tt [] []) _).
  apply (bool_decide_unpack _). vm_compute. exact I.
Defined.

(* ===================================================================== *)
(** * Further properties: the registry of transports and the engine *)
(* ===================================================================== *)

Section RegistryFacts.
Context {P : Type}.
Implicit Types (calls : list (string * option P)) (providers : gmap string P).

Lemma register_all_cons (name : string) (provider : option P) calls providers :
  register_all ((name, provider) :: calls) providers
  = match provider with
    | None => (Panic, providers)
    | Some p =>
        match providers !! name with
        | Some _ => (Panic, providers)
        | None => register_all calls (<[name := p]> providers)
        end
    end.
Proof.
  cbn [register_all]. unfold Register. unfold_M.
  destruct provider as [p|]; [|done]. by destruct (providers !! name).
Qed.

(** X22.  The registry under a sequence of [Register] calls.  The
    sequence runs to its end exactly when no provider is nil, no name is
    registered twice in it and no name was registered before; otherwise
    the offending call panics.  Either way no name that was bound is ever
    bound to another provider, and names the sequence does not mention
    are as before.  After a sequence that ran to its end [Read] returns,
    for every call, the provider registered by it. *)
Theorem X22_Register_binds_once calls providers :
  let r := register_all calls providers in
  (r.1 = Ret tt
   ↔ Forall (λ c, c.2 ≠ None) calls ∧ NoDup calls.*1
     ∧ Forall (λ c, providers !! c.1 = None) calls)
  ∧ (∀ key p, providers !! key = Some p → r.2 !! key = Some p)
  ∧ (∀ key, key ∉ calls.*1 → r.2 !! key = providers !! key)
  ∧ (r.1 = Ret tt →
       ∀ name p, (name, Some p) ∈ calls → (Read name r.2).1 = Ret (Some p)).
Proof.
  cbv zeta. revert providers.
  induction calls as [|[name provider] calls IH]; intros providers.
  - simpl. split_and!; [|done|done|].
    + split; [intros _|done]. split_and!; constructor.
    + intros _ name p Hin. by apply elem_of_nil in Hin.
  - rewrite register_all_cons.
    destruct provider as [p|].
    2:{ split_and!; [|done|done|done].
        split; [done|]. intros (Hnil & _). by inversion Hnil. }
    destruct (providers !! name) as [q|] eqn:Hname.
    { split_and!; [|done|done|done].
      split; [done|]. intros (_ & _ & Hfresh). inversion Hfresh as [|? ? Hq].
      simpl in Hq. by rewrite Hname in Hq. }
    destruct (IH (<[name := p]> providers)) as (Hrun & Hkeep & Hother & Hread).
    split_and!.
    + rewrite Hrun. rewrite fmap_cons, NoDup_cons, !Forall_cons. simpl.
      split.
      * intros (Hnil & Hnd & Hfresh). split_and!; try done.
        -- intros Hin. apply list_elem_of_fmap in Hin as ([n' p'] & -> & Hin).
           rewrite Forall_forall in Hfresh. specialize (Hfresh _ Hin).
           simpl in Hfresh. by rewrite lookup_insert_eq in Hfresh.
        -- eapply Forall_impl; [exact Hfresh|]. intros [n' p'] Hl. simpl in *.
           destruct (decide (n' = name)) as [->|Hne].
           ++ by rewrite lookup_insert_eq in Hl.
           ++ by rewrite lookup_insert_ne in Hl.
      * intros ((_ & Hnil) & (Hnotin & Hnd) & (_ & Hfresh)).
        split_and!; try done.
        rewrite Forall_forall in Hfresh. apply Forall_forall.
        intros [n' p'] Hin. simpl. rewrite lookup_insert_ne.
        -- by apply (Hfresh (n', p')).
        -- intros <-. apply Hnotin. apply list_elem_of_fmap. by exists (name, p').
    + intros key q Hkey. apply Hkeep.
      rewrite lookup_insert_ne; [done|]. intros <-. by rewrite Hname in Hkey.
    + intros key Hkey. rewrite fmap_cons, not_elem_of_cons in Hkey.
      destruct Hkey as [Hne Hkey]. rewrite (Hother key Hkey).
      by rewrite lookup_insert_ne.
    + intros Hret n' p' Hin. apply elem_of_cons in Hin as [[= -> ->]|Hin].
      * unfold Read. simpl. f_equal. apply Hkeep. by rewrite lookup_insert_eq.
      * by apply Hread.
Qed.

End RegistryFacts.

Section EngineFacts.
Context {CR NS : Type}.
Variable construct : string → Node.t → NS → CR * NS.
Implicit Types (w : EngineWorld CR NS) (n : Node.t).

(** X23.  The engine builds one client per node.  [Engine] knows the
    three nodes and has no client.  [Client] refuses a node that is not
    one of them and builds nothing.  For a node of the engine the first
    call builds the client, from the engine's system id, and stores it;
    every later call returns the stored client without building again,
    and leaves the engine as it is; clients of other nodes are not
    touched. *)
Theorem X23_engine_one_client_per_node (systemId : string) w n :
  allNodes (Engine (CR := CR) systemId) = Node.Values
  ∧ clientMap (Engine (CR := CR) systemId) = ∅
  ∧ (Node.IsValid n ≠ None →
       ∃ err, Amq_Client construct n w = (Ret (None, Some err), w))
  ∧ (Node.IsValid n = None →
       let r1 := Amq_Client construct n w in
       ∃ client,
         r1.1 = Ret (Some client, None)
         ∧ Amq_Client construct n r1.2 = (Ret (Some client, None), r1.2)
         ∧ (clientMap (engine w) !! n = None →
              (client, build_state r1.2)
              = construct (amq_systemId (engine w)) n (build_state w))
         ∧ (∀ client', clientMap (engine w) !! n = Some client' →
              client = client' ∧ r1.2 = w)
         ∧ (∀ n', n' ≠ n →
              clientMap (engine r1.2) !! n' = clientMap (engine w) !! n')).
Proof.
  split_and!; [done|done|..].
  - intros Hn. unfold Amq_Client. rewrite decide_True by done. by eexists.
  - intros Hn. cbv zeta. unfold Amq_Client. rewrite !decide_False by (by intros ?).
    destruct (clientMap (engine w) !! n) as [client|] eqn:Hc.
    + exists client. simpl. rewrite Hc. split_and!; try done.
      by intros client' [= ->].
    + destruct (construct (amq_systemId (engine w)) n (build_state w))
        as [client s] eqn:Hcons.
      exists client. simpl. rewrite lookup_insert_eq. split_and!; try done.
      intros n' Hne. by rewrite lookup_insert_ne.
Qed.

End EngineFacts.

Lemma X22_Register_binds_once_witness :
  (Read "Kafka"
     (register_all [("Rabbit", Some 1%nat); ("Kafka", Some 2%nat)] ∅).2).1
  = Ret (Some 2%nat).
Proof.
  refine (proj2 (proj2 (proj2 (X22_Register_binds_once
                                 [("Rabbit", Some 1%nat); ("Kafka", Some 2%nat)] ∅)))
            _ "Kafka" 2%nat _).
  - vm_compute. reflexivity.
  - apply list_elem_of_further, list_elem_of_here.
Defined.

Lemma X23_engine_one_client_per_node_witness :
  let w := MkEngineWorld (Engine "0001") 0%nat in
  let r1 := Amq_Client counting_construct Node.FUND w in
  ∃ client,
    r1.1 = Ret (Some client, None)
    ∧ Amq_Client counting_construct Node.FUND r1.2 = (Ret (Some client, None), r1.2)
    ∧ (clientMap (engine w) !! Node.FUND = None →
         (client, build_state r1.2)
         = counting_construct (amq_systemId (engine w)) Node.FUND (build_state w))
    ∧ (∀ client', clientMap (engine w) !! Node.FUND = Some client' →
         client = client' ∧ r1.2 = w)
    ∧ (∀ n', n' ≠ Node.FUND →
         clientMap (engine r1.2) !! n' = clientMap (engine w) !! n').
Proof.
  exact (proj2 (proj2 (proj2 (X23_engine_one_client_per_node counting_construct
                                "0001" (MkEngineWorld (Engine "0001") 0%nat)
                                Node.FUND)))
           eq_refl).
Defined.
